(** * Metavision SDK driver: camera session core

    A shallow embedding of [sdk/modules/driver/cpp/src/camera.cpp] and
    [sdk/modules/driver/cpp/src/camera_generation.cpp], of the statistics
    of [metavision_raw_info.cpp] and of [StreamLoggerAlgorithm]
    ([stream_logger_algorithm.h]).

    Machine integers are integers of [Z] with their wrap-around written out;
    a [std::map] is a finite map, iterated by increasing key (the order in
    which its callbacks are invoked); the calls into the external
    collaborators (event stream, decoder, device control, file system, user
    callbacks) are recorded in a trace of events, and what they return is
    supplied from outside; the two threads of a session (the caller of
    [start()] and [stop()], and the acquisition thread) are a small-step
    machine run under an arbitrary schedule, in which a call of
    [set_is_running] is one step; what two such calls do when they overlap
    is told apart, statement by statement.

    The definitions come first: machine arithmetic, [CameraGeneration],
    [Camera], [CameraApi], [RawInfo], [StreamLogger]. The properties
    follow, in [IntFacts], [CameraGenerationSpec], [CameraSpec],
    [CameraApiSpec], [RawInfoSpec] and [StreamLoggerSpec]. *)

From Stdlib Require Import ZArith Bool Lia String.
From stdpp Require Import base list strings gmap sorting pretty.

Local Open Scope Z_scope.

(** ** Machine arithmetic *)

Module Int.

(** [uint32_t] *)
Definition wrap32 (x : Z) : Z := x mod 2 ^ 32.

(** [uint64_t] *)
Definition wrap64 (x : Z) : Z := x mod 2 ^ 64.

(** [int64_t] (two's complement), the representation of [timestamp] and of
    [std::chrono::microseconds]. *)
Definition wrap_s64 (x : Z) : Z := (x + 2 ^ 63) mod 2 ^ 64 - 2 ^ 63.

(** Conversion of an integer to [double], IEEE-754 binary64 in the default
    rounding mode (to nearest, ties to even): 53 significant bits are kept.
    The result is the integer the double stands for. *)
Definition to_double (x : Z) : Z :=
  let a := Z.abs x in
  if a <? 2 ^ 53 then x
  else
    let e := Z.log2 a - 52 in
    let q := a / 2 ^ e in
    let r := a mod 2 ^ e in
    let half := 2 ^ (e - 1) in
    let q' := if r <? half then q
              else if half <? r then q + 1
              else if Z.even q then q else q + 1 in
    Z.sgn x * (q' * 2 ^ e).

End Int.

(** ** CameraGeneration ([camera_generation.cpp]) *)

Module CameraGeneration.

(** [CameraGeneration::Private]: the two [short] members. *)
Record Private := { major_ : Z; minor_ : Z }.

(** [operator==] *)
Definition op_eq (a c : Private) : bool :=
  (major_ a =? major_ c) && (minor_ a =? minor_ c).

(** [operator!=] *)
Definition op_ne (a c : Private) : bool := negb (op_eq a c).

(** [operator<] *)
Definition op_lt (a c : Private) : bool :=
  (major_ a <? major_ c) || ((major_ a =? major_ c) && (minor_ a <? minor_ c)).

(** [operator<=] *)
Definition op_le (a c : Private) : bool := op_eq a c || op_lt a c.

(** [operator>] *)
Definition op_gt (a c : Private) : bool := negb (op_le a c).

(** [operator>=] *)
Definition op_ge (a c : Private) : bool := op_eq a c || op_gt a c.

(** The strict lexicographic order on (major, minor), as a proposition. *)
Definition lex_lt (a c : Private) : Prop :=
  major_ a < major_ c \/ (major_ a = major_ c /\ minor_ a < minor_ c).

End CameraGeneration.

(** ** Camera ([camera.cpp]) *)

Module Camera.

(** [CallbackId] is a [size_t]; a handler is an opaque closure, named by a
    number. *)
Definition CallbackId := Z.
Definition Handler := nat.

(** [enum class CameraStatus] *)
Module CameraStatus.
Inductive t := STARTED | STOPPED.

Global Instance eq_dec : EqDecision t.
Proof. solve_decision. Defined.
End CameraStatus.

(** [enum class RunThreadStatus] *)
Module RunThreadStatus.
Inductive t := NOT_STARTED | STARTED | RUNNING | STOPPED.

Definition eqb (a b : t) : bool :=
  match a, b with
  | NOT_STARTED, NOT_STARTED | STARTED, STARTED
  | RUNNING, RUNNING | STOPPED, STOPPED => true
  | _, _ => false
  end.
End RunThreadStatus.

(** The error codes thrown by the code below ([CameraErrorCode],
    [InternalInitializationErrors]). *)
Inductive CameraErrorCode :=
| CameraNotFound
| CameraNotInitialized
| FileDoesNotExist
| NotARegularFile
| WrongExtension
| InvalidRawfile
| CouldNotOpenFile
| DataTransferFailed
| IBoardIdentificationNotFound
| IEventsStreamNotFound
| IGeometryNotFound
| IDecoderNotFound
| ICDDecoderNotFound
| IDeviceControlNotFound.

Global Instance CameraErrorCode_eq_dec : EqDecision CameraErrorCode.
Proof. solve_decision. Defined.

(** What the session does to its collaborators and to the user's callbacks,
    in the order it does it. Buffers are byte ranges: an address and a
    length, or two addresses. *)
Inductive Event :=
| EvThreadSpawn                                   (* run_thread_ = std::thread(...) *)
| EvThreadJoin                                    (* run_thread_.join() has returned *)
| EvStatusChange (id : CallbackId) (s : CameraStatus.t)
| EvRuntimeError (id : CallbackId) (e : CameraErrorCode)
| EvStreamStart                                   (* i_events_stream_->start() *)
| EvStreamStop                                    (* i_events_stream_->stop() *)
| EvDeviceStart                                   (* i_device_control_->start() *)
| EvDeviceReset                                   (* i_device_control_->reset() *)
| EvDeviceStop                                    (* i_device_control_->stop() *)
| EvWaitNextBuffer (res : Z)                      (* i_events_stream_->wait_next_buffer() *)
| EvGetLatestRawData (ev_buffer n_rawbytes : Z)   (* i_events_stream_->get_latest_raw_data(n) *)
| EvDecode (b e : Z)                              (* i_decoder_->decode(b, e) *)
| EvRawData (id : CallbackId) (b n : Z)           (* raw-buffer callback cb(b, n) *)
| EvSleep (us : Z)                                (* std::this_thread::sleep_for *)
| EvStopLogRawData                                (* i_events_stream_->stop_log_raw_data() *)
| EvOpenRawFile (path : string).                  (* DeviceDiscovery::open_raw_file *)

Global Instance Event_eq_dec : EqDecision Event.
Proof. solve_decision. Defined.

(** [Camera::Private]: the members the acquisition code reads and writes,
    followed by the state of its collaborators that the code consults. A
    pointer member is [true] when it is not null; [run_thread_] is
    [run_thread_.joinable()]. The device, the event stream and the decoder
    are there: an initialized session holds them, the constructors throw
    otherwise ([init_common_interfaces]). The class declaration is not
    among the sources: a [timestamp] is taken to be a signed 64-bit count of
    microseconds, [first_ts_clock_] an unsigned one, as the code that
    computes with them has them. *)
#[projections(primitive)]
Record Private := {
  is_init_ : bool;
  from_file_ : bool;
  emulate_real_time_ : bool;
  i_device_control_ : bool;
  is_recording_ : bool;
  is_running_ : bool;
  camera_is_started_ : bool;
  run_thread_ : bool;
  run_thread_status_ : RunThreadStatus.t;
  runtime_error_callback_map_ : gmap CallbackId Handler;
  status_change_callback_map_ : gmap CallbackId Handler;
  first_ts_ : Z;
  first_ts_clock_ : Z;
  (* raw_data_->get_pimpl().get_cbs() *)
  raw_data_cbs : list CallbackId;
  (* index_manager_.counter_map_.tag_count(CallbackTagIds::DECODE_CALLBACK_TAG_ID) *)
  decode_callback_tag_count : Z;
  (* i_decoder_->get_raw_event_size_bytes() *)
  raw_event_size_bytes : Z;
  (* i_decoder_->get_last_timestamp() *)
  last_timestamp : Z;
  trace : list Event
}.

Definition set_is_init_ (v : bool) (c : Private) : Private :=
  let '(Build_Private _ f2 f3 f4 f5 f6 f7 f8 f9 f10 f11 f12 f13 f14 f15 f16 f17 f18) := c in
  Build_Private v f2 f3 f4 f5 f6 f7 f8 f9 f10 f11 f12 f13 f14 f15 f16 f17 f18.

Definition set_from_file_ (v : bool) (c : Private) : Private :=
  let '(Build_Private f1 _ f3 f4 f5 f6 f7 f8 f9 f10 f11 f12 f13 f14 f15 f16 f17 f18) := c in
  Build_Private f1 v f3 f4 f5 f6 f7 f8 f9 f10 f11 f12 f13 f14 f15 f16 f17 f18.

Definition set_emulate_real_time_ (v : bool) (c : Private) : Private :=
  let '(Build_Private f1 f2 _ f4 f5 f6 f7 f8 f9 f10 f11 f12 f13 f14 f15 f16 f17 f18) := c in
  Build_Private f1 f2 v f4 f5 f6 f7 f8 f9 f10 f11 f12 f13 f14 f15 f16 f17 f18.

Definition set_is_recording_ (v : bool) (c : Private) : Private :=
  let '(Build_Private f1 f2 f3 f4 _ f6 f7 f8 f9 f10 f11 f12 f13 f14 f15 f16 f17 f18) := c in
  Build_Private f1 f2 f3 f4 v f6 f7 f8 f9 f10 f11 f12 f13 f14 f15 f16 f17 f18.

Definition set_is_running_ (v : bool) (c : Private) : Private :=
  let '(Build_Private f1 f2 f3 f4 f5 _ f7 f8 f9 f10 f11 f12 f13 f14 f15 f16 f17 f18) := c in
  Build_Private f1 f2 f3 f4 f5 v f7 f8 f9 f10 f11 f12 f13 f14 f15 f16 f17 f18.

Definition set_camera_is_started_ (v : bool) (c : Private) : Private :=
  let '(Build_Private f1 f2 f3 f4 f5 f6 _ f8 f9 f10 f11 f12 f13 f14 f15 f16 f17 f18) := c in
  Build_Private f1 f2 f3 f4 f5 f6 v f8 f9 f10 f11 f12 f13 f14 f15 f16 f17 f18.

Definition set_run_thread_ (v : bool) (c : Private) : Private :=
  let '(Build_Private f1 f2 f3 f4 f5 f6 f7 _ f9 f10 f11 f12 f13 f14 f15 f16 f17 f18) := c in
  Build_Private f1 f2 f3 f4 f5 f6 f7 v f9 f10 f11 f12 f13 f14 f15 f16 f17 f18.

Definition set_run_thread_status_ (v : RunThreadStatus.t) (c : Private) : Private :=
  let '(Build_Private f1 f2 f3 f4 f5 f6 f7 f8 _ f10 f11 f12 f13 f14 f15 f16 f17 f18) := c in
  Build_Private f1 f2 f3 f4 f5 f6 f7 f8 v f10 f11 f12 f13 f14 f15 f16 f17 f18.

Definition set_runtime_error_callback_map_ (v : gmap CallbackId Handler) (c : Private) : Private :=
  let '(Build_Private f1 f2 f3 f4 f5 f6 f7 f8 f9 _ f11 f12 f13 f14 f15 f16 f17 f18) := c in
  Build_Private f1 f2 f3 f4 f5 f6 f7 f8 f9 v f11 f12 f13 f14 f15 f16 f17 f18.

Definition set_status_change_callback_map_ (v : gmap CallbackId Handler) (c : Private) : Private :=
  let '(Build_Private f1 f2 f3 f4 f5 f6 f7 f8 f9 f10 _ f12 f13 f14 f15 f16 f17 f18) := c in
  Build_Private f1 f2 f3 f4 f5 f6 f7 f8 f9 f10 v f12 f13 f14 f15 f16 f17 f18.

Definition set_first_ts_ (v : Z) (c : Private) : Private :=
  let '(Build_Private f1 f2 f3 f4 f5 f6 f7 f8 f9 f10 f11 _ f13 f14 f15 f16 f17 f18) := c in
  Build_Private f1 f2 f3 f4 f5 f6 f7 f8 f9 f10 f11 v f13 f14 f15 f16 f17 f18.

Definition set_first_ts_clock_ (v : Z) (c : Private) : Private :=
  let '(Build_Private f1 f2 f3 f4 f5 f6 f7 f8 f9 f10 f11 f12 _ f14 f15 f16 f17 f18) := c in
  Build_Private f1 f2 f3 f4 f5 f6 f7 f8 f9 f10 f11 f12 v f14 f15 f16 f17 f18.

Definition set_raw_data_cbs (v : list CallbackId) (c : Private) : Private :=
  let '(Build_Private f1 f2 f3 f4 f5 f6 f7 f8 f9 f10 f11 f12 f13 _ f15 f16 f17 f18) := c in
  Build_Private f1 f2 f3 f4 f5 f6 f7 f8 f9 f10 f11 f12 f13 v f15 f16 f17 f18.

Definition set_decode_callback_tag_count (v : Z) (c : Private) : Private :=
  let '(Build_Private f1 f2 f3 f4 f5 f6 f7 f8 f9 f10 f11 f12 f13 f14 _ f16 f17 f18) := c in
  Build_Private f1 f2 f3 f4 f5 f6 f7 f8 f9 f10 f11 f12 f13 f14 v f16 f17 f18.

Definition set_last_timestamp (v : Z) (c : Private) : Private :=
  let '(Build_Private f1 f2 f3 f4 f5 f6 f7 f8 f9 f10 f11 f12 f13 f14 f15 f16 _ f18) := c in
  Build_Private f1 f2 f3 f4 f5 f6 f7 f8 f9 f10 f11 f12 f13 f14 f15 f16 v f18.

Definition set_trace (v : list Event) (c : Private) : Private :=
  let '(Build_Private f1 f2 f3 f4 f5 f6 f7 f8 f9 f10 f11 f12 f13 f14 f15 f16 f17 _) := c in
  Build_Private f1 f2 f3 f4 f5 f6 f7 f8 f9 f10 f11 f12 f13 f14 f15 f16 f17 v.

(** Appending to the trace. *)
Definition emit (evs : list Event) (c : Private) : Private :=
  set_trace (trace c ++ evs) c.

(** Iterating over a [std::map<CallbackId, _>] visits the entries by
    increasing key. *)
Definition key_le (a b : CallbackId * Handler) : Prop := a.1 <= b.1.

Global Instance key_le_dec a b : Decision (key_le a b).
Proof. unfold key_le. apply Z_le_dec. Defined.

Definition map_entries (m : gmap CallbackId Handler) : list (CallbackId * Handler) :=
  merge_sort key_le (map_to_list m).

(** [Camera::Private::set_is_running], the call taken as a whole; its
    statements one at a time are [step_set_is_running], below. *)
Definition set_is_running (is_running : bool) (c : Private) : Private :=
  if negb (Bool.eqb (is_running_ c) is_running) then
    let c := set_is_running_ is_running c in
    let callbacks_to_call := map_entries (status_change_callback_map_ c) in
    emit ((fun callback =>
             EvStatusChange callback.1
               (if is_running then CameraStatus.STARTED
                else CameraStatus.STOPPED)) <$> callbacks_to_call) c
  else c.

(** [Camera::Private::end_run] *)
Definition end_run (run_output : Z) (c : Private) : Private :=
  let c :=
    if run_output =? -1 then
      let callbacks_to_call := map_entries (runtime_error_callback_map_ c) in
      emit ((fun callback => EvRuntimeError callback.1 DataTransferFailed)
              <$> callbacks_to_call) c
    else c in
  set_is_running false c.

(** [Camera::Private::stop_recording] (the session holds an event stream:
    [check_events_stream_instance] passes). *)
Definition stop_recording (c : Private) : Private :=
  set_is_recording_ false (emit [EvStopLogRawData] c).

(** [Camera::Private::init_clocks] *)
Definition init_clocks (c : Private) : Private :=
  set_first_ts_clock_ 0 (set_first_ts_ (last_timestamp c) c).

(** *** What the acquisition thread reads from its collaborators

    One record per step of the acquisition thread; a step uses the fields
    it reads and ignores the others. *)
Record Env := {
  env_res : Z;          (* the value of i_events_stream_->wait_next_buffer() *)
  env_buffer : Z;       (* the pointer returned by get_latest_raw_data *)
  env_n_rawbytes : Z;   (* the byte count get_latest_raw_data stores *)
  env_timestamp : Z;    (* the decoder's last timestamp once decode has run *)
  env_clock : Z         (* get_system_time_us() *)
}.

(** [i_decoder_->decode(b, e)]: the typed-event callbacks run inside the
    decoder, which then reports a last timestamp (a [timestamp], 64 bits,
    signed). *)
Definition decode (b e : Z) (ts : Z) (c : Private) : Private :=
  set_last_timestamp (Int.wrap_s64 ts) (emit [EvDecode b e] c).

(** [for (auto &cb : raw_data_->get_pimpl().get_cbs()) cb(b, n);] *)
Definition call_raw_data_cbs (b n : Z) (c : Private) : Private :=
  emit ((fun cb => EvRawData cb b n) <$> raw_data_cbs c) c.

(** The non-emulated branch of [run_main_loop], for one polled buffer. *)
Definition process_buffer (ev_buffer n_rawbytes : Z) (e : Env) (c : Private) : Private :=
  let c :=
    if negb (decode_callback_tag_count c =? 0) then
      decode ev_buffer (ev_buffer + n_rawbytes) (env_timestamp e) c
    else c in
  call_raw_data_cbs ev_buffer n_rawbytes c.

(** *** [Camera::Private::emulate_real_time] *)

(** [reading_speed_factor] is the double 1.0: multiplying by it, or by its
    inverse, leaves a double unchanged. *)
Definition events_per_buffer_to_decode : Z := 1024.
Definition min_events_per_buffer_to_decode : Z := 128.

(** [bytes_step_to_decode], a [uint32_t]. *)
Definition bytes_step_to_decode (c : Private) : Z :=
  Z.max min_events_per_buffer_to_decode
        (Int.wrap32 (raw_event_size_bytes c *
                     Int.wrap32 events_per_buffer_to_decode)).

(** "compute the offset first, if never done" *)
Definition anchor_clocks (cur_ts cur_ts_clock : Z) (c : Private) : Private :=
  if (first_ts_clock_ c =? 0) && negb (cur_ts =? first_ts_ c) then
    set_first_ts_ cur_ts (set_first_ts_clock_ cur_ts_clock c)
  else c.

(** [diff]: the difference of two timestamps (64 bits, signed), through
    [double] and back. *)
Definition diff_ts (cur_ts : Z) (c : Private) : Z :=
  Int.wrap_s64 (Int.to_double (Int.wrap_s64 (cur_ts - first_ts_ c))).

(** [expected_ts], a [uint64_t]. *)
Definition expected_ts (cur_ts : Z) (c : Private) : Z :=
  Int.wrap64 (first_ts_clock_ c + diff_ts cur_ts c).

(** The sleep that ends an iteration; [std::chrono::microseconds] counts in
    a signed 64-bit integer. *)
Definition pace (cur_ts cur_ts_clock : Z) (c : Private) : Private :=
  if cur_ts_clock <? expected_ts cur_ts c then
    emit [EvSleep (Int.wrap_s64 (expected_ts cur_ts c - cur_ts_clock))] c
  else c.

(** The body of the [for] loop, for the sub-buffer that starts at
    [ev_buffer]: the number of bytes decoded and the state it leaves. *)
Definition emulate_body (ev_buffer ev_buffer_end : Z) (e : Env) (c : Private)
  : Z * Private :=
  let remains := Int.wrap32 (ev_buffer_end - ev_buffer) in
  let bytes_to_decode := Z.min remains (bytes_step_to_decode c) in
  let c := decode ev_buffer (ev_buffer + bytes_to_decode) (env_timestamp e) c in
  let c := call_raw_data_cbs ev_buffer bytes_to_decode c in
  let cur_ts := last_timestamp c in
  let cur_ts_clock := Int.wrap64 (env_clock e) in
  let c := anchor_clocks cur_ts cur_ts_clock c in
  let c := pace cur_ts cur_ts_clock c in
  (bytes_to_decode, c).

(** How a loop over a finite list of observations ends. *)
Inductive Outcome :=
| Finished (c : Private)
| OutOfObservations (c : Private).

Definition state_of (o : Outcome) : Private :=
  match o with Finished c | OutOfObservations c => c end.

(** The [for] loop, from the position [ev_buffer]; the list gives what each
    iteration reads, and bounds the number of iterations. *)
Fixpoint emulate_loop (envs : list Env) (ev_buffer ev_buffer_end : Z) (c : Private)
  {struct envs} : Outcome :=
  if (ev_buffer <? ev_buffer_end) && is_running_ c then
    match envs with
    | [] => OutOfObservations c
    | e :: envs =>
        let r := emulate_body ev_buffer ev_buffer_end e c in
        emulate_loop envs (ev_buffer + r.1) ev_buffer_end r.2
    end
  else Finished c.

Definition emulate_real_time (envs : list Env) (ev_buffer n_rawbytes : Z) (c : Private)
  : Outcome :=
  emulate_loop envs ev_buffer (ev_buffer + n_rawbytes) c.

(** The byte ranges handed to the decoder, in order. *)
Definition decoded_ranges (t : list Event) : list (Z * Z) :=
  omap (fun ev => match ev with EvDecode b e => Some (b, e) | _ => None end) t.

(** *** Opening a recorded file *)

(** [boost::filesystem], as far as [open_raw_file] consults it. *)
Record FileSystem := {
  fs_exists : string -> bool;
  fs_is_regular_file : string -> bool;
  fs_extension : string -> string
}.

(** The facilities of the [Device] that [DeviceDiscovery::open_raw_file]
    returns. *)
Record Device := {
  has_hw_identification : bool;    (* I_HW_Identification *)
  has_events_stream : bool;        (* I_EventsStream *)
  has_geometry : bool;             (* I_Geometry *)
  has_decoder : bool;              (* I_Decoder *)
  has_cd_decoder : bool            (* I_EventDecoder<EventCD> *)
}.

(** [Camera::Private::init_common_interfaces], with [init_callbacks]: the
    facilities it requires. *)
Definition init_common_interfaces (dev : Device) : option CameraErrorCode :=
  if negb (has_events_stream dev) then Some IEventsStreamNotFound
  else if negb (has_geometry dev) then Some IGeometryNotFound
  else if negb (has_decoder dev) then Some IDecoderNotFound
  else if negb (has_cd_decoder dev) then Some ICDDecoderNotFound
  else None.

(** [Camera::Private::open_raw_file]: the state it leaves and the exception
    it throws, if any. [stop] is a blocking call into the acquisition
    thread; [stopped] is the state in which that call returns.
    [discovery] is [DeviceDiscovery::open_raw_file]. *)
Definition open_raw_file (fs : FileSystem) (discovery : string -> option Device)
    (stopped : Private -> Private)
    (rawfile : string) (reproduce_camera_behavior : bool) (c : Private)
  : Private * option CameraErrorCode :=
  let c := if is_init_ c && run_thread_ c then stopped c else c in
  let c := set_is_init_ true c in
  if negb (fs_exists fs rawfile) then (c, Some FileDoesNotExist)
  else if negb (fs_is_regular_file fs rawfile) then (c, Some NotARegularFile)
  else if negb (String.eqb (fs_extension fs rawfile) ".raw") then
    (c, Some WrongExtension)
  else
    let c := emit [EvOpenRawFile rawfile] c in
    match discovery rawfile with
    | None => (c, Some InvalidRawfile)
    | Some dev =>
        let c := set_from_file_ true c in
        let c := set_emulate_real_time_ reproduce_camera_behavior c in
        if negb (has_hw_identification dev) then
          (c, Some IBoardIdentificationNotFound)
        else (c, init_common_interfaces dev)
    end.

(** *** The two threads of a session *)

Inductive Thread := Caller | Pump.

Inductive Op := OpStart | OpStop.

Inductive Result := Returned (b : bool) | Thrown (e : CameraErrorCode).

(** Where the thread that calls [start()] or [stop()] stands; each point is
    named after the statement it is about to execute. *)
Inductive CallerPc :=
| C_idle
| C_done (op : Op) (r : Result)
(* start() *)
| C_start_check          (* check_initialization() *)
| C_start_lock           (* std::unique_lock<std::mutex> lock(run_thread_mutex_) *)
| C_start_joinable       (* if (run_thread_.joinable()) return false *)
| C_start_spawn          (* camera_is_started_ = false; run_thread_ = std::thread(...) *)
| C_start_wait_thread    (* while (!run_thread_.joinable()) {} *)
| C_start_set_running    (* set_is_running(true) *)
| C_start_set_status     (* run_thread_status_ = STARTED; the lock is released *)
| C_start_notify         (* run_thread_cond_.notify_one() *)
| C_start_wait_started   (* while (!camera_is_started_) {}; return true *)
(* stop() *)
| C_stop_check           (* check_initialization() *)
| C_stop_lock            (* std::unique_lock<std::mutex> lock(run_thread_mutex_) *)
| C_stop_joinable        (* if (!run_thread_.joinable()) return false *)
| C_stop_wait_running    (* run_thread_cond_.wait(lock, status == RUNNING): the test *)
| C_stop_relock          (* ... waiting, the lock released *)
| C_stop_set_status      (* run_thread_status_ = STOPPED *)
| C_stop_set_running     (* set_is_running(false) *)
| C_stop_stream          (* i_events_stream_->stop() *)
| C_stop_device          (* if (i_device_control_) i_device_control_->stop() *)
| C_stop_join            (* run_thread_.join() *)
| C_stop_recording       (* stop_recording() *)
| C_stop_return.         (* return true; the lock is released *)

(** Where the acquisition thread stands in [run], [run_from_camera] or
    [run_from_file], [run_main_loop], [emulate_real_time] and [end_run]. *)
Inductive PumpPc :=
| P_none                 (* no thread: never started, or joined *)
| P_lock                 (* std::unique_lock<std::mutex> lock(run_thread_mutex_) *)
| P_wait_started         (* run_thread_cond_.wait(lock, status == STARTED); status = RUNNING *)
| P_notify               (* run_thread_cond_.notify_one(); the three checks *)
| P_run_from             (* run_from_file / run_from_camera, up to run_main_loop *)
| P_main_loop            (* camera_is_started_ = true; res = 0; init_clocks() *)
| P_while (res : Z)      (* while (is_running_) *)
| P_poll                 (* res = i_events_stream_->wait_next_buffer() *)
| P_process (res : Z)    (* get_latest_raw_data and the two branches *)
| P_emulate (res ev_buffer ev_buffer_end : Z)   (* the test of the for loop *)
| P_loop_return (res : Z)                       (* return res, to run_from_... *)
| P_end_run (run_output : Z)                    (* end_run(res) *)
| P_done                 (* the thread function has returned *)
| P_terminated.          (* an exception has left the thread function *)

#[projections(primitive)]
Record Machine := {
  priv : Private;
  caller : CallerPc;
  pump : PumpPc;
  mutex : option Thread      (* the holder of run_thread_mutex_ *)
}.

Definition upd (f : Private -> Private) (m : Machine) : Machine :=
  {| priv := f (priv m); caller := caller m; pump := pump m; mutex := mutex m |}.

Definition goto_caller (pc : CallerPc) (m : Machine) : Machine :=
  {| priv := priv m; caller := pc; pump := pump m; mutex := mutex m |}.

Definition goto_pump (pc : PumpPc) (m : Machine) : Machine :=
  {| priv := priv m; caller := caller m; pump := pc; mutex := mutex m |}.

Definition set_mutex (o : option Thread) (m : Machine) : Machine :=
  {| priv := priv m; caller := caller m; pump := pump m; mutex := o |}.

(** Taking [run_thread_mutex_]: the thread goes on to [k] when the mutex is
    free and stays where it is otherwise. *)
Definition acquire (t : Thread) (k : Machine -> Machine) (m : Machine) : Machine :=
  match mutex m with
  | None => k (set_mutex (Some t) m)
  | Some _ => m
  end.

(** What [run_from_camera] and [run_from_file] return:
    [if (!run_main_loop(profiler)) return false; return true;], as an
    [int]. *)
Definition run_from_result (res : Z) : Z := if res =? 0 then 0 else 1.

(** One step of the calling thread. *)
Definition step_caller (m : Machine) : Machine :=
  let c := priv m in
  match caller m with
  | C_idle | C_done _ _ => m
  (* start() *)
  | C_start_check =>
      if is_init_ c then goto_caller C_start_lock m
      else goto_caller (C_done OpStart (Thrown CameraNotInitialized)) m
  | C_start_lock => acquire Caller (goto_caller C_start_joinable) m
  | C_start_joinable =>
      if run_thread_ c then
        goto_caller (C_done OpStart (Returned false)) (set_mutex None m)
      else goto_caller C_start_spawn m
  | C_start_spawn =>
      goto_caller C_start_wait_thread
        (goto_pump P_lock
           (upd (fun c => emit [EvThreadSpawn]
                            (set_run_thread_ true (set_camera_is_started_ false c))) m))
  | C_start_wait_thread =>
      if run_thread_ c then goto_caller C_start_set_running m else m
  | C_start_set_running =>
      goto_caller C_start_set_status (upd (set_is_running true) m)
  | C_start_set_status =>
      goto_caller C_start_notify
        (set_mutex None (upd (set_run_thread_status_ RunThreadStatus.STARTED) m))
  | C_start_notify => goto_caller C_start_wait_started m
  | C_start_wait_started =>
      if camera_is_started_ c then goto_caller (C_done OpStart (Returned true)) m
      else m
  (* stop() *)
  | C_stop_check =>
      if is_init_ c then goto_caller C_stop_lock m
      else goto_caller (C_done OpStop (Thrown CameraNotInitialized)) m
  | C_stop_lock => acquire Caller (goto_caller C_stop_joinable) m
  | C_stop_joinable =>
      if negb (run_thread_ c) then
        goto_caller (C_done OpStop (Returned false)) (set_mutex None m)
      else goto_caller C_stop_wait_running m
  | C_stop_wait_running =>
      if RunThreadStatus.eqb (run_thread_status_ c) RunThreadStatus.RUNNING then
        goto_caller C_stop_set_status m
      else goto_caller C_stop_relock (set_mutex None m)
  | C_stop_relock => acquire Caller (goto_caller C_stop_wait_running) m
  | C_stop_set_status =>
      goto_caller C_stop_set_running
        (upd (set_run_thread_status_ RunThreadStatus.STOPPED) m)
  | C_stop_set_running =>
      goto_caller C_stop_stream (upd (set_is_running false) m)
  | C_stop_stream => goto_caller C_stop_device (upd (emit [EvStreamStop]) m)
  | C_stop_device =>
      goto_caller C_stop_join
        (if i_device_control_ c then upd (emit [EvDeviceStop]) m else m)
  | C_stop_join =>
      match pump m with
      | P_done =>
          goto_caller C_stop_recording
            (goto_pump P_none
               (upd (fun c => emit [EvThreadJoin] (set_run_thread_ false c)) m))
      | _ => m
      end
  | C_stop_recording => goto_caller C_stop_return (upd stop_recording m)
  | C_stop_return =>
      goto_caller (C_done OpStop (Returned true)) (set_mutex None m)
  end.

(** One step of the acquisition thread, reading [e] from its
    collaborators. *)
Definition step_pump (e : Env) (m : Machine) : Machine :=
  let c := priv m in
  match pump m with
  | P_none | P_done | P_terminated => m
  (* run() *)
  | P_lock => acquire Pump (goto_pump P_wait_started) m
  | P_wait_started =>
      if RunThreadStatus.eqb (run_thread_status_ c) RunThreadStatus.STARTED then
        goto_pump P_notify
          (set_mutex None (upd (set_run_thread_status_ RunThreadStatus.RUNNING) m))
      else goto_pump P_lock (set_mutex None m)
  | P_notify =>
      if is_init_ c then goto_pump P_run_from m else goto_pump P_terminated m
  (* run_from_file, run_from_camera *)
  | P_run_from =>
      if from_file_ c then
        goto_pump P_main_loop (upd (emit [EvStreamStart]) m)
      else if i_device_control_ c then
        goto_pump P_main_loop
          (upd (emit [EvStreamStart; EvDeviceStart; EvDeviceReset]) m)
      else goto_pump P_terminated m
  (* run_main_loop *)
  | P_main_loop =>
      goto_pump (P_while 0)
        (upd (fun c => init_clocks (set_camera_is_started_ true c)) m)
  | P_while res =>
      if is_running_ c then goto_pump P_poll m
      else goto_pump (P_loop_return res) m
  | P_poll =>
      let res := env_res e in
      let m := upd (emit [EvWaitNextBuffer res]) m in
      if res <? 0 then goto_pump (P_loop_return res) m
      else if 0 <? res then goto_pump (P_process res) m
      else goto_pump (P_while res) m
  | P_process res =>
      let ev_buffer := env_buffer e in
      let n_rawbytes := env_n_rawbytes e in
      let m := upd (emit [EvGetLatestRawData ev_buffer n_rawbytes]) m in
      if emulate_real_time_ c then
        goto_pump (P_emulate res ev_buffer (ev_buffer + n_rawbytes)) m
      else
        goto_pump (P_while res) (upd (process_buffer ev_buffer n_rawbytes e) m)
  (* emulate_real_time *)
  | P_emulate res ev_buffer ev_buffer_end =>
      if (ev_buffer <? ev_buffer_end) && is_running_ c then
        let r := emulate_body ev_buffer ev_buffer_end e c in
        goto_pump (P_emulate res (ev_buffer + r.1) ev_buffer_end)
                  (upd (fun _ => r.2) m)
      else goto_pump (P_while res) m
  | P_loop_return res => goto_pump (P_end_run (run_from_result res)) m
  (* end_run *)
  | P_end_run run_output => goto_pump P_done (upd (end_run run_output) m)
  end.

(** A schedule: the caller enters [start()] or [stop()], or one of the two
    threads takes a step. *)
Inductive Action :=
| ACall (op : Op)
| ACaller
| APump (e : Env).

Definition call (op : Op) (m : Machine) : Machine :=
  match caller m with
  | C_idle | C_done _ _ =>
      goto_caller (match op with
                   | OpStart => C_start_check
                   | OpStop => C_stop_check
                   end) m
  | _ => m
  end.

Definition step (m : Machine) (a : Action) : Machine :=
  match a with
  | ACall op => call op m
  | ACaller => step_caller m
  | APump e => step_pump e m
  end.

Definition run (sch : list Action) (m : Machine) : Machine := foldl step m sch.

(** The session [c], no call in progress and no acquisition thread. *)
Definition initial (c : Private) : Machine :=
  {| priv := c; caller := C_idle; pump := P_none; mutex := None |}.

(** *** Notions used to state the properties *)

Definition status_of (is_running : bool) : CameraStatus.t :=
  if is_running then CameraStatus.STARTED else CameraStatus.STOPPED.

Definition sleep_of (cur_ts cur_ts_clock : Z) (c : Private) : list Event :=
  if cur_ts_clock <? expected_ts cur_ts c then
    [EvSleep (Int.wrap_s64 (expected_ts cur_ts c - cur_ts_clock))]
  else [].

(** The state in which an iteration computes its sleep: the sub-buffer has
    been decoded and the clocks anchored. *)
Definition anchored (ev_buffer ev_buffer_end : Z) (e : Env) (c : Private) : Private :=
  let remains := Int.wrap32 (ev_buffer_end - ev_buffer) in
  let bytes_to_decode := Z.min remains (bytes_step_to_decode c) in
  let c := decode ev_buffer (ev_buffer + bytes_to_decode) (env_timestamp e) c in
  let c := call_raw_data_cbs ev_buffer bytes_to_decode c in
  anchor_clocks (last_timestamp c) (Int.wrap64 (env_clock e)) c.

(** The events a piece of code has added to the trace of [c]. *)
Definition new_events (c c' : Private) : list Event :=
  drop (length (trace c)) (trace c').

(** The durations slept, in order. *)
Definition sleeps (t : list Event) : list Z :=
  omap (fun ev => match ev with EvSleep us => Some us | _ => None end) t.

(** Ranges that follow one another from the address [b], with the given
    sizes. *)
Fixpoint consecutive (b : Z) (sizes : list Z) : list (Z * Z) :=
  match sizes with
  | [] => []
  | s :: sizes => (b, b + s) :: consecutive (b + s) sizes
  end.

(** [n] bytes cut into full sub-buffers of [step] bytes and a shorter
    remainder, if any. *)
Definition sub_buffer_sizes (n step : Z) : list Z :=
  replicate (Z.to_nat (n / step)) step ++
  (if n mod step =? 0 then [] else [n mod step]).

(** A run of the emulator over the sub-buffers of a replay, whichever
    polled buffer each belongs to: a sub-buffer is its position, the end of
    its polled buffer and what the iteration reads. *)
Definition SubBuffer : Type := Z * Z * Env.

Definition run_sub_buffers (subs : list SubBuffer) (c : Private) : Private :=
  foldl (fun c s => (emulate_body s.1.1 s.1.2 s.2 c).2) c subs.

(** The timing anchors. *)
Definition anchors (c : Private) : Z * Z := (first_ts_ c, first_ts_clock_ c).

(** The decoded timestamp and the wall clock read for the first sub-buffer
    whose decoded timestamp satisfies [P]. *)
Fixpoint first_obs (P : Z -> bool) (subs : list SubBuffer) : option (Z * Z) :=
  match subs with
  | [] => None
  | s :: subs =>
      let ts := Int.wrap_s64 (env_timestamp s.2) in
      if P ts then Some (ts, Int.wrap64 (env_clock s.2)) else first_obs P subs
  end.

Definition first_change (ts0 : Z) : list SubBuffer -> option (Z * Z) :=
  first_obs (fun ts => negb (ts =? ts0)).

Definition first_increase (ts0 : Z) : list SubBuffer -> option (Z * Z) :=
  first_obs (fun ts => ts0 <? ts).

(** Pacing as a 1:1 mapping of decoded time to wall-clock time: the
    iteration for a sub-buffer sleeps [expected - now] microseconds when
    [now < expected], and does not sleep otherwise, where [expected] is the
    anchor wall clock plus the decoded time elapsed since the anchor. *)
Definition paces_one_to_one (ev_buffer ev_buffer_end : Z) (e : Env) (c : Private) : Prop :=
  let c' := (emulate_body ev_buffer ev_buffer_end e c).2 in
  let now := Int.wrap64 (env_clock e) in
  let expected := first_ts_clock_ c' + (last_timestamp c' - first_ts_ c') in
  sleeps (new_events c c') = if now <? expected then [expected - now] else [].

(** Modelled from the spec: the initial values of the members, which the
    declaration of the class (not among the sources) gives: nothing is
    running or recording, the thread status is NOT_STARTED, no callback is
    registered. The constructors add [is_init_], and [from_file_] and
    [emulate_real_time_] for a file; a session on a device holds a
    device-control facility ([init_online_interfaces] throws otherwise), a
    session on a file does not ask for one. *)
Definition new_session (from_file emulate : bool) (event_size : Z) : Private :=
  {| is_init_ := true;
     from_file_ := from_file;
     emulate_real_time_ := emulate;
     i_device_control_ := negb from_file;
     is_recording_ := false;
     is_running_ := false;
     camera_is_started_ := false;
     run_thread_ := false;
     run_thread_status_ := RunThreadStatus.NOT_STARTED;
     runtime_error_callback_map_ := ∅;
     status_change_callback_map_ := ∅;
     first_ts_ := 0;
     first_ts_clock_ := 0;
     raw_data_cbs := [];
     decode_callback_tag_count := 0;
     raw_event_size_bytes := event_size;
     last_timestamp := 0;
     trace := [] |}.

(** The anchors of a replay as a sentence of the specification has them:
    reset by [init_clocks], then fixed at the first sub-buffer whose decoded
    timestamp is strictly above the initial one. *)
Definition anchors_fixed_at_first_increase (subs : list SubBuffer) (c : Private) : Prop :=
  anchors (run_sub_buffers subs (init_clocks c)) =
  default (last_timestamp c, 0) (first_increase (last_timestamp c) subs).

(** *** Sample sessions and observations *)

(** A replay with real-time emulation, 4-byte raw events, two raw-buffer
    callbacks, the acquisition thread running. *)
Definition sample_replay : Private :=
  set_raw_data_cbs [3; 7] (set_is_running_ true (new_session true true 4)).

Definition sample_env (ts clock : Z) : Env :=
  {| env_res := 1; env_buffer := 4096; env_n_rawbytes := 10000;
     env_timestamp := ts; env_clock := clock |}.

(** A live session with a runtime-error callback (identifier 1) and a
    status-change callback (identifier 2). *)
Definition sample_live : Private :=
  set_runtime_error_callback_map_ {[ 1 := 0%nat ]}
    (set_status_change_callback_map_ {[ 2 := 0%nat ]} (new_session false false 4)).

(** The stream fails: [wait_next_buffer] returns -1. *)
Definition stream_failure : Env :=
  {| env_res := -1; env_buffer := 0; env_n_rawbytes := 0;
     env_timestamp := 0; env_clock := 0 |}.

(** [start()] runs to its busy wait, the acquisition thread runs up to its
    main loop, [start()] returns, and the thread polls once. *)
Definition start_then_poll (e : Env) : list Action :=
  [ACall OpStart] ++ replicate 8 ACaller ++ replicate 5 (APump e) ++
  [ACaller] ++ replicate 5 (APump e).

(** A file system with a recording, a directory and a text file. *)
Definition sample_fs : FileSystem :=
  {| fs_exists := fun p => bool_decide (p ∈ ["rec.raw"; "dir.raw"; "notes.txt"]);
     fs_is_regular_file := fun p => bool_decide (p ∈ ["rec.raw"; "notes.txt"]);
     fs_extension := fun p => if bool_decide (p = "notes.txt") then ".txt"
                              else if bool_decide (p = "missing") then ""
                              else ".raw" |}.

Definition sample_device : Device :=
  {| has_hw_identification := true; has_events_stream := true;
     has_geometry := true; has_decoder := true; has_cd_decoder := true |}.

(** *** Executions of the two threads *)

(** A session that a constructor has built: initialized, and holding a
    device-control facility unless it replays a file
    ([init_online_interfaces]); its [std::thread] is not joinable yet. *)
Definition constructed (c : Private) : Prop :=
  is_init_ c = true /\
  (from_file_ c = false -> i_device_control_ c = true) /\
  run_thread_ c = false.

(** Between two calls of the interface. *)
Definition quiescent (m : Machine) : Prop :=
  match caller m with
  | C_idle | C_done _ _ => True
  | _ => False
  end.

Definition is_call (a : Action) : bool :=
  match a with ACall _ => true | _ => false end.

Definition is_pump_step (a : Action) : bool :=
  match a with APump _ => true | _ => false end.

Definition is_caller_step (a : Action) : bool :=
  match a with ACaller => true | _ => false end.

(** The steps of the acquisition thread in a schedule. *)
Definition pump_only (sch : list Action) : list Action :=
  filter (fun a => is_pump_step a = true) sch.

(** The number of threads created along a trace. *)
Definition spawns (t : list Event) : nat :=
  length (filter (fun ev => ev = EvThreadSpawn) t).

(** The points of [start()] and [stop()] at which the caller holds
    [run_thread_mutex_]. *)
Definition caller_holds (pc : CallerPc) : bool :=
  match pc with
  | C_start_joinable | C_start_spawn | C_start_wait_thread
  | C_start_set_running | C_start_set_status
  | C_stop_joinable | C_stop_wait_running | C_stop_set_status
  | C_stop_set_running | C_stop_stream | C_stop_device | C_stop_join
  | C_stop_recording | C_stop_return => true
  | _ => false
  end.

(** The points of [start()] after the thread has been created. *)
Definition starting (pc : CallerPc) : bool :=
  match pc with
  | C_start_wait_thread | C_start_set_running | C_start_set_status
  | C_start_notify | C_start_wait_started => true
  | _ => false
  end.

(** The points of the acquisition thread before it sets
    [camera_is_started_]. *)
Definition before_loop (pp : PumpPc) : bool :=
  match pp with
  | P_lock | P_wait_started | P_notify | P_run_from | P_main_loop => true
  | _ => false
  end.

(** The members that the handshake between the two threads reads. *)
Record Ctl := {
  k_init : bool; k_file : bool; k_emulate : bool; k_devctl : bool;
  k_thread : bool; k_started : bool; k_status : RunThreadStatus.t
}.

Definition ctl (c : Private) : Ctl :=
  {| k_init := is_init_ c; k_file := from_file_ c;
     k_emulate := emulate_real_time_ c; k_devctl := i_device_control_ c;
     k_thread := run_thread_ c; k_started := camera_is_started_ c;
     k_status := run_thread_status_ c |}.

(** What holds of every state of an execution that begins with a
    constructed session, in terms of these members, of the two program
    points and of the holder of the mutex. *)
Definition InvK (k : Ctl) (pc : CallerPc) (pp : PumpPc) (mx : option Thread) : Prop :=
  k_init k = true /\
  (k_file k = false -> k_devctl k = true) /\
  mx = (if caller_holds pc then Some Caller
        else match pp with P_wait_started => Some Pump | _ => None end) /\
  (caller_holds pc = true -> pp <> P_wait_started) /\
  (k_thread k = false <-> pp = P_none) /\
  pp <> P_terminated /\
  (before_loop pp = true -> k_started k = false /\ starting pc = true) /\
  (before_loop pp = true ->
   pc = C_start_notify \/ pc = C_start_wait_started ->
   k_status k = RunThreadStatus.STARTED \/
   (k_status k = RunThreadStatus.RUNNING /\ pp <> P_lock /\ pp <> P_wait_started)) /\
  (starting pc = true -> before_loop pp = false -> k_started k = true).

Definition Inv (m : Machine) : Prop :=
  InvK (ctl (priv m)) (caller m) (pump m) (mutex m).

(** The caller of a [start()] that finds the thread already there, after
    [k] of its steps. *)
Definition start_refused_pc (k : nat) : CallerPc :=
  match k with
  | O => C_start_check
  | 1%nat => C_start_lock
  | 2%nat => C_start_joinable
  | _ => C_done OpStart (Returned false)
  end.

Definition caller_steps (sch : list Action) : nat :=
  length (filter (fun a => is_caller_step a = true) sch).

Definition no_call (sch : list Action) : Prop :=
  Forall (fun a => is_call a = false) sch.



(** A replay with real-time emulation, as constructed. *)
Definition sample_file_session : Private :=
  set_raw_data_cbs [3; 7] (new_session true true 4).

(** A sample replay run: [start()], two sub-buffers pulled and decoded,
    then [stop()]. *)
Definition sample_stop_run : list Action :=
  start_then_poll (sample_env 10 1000) ++
  [APump (sample_env 20 1010); APump (sample_env 30 1020)] ++
  [ACall OpStop] ++ replicate 7 ACaller ++
  replicate 6 (APump (sample_env 40 1030)) ++ replicate 4 ACaller.

(** Along a [start()] that finds no thread. *)
Definition fresh_start (n0 : nat) (m : Machine) : Prop :=
  is_init_ (priv m) = true /\
  match caller m with
  | C_start_check | C_start_lock | C_start_joinable | C_start_spawn =>
      run_thread_ (priv m) = false /\ spawns (trace (priv m)) = n0
  | C_start_wait_thread | C_start_set_running | C_start_set_status
  | C_start_notify | C_start_wait_started | C_done OpStart (Returned true) =>
      run_thread_ (priv m) = true /\ spawns (trace (priv m)) = S n0
  | _ => False
  end.

(** Along a [start()] that finds the thread there, after [k] steps of the
    caller: [m'] is the execution without the call. *)
Definition refused_start (k : nat) (m m' : Machine) : Prop :=
  priv m = priv m' /\ pump m = pump m' /\
  before_loop (pump m) = false /\
  run_thread_ (priv m) = true /\ is_init_ (priv m) = true /\
  caller m = start_refused_pc k /\
  mutex m = (if decide (k = 2%nat) then Some Caller else None).

Definition is_runtime_error (ev : Event) : bool :=
  match ev with EvRuntimeError _ _ => true | _ => false end.

(** The number of invocations of runtime-error callbacks along a trace. *)
Definition runtime_errors (t : list Event) : nat :=
  length (filter (fun ev => is_runtime_error ev = true) t).

Definition InvEnd (n0 : nat) (m : Machine) : Prop :=
  runtime_errors (trace (priv m)) = n0 /\
  forall out, pump m = P_end_run out -> out <> -1.

(** The steps [start()] still has to take before its busy wait, and the
    steps the acquisition thread still has to take before it sets
    [camera_is_started_]. *)
Definition caller_rank (pc : CallerPc) : nat :=
  match pc with
  | C_start_check => 8 | C_start_lock => 7 | C_start_joinable => 6
  | C_start_spawn => 5 | C_start_wait_thread => 4 | C_start_set_running => 3
  | C_start_set_status => 2 | C_start_notify => 1
  | _ => 0
  end.

Definition pump_rank (pp : PumpPc) : nat :=
  match pp with
  | P_lock => 5 | P_wait_started => 4 | P_notify => 3 | P_run_from => 2
  | P_main_loop => 1
  | _ => 0
  end.


(** *** The life of the acquisition thread *)

(** The caller of a [stop()] that finds no thread, after [k] of its
    steps. *)
Definition stop_refused_pc (k : nat) : CallerPc :=
  match k with
  | O => C_stop_check
  | 1%nat => C_stop_lock
  | 2%nat => C_stop_joinable
  | _ => C_done OpStop (Returned false)
  end.

(** The flags of the session that the interface reports. *)
Record Flags := { f_running : bool; f_recording : bool }.

Definition flags (c : Private) : Flags :=
  {| f_running := is_running_ c; f_recording := is_recording_ c |}.

(** The points of the acquisition thread once it has set
    [run_thread_status_] to RUNNING and until its function returns. *)
Definition thread_running (pp : PumpPc) : bool :=
  match pp with
  | P_none | P_lock | P_wait_started | P_terminated => false
  | _ => true
  end.

(** The points of [stop()] between [run_thread_status_ = STOPPED] and the
    join. *)
Definition stop_engaged (pc : CallerPc) : bool :=
  match pc with
  | C_stop_set_running | C_stop_stream | C_stop_device | C_stop_join => true
  | _ => false
  end.

(** The points of [start()] at which the new thread exists and the caller
    still holds [run_thread_mutex_]. *)
Definition start_locked (pc : CallerPc) : bool :=
  match pc with
  | C_start_wait_thread | C_start_set_running | C_start_set_status => true
  | _ => false
  end.

(** The points of [stop()] from the test of the condition variable to the
    join: the thread is there. *)
Definition stop_body (pc : CallerPc) : bool :=
  match pc with
  | C_stop_wait_running | C_stop_relock | C_stop_set_status
  | C_stop_set_running | C_stop_stream | C_stop_device | C_stop_join => true
  | _ => false
  end.

(** The points of [stop()] after [set_is_running(false)], and its return. *)
Definition stop_signalled (pc : CallerPc) : bool :=
  match pc with
  | C_stop_stream | C_stop_device | C_stop_join | C_stop_recording
  | C_stop_return | C_done OpStop (Returned true) => true
  | _ => false
  end.

(** The points of [stop()] after the join, and its return. *)
Definition stop_joined (pc : CallerPc) : bool :=
  match pc with
  | C_stop_recording | C_stop_return | C_done OpStop (Returned true) => true
  | _ => false
  end.

(** The points of [stop()] after [stop_recording()], and its return. *)
Definition stop_closed (pc : CallerPc) : bool :=
  match pc with
  | C_stop_return | C_done OpStop (Returned true) => true
  | _ => false
  end.

(** What holds besides [Inv] of every state of an execution that begins
    with a constructed session, in terms of the members of the handshake,
    of the two flags and of the two program points. *)
Definition InvLifeK (k : Ctl) (f : Flags) (pc : CallerPc) (pp : PumpPc) : Prop :=
  (start_locked pc = true -> pp = P_lock) /\
  (stop_body pc = true -> k_thread k = true) /\
  (thread_running pp = true -> stop_engaged pc = false ->
   k_status k = RunThreadStatus.RUNNING) /\
  (stop_signalled pc = true -> f_running f = false) /\
  (stop_engaged pc = true \/ stop_joined pc = true ->
   k_status k = RunThreadStatus.STOPPED) /\
  (stop_joined pc = true -> k_thread k = false) /\
  (stop_closed pc = true -> f_recording f = false).

Definition InvLife (m : Machine) : Prop :=
  InvLifeK (ctl (priv m)) (flags (priv m)) (caller m) (pump m).

(** When the session was not running to begin with: [is_running_] is false
    whenever there is no acquisition thread or its function has returned. *)
Definition InvIdle (m : Machine) : Prop :=
  pump m = P_none \/ pump m = P_done -> is_running_ (priv m) = false.

(** The steps [stop()] still has to take. *)
Definition stop_rank (pc : CallerPc) : nat :=
  match pc with
  | C_stop_check => 11 | C_stop_lock => 10 | C_stop_joinable => 9
  | C_stop_wait_running => 8 | C_stop_relock => 9 | C_stop_set_status => 7
  | C_stop_set_running => 6 | C_stop_stream => 5 | C_stop_device => 4
  | C_stop_join => 3 | C_stop_recording => 2 | C_stop_return => 1
  | _ => 0
  end.

(** The steps the acquisition thread still has to take, once it is in its
    main loop and [is_running_] is false, before its function returns. *)
Definition exit_rank (pp : PumpPc) : nat :=
  match pp with
  | P_poll => 6 | P_process _ => 5 | P_emulate _ _ _ => 4 | P_while _ => 3
  | P_loop_return _ => 2 | P_end_run _ => 1
  | _ => 0
  end.

(** Along a [stop()] that finds the thread. *)
Definition live_stop (m : Machine) : Prop :=
  match caller m with
  | C_stop_check | C_stop_lock | C_stop_joinable =>
      run_thread_ (priv m) = true
  | C_stop_wait_running | C_stop_set_status | C_stop_set_running
  | C_stop_stream | C_stop_device | C_stop_join | C_stop_recording
  | C_stop_return | C_done OpStop (Returned true) => True
  | _ => False
  end.

(** The events by which the session consumes the stream: polling, pulling,
    decoding, the raw-buffer callbacks and the pacing sleeps. *)
Definition is_data_event (ev : Event) : bool :=
  match ev with
  | EvWaitNextBuffer _ | EvGetLatestRawData _ _ | EvDecode _ _
  | EvRawData _ _ _ | EvSleep _ => true
  | _ => false
  end.

(** Whether the stream has failed for the thread of the moment: the last
    poll returned a negative value, and no thread has been created since.
    [f] is the answer before the trace. *)
Definition failed_after (f : bool) (t : list Event) : bool :=
  foldl (fun f ev =>
           match ev with
           | EvThreadSpawn => false
           | EvWaitNextBuffer res => res <? 0
           | _ => f
           end) f t.

(** No data event while the stream has failed. *)
Fixpoint quiet_after_failure (f : bool) (t : list Event) : bool :=
  match t with
  | [] => true
  | ev :: t =>
      negb (f && is_data_event ev) &&
      quiet_after_failure (failed_after f [ev]) t
  end.

(** The calls into the device-control facility. *)
Definition is_device_event (ev : Event) : bool :=
  match ev with
  | EvDeviceStart | EvDeviceReset | EvDeviceStop => true
  | _ => false
  end.

Definition device_events (t : list Event) : list Event :=
  filter (fun ev => is_device_event ev = true) t.

(** The session of a default-constructed [Camera]: [Private(true)] returns
    before anything is initialized. *)
Definition sample_empty : Private :=
  set_is_init_ false (set_from_file_ false (new_session true false 0)).

(** Which event a step of the caller can add to the trace, by the point of
    [start()] or [stop()] it is at. *)
Definition caller_emits (c : Private) (pc : CallerPc) (ev : Event) : Prop :=
  match ev with
  | EvThreadSpawn => pc = C_start_spawn
  | EvStatusChange _ CameraStatus.STARTED => pc = C_start_set_running
  | EvStatusChange _ CameraStatus.STOPPED => pc = C_stop_set_running
  | EvStreamStop => pc = C_stop_stream
  | EvDeviceStop => pc = C_stop_device /\ i_device_control_ c = true
  | EvThreadJoin => pc = C_stop_join
  | EvStopLogRawData => pc = C_stop_recording
  | _ => False
  end.

(** Which event a step of the acquisition thread can add to the trace, by
    the point it is at. *)
Definition pump_emits (c : Private) (pp : PumpPc) (ev : Event) : Prop :=
  match ev, pp with
  | EvStreamStart, P_run_from => True
  | (EvDeviceStart | EvDeviceReset), P_run_from => from_file_ c = false
  | EvWaitNextBuffer _, P_poll => True
  | EvGetLatestRawData _ _, P_process _ => True
  | (EvDecode _ _ | EvRawData _ _ _), P_process _ => emulate_real_time_ c = false
  | (EvDecode _ _ | EvRawData _ _ _ | EvSleep _), P_emulate _ _ _ => True
  | EvStatusChange _ CameraStatus.STOPPED, P_end_run _ => True
  | EvRuntimeError _ DataTransferFailed, P_end_run run_output => run_output = -1
  | _, _ => False
  end.

(** A replay without real-time emulation, as constructed. *)
Definition sample_plain_session : Private :=
  set_raw_data_cbs [3; 7] (new_session true false 4).

(** The points of the acquisition thread once its main loop has returned,
    and the absence of a thread. *)
Definition loop_exited (pp : PumpPc) : bool :=
  match pp with
  | P_loop_return _ | P_end_run _ | P_done | P_none => true
  | _ => false
  end.

(** *** [set_is_running], statement by statement

    In the machine above a call of [set_is_running] is one step. Its
    statements are under no lock ([cbs_mutex_] covers the copy of the map
    only), and [stop()] and [end_run()] both call [set_is_running(false)],
    each on its thread. What two calls that overlap do is told by taking
    the statements one at a time. *)

(** Where a call of [set_is_running] stands. *)
Inductive SetIsRunningPc :=
| S_test                 (* if (is_running_ != is_running) *)
| S_write                (* is_running_ = is_running *)
| S_copy                 (* callbacks_to_call = status_change_callback_map_, under cbs_mutex_ *)
| S_notify (callbacks_to_call : list (CallbackId * Handler))
                         (* for (auto &callback : callbacks_to_call) callback.second(...) *)
| S_return.

(** One statement of [set_is_running(is_running)]. *)
Definition step_set_is_running (is_running : bool) (pc : SetIsRunningPc) (c : Private)
  : SetIsRunningPc * Private :=
  match pc with
  | S_test =>
      (if negb (Bool.eqb (is_running_ c) is_running) then S_write else S_return, c)
  | S_write => (S_copy, set_is_running_ is_running c)
  | S_copy => (S_notify (map_entries (status_change_callback_map_ c)), c)
  | S_notify [] => (S_return, c)
  | S_notify (callback :: callbacks_to_call) =>
      (S_notify callbacks_to_call,
       emit [EvStatusChange callback.1
               (if is_running then CameraStatus.STARTED else CameraStatus.STOPPED)] c)
  | S_return => (S_return, c)
  end.

(** Two calls of [set_is_running(is_running)] on the same session: the one
    of the caller's thread (in [stop()]) and the one of the acquisition
    thread (in [end_run()]). *)
Record Overlap := {
  o_priv : Private;
  o_caller : SetIsRunningPc;
  o_pump : SetIsRunningPc
}.

(** The thread [th] executes its next statement. *)
Definition overlap_step (is_running : bool) (o : Overlap) (th : Thread) : Overlap :=
  match th with
  | Caller =>
      let r := step_set_is_running is_running (o_caller o) (o_priv o) in
      {| o_priv := r.2; o_caller := r.1; o_pump := o_pump o |}
  | Pump =>
      let r := step_set_is_running is_running (o_pump o) (o_priv o) in
      {| o_priv := r.2; o_caller := o_caller o; o_pump := r.1 |}
  end.

Definition overlap_run (is_running : bool) (sch : list Thread) (o : Overlap) : Overlap :=
  foldl (overlap_step is_running) o sch.

(** Both threads are about to call [set_is_running]. *)
Definition two_calls (c : Private) : Overlap :=
  {| o_priv := c; o_caller := S_test; o_pump := S_test |}.

(** How many times the status-change callback [id] is invoked with the
    status [s] in a trace. *)
Definition times_notified (id : CallbackId) (s : CameraStatus.t) (t : list Event) : nat :=
  length (filter (fun ev => ev = EvStatusChange id s) t).

(** How many times a call that has passed its test will still invoke the
    callback [id], when [id] is registered. *)
Definition still_to_notify (id : CallbackId) (pc : SetIsRunningPc) : nat :=
  match pc with
  | S_test | S_return => 0
  | S_write | S_copy => 1
  | S_notify callbacks_to_call =>
      length (filter (fun callback : CallbackId * Handler => callback.1 = id)
                     callbacks_to_call)
  end.

(** [start()] returns, the first poll of the acquisition thread fails, and
    [stop()] is called: the caller reaches its [set_is_running(false)]
    when the acquisition thread reaches [end_run]. *)
Definition stop_meets_end_run : list Action :=
  [ACall OpStart] ++ replicate 8 ACaller ++ replicate 5 (APump stream_failure) ++
  [ACaller] ++ replicate 3 (APump stream_failure) ++
  [ACall OpStop] ++ replicate 5 ACaller.

(** The two calls test [is_running_] one after the other, then the caller's
    call runs to its end, then the one of the acquisition thread. *)
Definition both_test_first (callbacks : nat) : list Thread :=
  [Caller; Pump] ++ replicate (3 + callbacks) Caller ++ replicate (3 + callbacks) Pump.
End Camera.


(** ** Camera: the interface functions ([camera.cpp]) *)

Module CameraApi.
Import Camera.

(** The pointer members of [Camera::Private] that the interface functions
    test, besides the members of [Camera.Private]: [true] when the pointer
    is not null. *)
Record Handles := {
  device_ : bool;
  i_events_stream_ : bool;
  i_decoder_ : bool;
  geometry_ : bool;
  biases_ : bool;
  roi_ : bool;
  ext_trigger_ : bool;
  afk_ : bool;
  noise_filter_ : bool;
  trigger_out_ : bool
}.

(** What a [CameraException] carries: a [CameraErrorCode] or an internal
    code ([UnsupportedFeatureErrors], [InternalInitializationErrors]). *)
Inductive Exception :=
| Code (e : CameraErrorCode)
| BiasesUnavailable
| RoiUnavailable
| ExtTriggerUnavailable
| AntiFlickerModuleUnavailable
| NoiseFilterModuleUnavailable
| TriggerOutUnavailable
| ILLBiasesNotFound
| IRoiNotFound
| DeprecatedFeature.

(** Checks: [None] when the check passes, the exception otherwise. *)
Definition Check := option Exception.

(** [a; b]: [b] runs when [a] has not thrown. *)
Definition and_then (a b : Check) : Check :=
  match a with Some e => Some e | None => b end.

Definition throw_unless (ok : bool) (e : Exception) : Check :=
  if ok then None else Some e.

(** [Camera::Private::check_initialization] *)
Definition check_initialization (c : Private) : Check :=
  throw_unless (is_init_ c) (Code CameraNotInitialized).

(** [Camera::Private::check_biases_instance] *)
Definition check_biases_instance (h : Handles) (c : Private) : Check :=
  and_then (check_initialization c) (throw_unless (biases_ h) ILLBiasesNotFound).

(** [Camera::Private::check_events_stream_instance] *)
Definition check_events_stream_instance (h : Handles) (c : Private) : Check :=
  and_then (check_initialization c)
           (throw_unless (i_events_stream_ h) (Code IEventsStreamNotFound)).

(** [Camera::Private::check_ccam_instance] *)
Definition check_ccam_instance (c : Private) : Check :=
  and_then (check_initialization c)
           (throw_unless (i_device_control_ c) (Code IDeviceControlNotFound)).

(** [Camera::Private::check_camera_device_instance] *)
Definition check_camera_device_instance (h : Handles) (c : Private) : Check :=
  and_then (check_initialization c) (throw_unless (device_ h) (Code CameraNotFound)).

(** [Camera::Private::check_decoder_device_instance] *)
Definition check_decoder_device_instance (h : Handles) (c : Private) : Check :=
  and_then (check_initialization c)
           (throw_unless (i_decoder_ h) (Code IDecoderNotFound)).

(** *** The callback registry *)

(** What a function that returns an [A] or throws leaves: the session and
    the value or the exception. *)
Inductive Outcome (A : Type) :=
| Returns (a : A)
| Throws (e : Exception).
Arguments Returns {A} a.
Arguments Throws {A} e.

(** [Camera::Private::add_runtime_error_callback]; [save_id] is what
    [index_manager_.index_generator_.get_next_index()] returns. *)
Definition add_runtime_error_callback (h : Handles) (save_id : CallbackId)
    (error_callback : Handler) (c : Private) : Private * Outcome CallbackId :=
  match check_camera_device_instance h c with
  | Some e => (c, Throws e)
  | None =>
      (set_runtime_error_callback_map_
         (<[save_id := error_callback]> (runtime_error_callback_map_ c)) c,
       Returns save_id)
  end.

(** [Camera::Private::remove_runtime_error_callback] *)
Definition remove_runtime_error_callback (callback_id : CallbackId) (c : Private)
  : Private * bool :=
  match runtime_error_callback_map_ c !! callback_id with
  | Some _ =>
      (set_runtime_error_callback_map_
         (delete callback_id (runtime_error_callback_map_ c)) c, true)
  | None => (c, false)
  end.

(** [Camera::Private::add_status_change_callback] *)
Definition add_status_change_callback (h : Handles) (save_id : CallbackId)
    (status_change_callback : Handler) (c : Private) : Private * Outcome CallbackId :=
  match check_camera_device_instance h c with
  | Some e => (c, Throws e)
  | None =>
      (set_status_change_callback_map_
         (<[save_id := status_change_callback]> (status_change_callback_map_ c)) c,
       Returns save_id)
  end.

(** [Camera::Private::remove_status_change_callback] *)
Definition remove_status_change_callback (callback_id : CallbackId) (c : Private)
  : Private * bool :=
  match status_change_callback_map_ c !! callback_id with
  | Some _ =>
      (set_status_change_callback_map_
         (delete callback_id (status_change_callback_map_ c)) c, true)
  | None => (c, false)
  end.

(** The status-change callbacks that a piece of code has invoked, with the
    status each was given, in order. *)
Definition status_changes (t : list Event) : list (CallbackId * CameraStatus.t) :=
  omap (fun ev => match ev with EvStatusChange id s => Some (id, s) | _ => None end) t.

(** *** Recording *)

(** The calls [start_recording] makes besides [stop_recording()], in
    order: [biases_->save_to_file] and [i_events_stream_->log_raw_data]. *)
Inductive RecordingCall :=
| SaveBiases (path : string)
| LogRawData (path : string).

(** [Camera::Private::start_recording]. [change_extension] is
    [boost::filesystem::change_extension(_, "")]; [log_raw_data] is the
    answer of the event stream. The session, the calls made after
    [stop_recording()] and the exception, if any. *)
Definition start_recording (h : Handles)
    (change_extension : string -> string) (log_raw_data : string -> bool)
    (rawfile_path : string) (c : Private)
  : Private * list RecordingCall * Check :=
  match and_then (check_camera_device_instance h c)
                 (check_events_stream_instance h c) with
  | Some e => (c, [], Some e)
  | None =>
      let c := stop_recording c in
      let base_path := change_extension rawfile_path in
      let saved := if biases_ h then [SaveBiases (base_path +:+ ".bias")] else [] in
      let calls := saved ++ [LogRawData (base_path +:+ ".raw")] in
      if negb (log_raw_data (base_path +:+ ".raw")) then
        (c, calls, Some (Code CouldNotOpenFile))
      else (set_is_recording_ true c, calls, None)
  end.

(** [Camera::Private::stop_recording], with its check. *)
Definition stop_recording_checked (h : Handles) (c : Private) : Private * Check :=
  match check_events_stream_instance h c with
  | Some e => (c, Some e)
  | None => (stop_recording c, None)
  end.

(** *** The facilities *)

Inductive Facility :=
| F_biases | F_roi | F_geometry | F_generation | F_raw_data | F_cd
| F_ext_trigger | F_antiflicker_module | F_noise_filter_module | F_trigger_out
(* deprecated *)
| F_em | F_imu | F_temperature | F_illuminance | F_imu_module
| F_temperature_module | F_illuminance_module.

(** [Camera::biases()], [roi()], ...: the exception the accessor throws, if
    any. *)
Definition facility (f : Facility) (h : Handles) (c : Private) : Check :=
  match f with
  | F_biases =>
      and_then (throw_unless (negb (from_file_ c)) BiasesUnavailable)
               (check_biases_instance h c)
  | F_roi =>
      and_then (check_camera_device_instance h c)
        (and_then (throw_unless (negb (from_file_ c)) RoiUnavailable)
                  (throw_unless (roi_ h) IRoiNotFound))
  | F_geometry =>
      and_then (check_camera_device_instance h c)
               (throw_unless (geometry_ h) (Code IGeometryNotFound))
  | F_generation | F_raw_data | F_cd => check_camera_device_instance h c
  | F_ext_trigger =>
      and_then (check_camera_device_instance h c)
               (throw_unless (ext_trigger_ h) ExtTriggerUnavailable)
  | F_antiflicker_module =>
      and_then (check_camera_device_instance h c)
        (and_then (throw_unless (negb (from_file_ c)) AntiFlickerModuleUnavailable)
                  (throw_unless (afk_ h) AntiFlickerModuleUnavailable))
  | F_noise_filter_module =>
      and_then (check_camera_device_instance h c)
        (and_then (throw_unless (negb (from_file_ c)) NoiseFilterModuleUnavailable)
                  (throw_unless (noise_filter_ h) NoiseFilterModuleUnavailable))
  | F_trigger_out =>
      and_then (check_camera_device_instance h c)
        (and_then (throw_unless (negb (from_file_ c)) TriggerOutUnavailable)
                  (throw_unless (trigger_out_ h) TriggerOutUnavailable))
  | F_em | F_imu | F_temperature | F_illuminance | F_imu_module
  | F_temperature_module | F_illuminance_module => Some DeprecatedFeature
  end.

(** The facilities that only a device has. *)
Definition device_only (f : Facility) : option Exception :=
  match f with
  | F_biases => Some BiasesUnavailable
  | F_roi => Some RoiUnavailable
  | F_antiflicker_module => Some AntiFlickerModuleUnavailable
  | F_noise_filter_module => Some NoiseFilterModuleUnavailable
  | F_trigger_out => Some TriggerOutUnavailable
  | _ => None
  end.

Definition deprecated (f : Facility) : bool :=
  match f with
  | F_em | F_imu | F_temperature | F_illuminance | F_imu_module
  | F_temperature_module | F_illuminance_module => true
  | _ => false
  end.

(** *** The sources *)

(** [ConnectionType], as far as [list_online_sources] tells its values
    apart. *)
Inductive ConnectionType := MIPI_LINK | USB_LINK | OTHER_LINK.

(** [OnlineSourceType] *)
Inductive OnlineSourceType := EMBEDDED | USB | REMOTE.

Global Instance OnlineSourceType_eq_dec : EqDecision OnlineSourceType.
Proof. solve_decision. Defined.

(** An element of a [DeviceDiscovery::SystemList]: its connection and what
    [get_full_serial()] returns. *)
Record System := {
  connection_ : ConnectionType;
  full_serial : string
}.

(** [AvailableSourcesList], a
    [std::map<OnlineSourceType, std::vector<std::string>>]. *)
Definition AvailableSourcesList := OnlineSourceType -> option (list string).

Definition no_sources : AvailableSourcesList := fun _ => None.

Definition assign (ty : OnlineSourceType) (v : list string)
    (ret : AvailableSourcesList) : AvailableSourcesList :=
  fun ty' => if decide (ty' = ty) then Some v else ret ty'.

(** [if (ret.find(ty) == ret.end()) ret[ty] = {}; ret[ty].push_back(s);] *)
Definition push_back (ty : OnlineSourceType) (s : string)
    (ret : AvailableSourcesList) : AvailableSourcesList :=
  let ret := match ret ty with
             | None => assign ty [] ret
             | Some _ => ret
             end in
  assign ty (default [] (ret ty) ++ [s]) ret.

(** The order of [std::sort] on strings. *)
Definition string_le (a b : string) : Prop := String.leb a b = true.

Global Instance string_le_dec a b : Decision (string_le a b).
Proof. unfold string_le. apply _. Defined.

(** [for (auto systems : ret) std::sort(systems.second.begin(), ...)]:
    [systems] is a copy of the entry of the map, and it is the copy that is
    sorted; the map keeps its vectors. *)
Definition sort_entries (ret : AvailableSourcesList) : AvailableSourcesList :=
  foldl (fun ret ty =>
           match ret ty with
           | Some v => let systems_second := merge_sort string_le v in ret
           | None => ret
           end) ret [EMBEDDED; USB; REMOTE].

(** [Camera::list_online_sources], from what
    [DeviceDiscovery::list_available_sources_local()] and
    [list_available_sources_remote()] return. *)
Definition list_online_sources (available_systems available_remote_systems : list System)
  : AvailableSourcesList :=
  let ret := no_sources in
  let ret := foldl (fun ret system => push_back REMOTE (full_serial system) ret)
                   ret available_remote_systems in
  let ret := foldl (fun ret system =>
                      match connection_ system with
                      | MIPI_LINK => push_back EMBEDDED (full_serial system) ret
                      | USB_LINK => push_back USB (full_serial system) ret
                      | OTHER_LINK => ret
                      end) ret available_systems in
  sort_entries ret.

(** The connection that makes a system a source of a type. *)
Definition of_type (ty : OnlineSourceType) (s : System) : bool :=
  match ty, connection_ s with
  | EMBEDDED, MIPI_LINK | USB, USB_LINK => true
  | _, _ => false
  end.

(** The full serials of the systems of a type, in the order in which
    discovery lists them. *)
Definition serials_of (ty : OnlineSourceType) (local remote : list System)
  : list string :=
  match ty with
  | REMOTE => full_serial <$> remote
  | _ => full_serial <$> filter (fun s => of_type ty s = true) local
  end.

(** The entry of a map for a vector: none for the empty one. *)
Definition entry (v : list string) : option (list string) :=
  match v with [] => None | _ => Some v end.

(** *** The constructors *)

(** The facilities of a [Device], for a session on a camera: those of
    [Camera.Device] and the ones [init_online_interfaces] and
    [init_callbacks] look up. *)
Record Facilities := {
  common : Device;
  has_device_control : bool;          (* I_DeviceControl *)
  has_roi : bool;                     (* I_ROI *)
  has_trigger_out : bool;             (* I_TriggerOut *)
  has_ll_biases : bool;               (* I_LL_Biases *)
  has_afk : bool;                     (* I_AntiFlickerModule *)
  has_noise_filter : bool;            (* I_NoiseFilterModule *)
  has_ext_trigger_decoder : bool      (* I_EventDecoder<EventExtTrigger> *)
}.

Definition set_i_device_control_ (v : bool) (c : Private) : Private :=
  let '(Build_Private f1 f2 f3 _ f5 f6 f7 f8 f9 f10 f11 f12 f13 f14 f15 f16 f17 f18) := c in
  Build_Private f1 f2 f3 v f5 f6 f7 f8 f9 f10 f11 f12 f13 f14 f15 f16 f17 f18.

(** How a constructor ends. [CameraGeneration::Private::build(Device &)]
    calls [get_sensor_info()] on the [I_HW_Identification] facility without
    testing the pointer. *)
Inductive Construction :=
| Built (h : Handles) (c : Private)
| Failed (e : Exception)
| NullDereference.

(** The handles of an object on which no constructor has run yet. *)
Definition no_handles : Handles :=
  {| device_ := false; i_events_stream_ := false; i_decoder_ := false;
     geometry_ := false; biases_ := false; roi_ := false; ext_trigger_ := false;
     afk_ := false; noise_filter_ := false; trigger_out_ := false |}.

(** [Camera::Private::init_online_interfaces] followed by
    [init_common_interfaces] and [init_callbacks], on the device [dev] that
    [DeviceDiscovery::open] has returned, if any; [c] has [is_init_]. *)
Definition init_interfaces (dev : option Facilities) (c : Private) : Construction :=
  match dev with
  | None => Failed (Code CameraNotFound)           (* check_camera_device_instance *)
  | Some dev =>
      if negb (has_device_control dev) then Failed (Code IDeviceControlNotFound)
      else if negb (has_events_stream (common dev)) then
        Failed (Code IEventsStreamNotFound)
      else if negb (has_geometry (common dev)) then Failed (Code IGeometryNotFound)
      else if negb (has_decoder (common dev)) then Failed (Code IDecoderNotFound)
      else if negb (has_hw_identification (common dev)) then NullDereference
      else if negb (has_cd_decoder (common dev)) then Failed (Code ICDDecoderNotFound)
      else
        Built {| device_ := true; i_events_stream_ := true; i_decoder_ := true;
                 geometry_ := true;
                 biases_ := has_ll_biases dev;
                 roi_ := has_roi dev;
                 ext_trigger_ := has_ext_trigger_decoder dev;
                 afk_ := has_afk dev;
                 noise_filter_ := has_noise_filter dev;
                 trigger_out_ := has_trigger_out dev |}
              (set_i_device_control_ true c)
  end.

Section Constructors.

(** The systems that discovery lists and [DeviceDiscovery::open]. *)
Variable available_systems available_remote_systems : list System.
Variable open : string -> option Facilities.

(** The object before the body of a constructor runs: its members have
    their initial values. *)
Variable c0 : Private.

(** [Camera::Private::Private(bool empty_init)] *)
Definition from_first_available (empty_init : bool) : Construction :=
  if empty_init then Built no_handles c0
  else
    let c := set_is_init_ true c0 in
    let available := list_online_sources available_systems available_remote_systems in
    let dev :=
      match available EMBEDDED with
      | Some embedded =>
          match embedded with
          | serial :: _ => open serial
          | [] => None
          end
      | None =>
          match available USB with
          | Some (serial :: _) => open serial
          | _ => None
          end
      end in
    init_interfaces dev c.

(** [Camera::Private::Private(OnlineSourceType, uint32_t)] *)
Definition from_source (input_source_type : OnlineSourceType) (source_index : nat)
  : Construction :=
  let c := set_is_init_ true c0 in
  let available := list_online_sources available_systems available_remote_systems in
  match available input_source_type with
  | Some systems =>
      match systems !! source_index with
      | Some serial => init_interfaces (open serial) c
      | None => Failed (Code CameraNotFound)
      end
  | None => init_interfaces None c
  end.

(** [Camera::Private::Private(const Serial &)] *)
Definition from_serial (serial : string) : Construction :=
  let c := set_is_init_ true c0 in
  match open serial with
  | None => Failed (Code CameraNotFound)
  | Some dev => init_interfaces (Some dev) c
  end.

End Constructors.

(** [Camera::Private::Private(rawfile, config, reproduce_camera_behavior)]:
    [open_raw_file] on the object [c0]; [ext_trigger] tells whether the
    device of the file has an [I_EventDecoder<EventExtTrigger>]. *)
Definition from_file (fs : FileSystem) (discovery : string -> option Device)
    (ext_trigger : bool) (rawfile : string) (reproduce_camera_behavior : bool)
    (c0 : Private) : Construction :=
  match open_raw_file fs discovery (fun c => c) rawfile reproduce_camera_behavior c0 with
  | (_, Some e) => Failed (Code e)
  | (c, None) =>
      Built {| device_ := true; i_events_stream_ := true; i_decoder_ := true;
               geometry_ := true; biases_ := false; roi_ := false;
               ext_trigger_ := ext_trigger; afk_ := false;
               noise_filter_ := false; trigger_out_ := false |}
            c
  end.

(** The handles of a sample camera. *)
Definition sample_handles : Handles :=
  {| device_ := true; i_events_stream_ := true; i_decoder_ := true;
     geometry_ := true; biases_ := true; roi_ := true; ext_trigger_ := false;
     afk_ := false; noise_filter_ := false; trigger_out_ := true |}.

Definition sample_camera : Facilities :=
  {| common := sample_device; has_device_control := true; has_roi := true;
     has_trigger_out := true; has_ll_biases := true; has_afk := false;
     has_noise_filter := false; has_ext_trigger_decoder := false |}.

(** Two USB cameras, found in this order, and a remote one. *)
Definition sample_local : list System :=
  [ {| connection_ := USB_LINK; full_serial := "vendor:usb:zeta" |};
    {| connection_ := OTHER_LINK; full_serial := "vendor:net:mu" |};
    {| connection_ := USB_LINK; full_serial := "vendor:usb:alpha" |} ].

Definition sample_remote : list System :=
  [ {| connection_ := OTHER_LINK; full_serial := "vendor:remote:pi" |} ].

End CameraApi.

(** ** metavision_raw_info ([metavision_raw_info.cpp]) *)

Module RawInfo.

(** The labels [ls] of [human_readable_time]. *)
Definition ls : list string := ["d"; "h"; "m"; "s"; "ms"; "us"].

(** The array [vs] of [human_readable_time]: [%] and [/] on a signed
    [timestamp] truncate toward zero. *)
Definition vs (t : Z) : list Z :=
  let v5 := Z.rem t 1000 in
  let t := Z.quot t 1000 in (* ms *)
  let v4 := Z.rem t 1000 in
  let t := Z.quot t 1000 in (* s *)
  let v3 := Z.rem t 60 in
  let t := Z.quot t 60 in (* m *)
  let v2 := Z.rem t 60 in
  let t := Z.quot t 60 in (* h *)
  let v1 := Z.rem t 24 in
  let t := Z.quot t 24 in (* d *)
  let v0 := Z.rem t 365 in
  [v0; v1; v2; v3; v4; v5].

(** [for (; i < 6 && vs[i] == 0; ++i) {}] *)
Fixpoint leading_zeros (vs : list Z) : nat :=
  match vs with
  | v :: vs => if v =? 0 then S (leading_zeros vs) else 0
  | [] => 0
  end.

(** The values that are printed, with their labels. *)
Definition shown (t : Z) : list (Z * string) :=
  drop (leading_zeros (vs t)) (zip (vs t) ls).

(** [oss << vs[i] << ls[i] << " "] *)
Definition render (item : Z * string) : string :=
  pretty item.1 +:+ item.2 +:+ " ".

(** [human_readable_time] *)
Definition human_readable_time (t : Z) : string :=
  foldr String.append "" (render <$> shown t).

(** The number of microseconds in 365 days. *)
Definition year_us : Z := 365 * 24 * 60 * 60 * 1000 * 1000.

(** The microseconds that a list of values for the six units stands for. *)
Definition microseconds (vs : list Z) : Z :=
  match vs with
  | [d; h; m; s; ms; us] => ((((d * 24 + h) * 60 + m) * 60 + s) * 1000 + ms) * 1000 + us
  | _ => 0
  end.

(** The statistics that [main] keeps for a type of event. *)
Record Stats := {
  num_events : Z;
  first_ts : Z;
  last_ts : Z
}.

(** [std::numeric_limits<Metavision::timestamp>::max()] *)
Definition timestamp_max : Z := 2 ^ 63 - 1.

(** [std::fill] of the three arrays. *)
Definition no_stats : Stats :=
  {| num_events := 0; first_ts := timestamp_max; last_ts := -1 |}.

(** The callback that [main] registers, on a buffer given by the
    timestamps of its events: it reads [begin->t] and [(end - 1)->t], which
    an empty buffer does not have. *)
Definition on_events (buffer : list Z) (st : Stats) : option Stats :=
  match buffer, last buffer with
  | begin_t :: _, Some end_t =>
      Some {| num_events := Int.wrap64 (num_events st + Z.of_nat (length buffer));
              first_ts := Z.min (first_ts st) begin_t;
              last_ts := Z.max (last_ts st) end_t |}
  | _, _ => None
  end.

(** The callback on the buffers of a run, in order. *)
Fixpoint on_buffers (buffers : list (list Z)) (st : Stats) : option Stats :=
  match buffers with
  | [] => Some st
  | buffer :: buffers =>
      match on_events buffer st with
      | Some st => on_buffers buffers st
      | None => None
      end
  end.

(** "update duration as the maximum timestamp ever found" *)
Definition duration (stats : list Stats) : Z :=
  foldl (fun duration st => Z.max duration (last_ts st)) (-1) stats.

(** A buffer whose events are in the order of their timestamps. *)
Definition time_ordered (buffer : list Z) : Prop :=
  forall i j a b, buffer !! i = Some a -> buffer !! j = Some b ->
                  (i <= j)%nat -> a <= b.

End RawInfo.

(** ** StreamLoggerAlgorithm ([stream_logger_algorithm.h]) *)

Module StreamLogger.

(** An event, as far as the logger looks at it: its timestamp [t], and the
    rest of it. *)
Record Event := {
  t : Z;
  body : Z
}.

(** What the logger does to its [std::ofstream], in order. A write is
    recorded as it is requested: whether the file system accepts the
    bytes is not part of the logger. *)
Inductive FileOp :=
| Open (filename : string) (ok : bool)    (* output_.open(filename, std::ios::binary) *)
| Close                                   (* output_.close() on an open stream *)
| WriteHeader (width height : Z)          (* write_DAT_header, with Width and Height *)
| Write (origin : Z) (events : list Event).
                                          (* output_.write of the events that
                                             write_event(buf, origin) has laid out *)

(** [StreamLoggerAlgorithm]: its members, with the file [output_] is open
    on, if any, and what has been done to the files. *)
Record Logger := {
  width_ : Z;
  height_ : Z;
  split_counter_ : Z;
  filename_ : string;
  filename_base_ : string;
  filename_ext_ : string;
  output_ : option string;
  enable_ : bool;
  header_written_ : bool;
  split_timestamp_secs_ : Z;
  split_timestamp_us_ : Z;
  initial_timestamp_ : Z;
  last_timestamp_ : Z;
  ops : list FileOp
}.

(** [InvalidTimestamp = std::numeric_limits<std::int32_t>::max()] *)
Definition InvalidTimestamp : Z := 2 ^ 31 - 1.

Definition set_split_counter_ (v : Z) (s : Logger) : Logger :=
  {| width_ := width_ s; height_ := height_ s; split_counter_ := v;
     filename_ := filename_ s; filename_base_ := filename_base_ s;
     filename_ext_ := filename_ext_ s; output_ := output_ s; enable_ := enable_ s;
     header_written_ := header_written_ s;
     split_timestamp_secs_ := split_timestamp_secs_ s;
     split_timestamp_us_ := split_timestamp_us_ s;
     initial_timestamp_ := initial_timestamp_ s;
     last_timestamp_ := last_timestamp_ s; ops := ops s |}.

Definition set_split (secs us : Z) (s : Logger) : Logger :=
  {| width_ := width_ s; height_ := height_ s; split_counter_ := split_counter_ s;
     filename_ := filename_ s; filename_base_ := filename_base_ s;
     filename_ext_ := filename_ext_ s; output_ := output_ s; enable_ := enable_ s;
     header_written_ := header_written_ s;
     split_timestamp_secs_ := secs; split_timestamp_us_ := us;
     initial_timestamp_ := initial_timestamp_ s;
     last_timestamp_ := last_timestamp_ s; ops := ops s |}.

Definition set_names (filename base ext : string) (s : Logger) : Logger :=
  {| width_ := width_ s; height_ := height_ s; split_counter_ := split_counter_ s;
     filename_ := filename; filename_base_ := base; filename_ext_ := ext;
     output_ := output_ s; enable_ := enable_ s;
     header_written_ := header_written_ s;
     split_timestamp_secs_ := split_timestamp_secs_ s;
     split_timestamp_us_ := split_timestamp_us_ s;
     initial_timestamp_ := initial_timestamp_ s;
     last_timestamp_ := last_timestamp_ s; ops := ops s |}.

Definition set_output (o : option string) (more : list FileOp) (s : Logger) : Logger :=
  {| width_ := width_ s; height_ := height_ s; split_counter_ := split_counter_ s;
     filename_ := filename_ s; filename_base_ := filename_base_ s;
     filename_ext_ := filename_ext_ s; output_ := o; enable_ := enable_ s;
     header_written_ := header_written_ s;
     split_timestamp_secs_ := split_timestamp_secs_ s;
     split_timestamp_us_ := split_timestamp_us_ s;
     initial_timestamp_ := initial_timestamp_ s;
     last_timestamp_ := last_timestamp_ s; ops := ops s ++ more |}.

Definition set_enable_ (v : bool) (s : Logger) : Logger :=
  {| width_ := width_ s; height_ := height_ s; split_counter_ := split_counter_ s;
     filename_ := filename_ s; filename_base_ := filename_base_ s;
     filename_ext_ := filename_ext_ s; output_ := output_ s; enable_ := v;
     header_written_ := header_written_ s;
     split_timestamp_secs_ := split_timestamp_secs_ s;
     split_timestamp_us_ := split_timestamp_us_ s;
     initial_timestamp_ := initial_timestamp_ s;
     last_timestamp_ := last_timestamp_ s; ops := ops s |}.

Definition set_header_written_ (v : bool) (s : Logger) : Logger :=
  {| width_ := width_ s; height_ := height_ s; split_counter_ := split_counter_ s;
     filename_ := filename_ s; filename_base_ := filename_base_ s;
     filename_ext_ := filename_ext_ s; output_ := output_ s; enable_ := enable_ s;
     header_written_ := v;
     split_timestamp_secs_ := split_timestamp_secs_ s;
     split_timestamp_us_ := split_timestamp_us_ s;
     initial_timestamp_ := initial_timestamp_ s;
     last_timestamp_ := last_timestamp_ s; ops := ops s |}.

Definition set_initial_timestamp_ (v : Z) (s : Logger) : Logger :=
  {| width_ := width_ s; height_ := height_ s; split_counter_ := split_counter_ s;
     filename_ := filename_ s; filename_base_ := filename_base_ s;
     filename_ext_ := filename_ext_ s; output_ := output_ s; enable_ := enable_ s;
     header_written_ := header_written_ s;
     split_timestamp_secs_ := split_timestamp_secs_ s;
     split_timestamp_us_ := split_timestamp_us_ s;
     initial_timestamp_ := v;
     last_timestamp_ := last_timestamp_ s; ops := ops s |}.

Definition set_last_timestamp_ (v : Z) (s : Logger) : Logger :=
  {| width_ := width_ s; height_ := height_ s; split_counter_ := split_counter_ s;
     filename_ := filename_ s; filename_base_ := filename_base_ s;
     filename_ext_ := filename_ext_ s; output_ := output_ s; enable_ := enable_ s;
     header_written_ := header_written_ s;
     split_timestamp_secs_ := split_timestamp_secs_ s;
     split_timestamp_us_ := split_timestamp_us_ s;
     initial_timestamp_ := initial_timestamp_ s;
     last_timestamp_ := v; ops := ops s |}.

Section Files.

(** [boost::filesystem::path::stem] and [extension], and whether a file can
    be opened for writing. *)
Variable stem extension : string -> string.
Variable can_open : string -> bool.

(** [std::setw(4) << std::setfill('0') << std::to_string(n)] *)
Definition pad4 (digits : string) : string :=
  foldr String.append digits (replicate (4 - String.length digits) "0").

(** [StreamLoggerAlgorithm::set_filename] *)
Definition set_filename (filename : string) (s : Logger) : Logger :=
  set_names filename (stem filename) (extension filename) s.

(** The constructor; the other members have their default initializers. *)
Definition StreamLoggerAlgorithm (filename : string) (width height : Z) : Logger :=
  set_filename filename
    {| width_ := width; height_ := height; split_counter_ := 0;
       filename_ := ""; filename_base_ := ""; filename_ext_ := "";
       output_ := None; enable_ := false; header_written_ := false;
       split_timestamp_secs_ := InvalidTimestamp;
       split_timestamp_us_ := InvalidTimestamp;
       initial_timestamp_ := 0; last_timestamp_ := 0; ops := [] |}.

(** [StreamLoggerAlgorithm::get_filename] *)
Definition get_filename (s : Logger) : string :=
  if negb (split_timestamp_us_ s =? InvalidTimestamp) then
    filename_base_ s +:+ "_" +:+ pad4 (pretty (split_counter_ s)) +:+ filename_ext_ s
  else filename_ s.

(** [if (output_.is_open()) output_.close();] *)
Definition close_if_open (s : Logger) : Logger :=
  match output_ s with
  | Some _ => set_output None [Close] s
  | None => s
  end.

(** [output_.open(get_filename(), std::ios::binary)], on a stream that is
    not open. *)
Definition open_output (s : Logger) : Logger :=
  let filename := get_filename s in
  let ok := can_open filename in
  set_output (if ok then Some filename else None) [Open filename ok] s.

(** [StreamLoggerAlgorithm::enable]: the logger and whether
    [std::runtime_error] is thrown. *)
Definition enable (state reset_ts : bool) (split_time_seconds : Z) (s : Logger)
  : Logger * bool :=
  let split_enabled := negb (split_time_seconds =? InvalidTimestamp) in
  let s :=
    if split_enabled then
      let previously_enabled := negb (split_timestamp_secs_ s =? InvalidTimestamp) in
      let s := if negb previously_enabled then set_split_counter_ 0 s else s in
      set_split split_time_seconds (Int.wrap_s64 (split_time_seconds * 1000000)) s
    else s in
  if Bool.eqb (enable_ s) state then (s, false)
  else
    let s := set_initial_timestamp_ 0 (set_enable_ state s) in
    if enable_ s then
      let s := open_output (close_if_open s) in
      match output_ s with
      | None => (s, true)
      | Some _ =>
          let s := set_header_written_ false s in
          (set_initial_timestamp_ (if reset_ts then last_timestamp_ s else 0) s, false)
      end
    else (close_if_open s, false).

(** [StreamLoggerAlgorithm::is_enable] *)
Definition is_enable (s : Logger) : bool := enable_ s.

(** [StreamLoggerAlgorithm::get_split_time_seconds] *)
Definition get_split_time_seconds (s : Logger) : Z := split_timestamp_secs_ s.

(** [StreamLoggerAlgorithm::change_destination] *)
Definition change_destination (filename : string) (reset_ts : bool) (s : Logger)
  : Logger * bool :=
  let previous_state := enable_ s in
  let s := if enable_ s then (enable false true InvalidTimestamp s).1 else s in
  let s := set_split_counter_ 0 (set_filename filename s) in
  enable previous_state reset_ts (split_timestamp_secs_ s) s.

(** [StreamLoggerAlgorithm::close]: [output_.close()], which closes nothing
    when the stream is not open (it only sets the fail bit of the stream,
    which the next successful [open] clears). *)
Definition close (s : Logger) : Logger := close_if_open s.

(** [StreamLoggerAlgorithm::split_file] *)
Definition split_file (ts : Z) (s : Logger) : Logger :=
  if negb (split_timestamp_us_ s =? InvalidTimestamp) &&
     (split_timestamp_us_ s <=? Int.wrap_s64 (ts - initial_timestamp_ s)) then
    let s := set_split_counter_ (Int.wrap64 (split_counter_ s + 1)) s in
    let s := set_last_timestamp_ ts s in
    let s := open_output (close_if_open s) in
    let s := set_header_written_ false s in
    set_initial_timestamp_ (last_timestamp_ s) s
  else s.

(** The loop of [process_events]: the events laid out in the buffer, and
    [last_timestamp_]. *)
Definition copy_events (events : list Event) (s : Logger) : list Event * Logger :=
  foldl (fun '(written, s) ev =>
           if initial_timestamp_ s <=? t ev then
             (written ++ [ev], set_last_timestamp_ (t ev) s)
           else (written, s))
        ([], s) events.

(** [StreamLoggerAlgorithm::process_events] *)
Definition process_events (events : list Event) (ts : Z) (s : Logger) : Logger :=
  let size := length events in
  let s :=
    if (0 <? Z.of_nat size) && enable_ s && bool_decide (is_Some (output_ s)) then
      let s :=
        if negb (header_written_ s) then
          set_header_written_ true
            (set_output (output_ s) [WriteHeader (width_ s) (height_ s)] s)
        else s in
      let '(written, s) := copy_events events s in
      let s := set_output (output_ s) [Write (initial_timestamp_ s) written] s in
      split_file ts s
    else s in
  set_last_timestamp_ ts s.

(** The calls that a user of the logger makes. *)
Inductive Call :=
| CallEnable (state reset_ts : bool) (split_time_seconds : Z)
| CallChangeDestination (filename : string) (reset_ts : bool)
| CallProcessEvents (events : list Event) (ts : Z)
| CallClose.

(** The logger after a call, whether the call has thrown or not. *)
Definition call (s : Logger) (c : Call) : Logger :=
  match c with
  | CallEnable state reset_ts split_time_seconds =>
      (enable state reset_ts split_time_seconds s).1
  | CallChangeDestination filename reset_ts =>
      (change_destination filename reset_ts s).1
  | CallProcessEvents events ts => process_events events ts s
  | CallClose => close s
  end.

Definition calls (cs : list Call) (s : Logger) : Logger := foldl call s cs.

End Files.

(** *** What a sound use of the files looks like *)

(** The stream: closed, open on a file without a header yet, or open on a
    file that has its header. *)
Inductive FileState := Closed | Fresh | Headed.

(** Whether a sequence of operations, from a state of the stream, opens
    only a closed stream, closes only an open one, writes one header
    first into each file it has opened, and events only after it. *)
Fixpoint files_ok (st : FileState) (l : list FileOp) : bool :=
  match l with
  | [] => true
  | op :: l =>
      match op, st with
      | Open _ ok, Closed => files_ok (if ok then Fresh else Closed) l
      | Close, (Fresh | Headed) => files_ok Closed l
      | WriteHeader _ _, Fresh => files_ok Headed l
      | Write _ _, Headed => files_ok Headed l
      | _, _ => false
      end
  end.

(** The state of the stream after a sequence of operations. *)
Definition file_state_after (st : FileState) (l : list FileOp) : FileState :=
  foldl (fun st op =>
           match op with
           | Open _ ok => if ok then Fresh else Closed
           | Close => Closed
           | WriteHeader _ _ => Headed
           | Write _ _ => st
           end) st l.

(** The state of the stream, from the members of the logger. *)
Definition file_state (s : Logger) : FileState :=
  match output_ s with
  | None => Closed
  | Some _ => if header_written_ s then Headed else Fresh
  end.

(** The names of the files opened, in order. *)
Definition opened (l : list FileOp) : list string :=
  omap (fun op => match op with Open filename _ => Some filename | _ => None end) l.

(** The events written, with the origin each was written against. *)
Definition written (l : list FileOp) : list (Z * Event) :=
  l ≫= (fun op => match op with
                  | Write origin events => (fun ev => (origin, ev)) <$> events
                  | _ => []
                  end).

(** The trace of the logger is sound, and tells the state of its stream. *)
Definition Sound (s : Logger) : Prop :=
  files_ok Closed (ops s) = true /\ file_state_after Closed (ops s) = file_state s.

(** The name of the [k]-th file of a recording that is split. *)
Definition split_name (base ext : string) (k : Z) : string :=
  base +:+ "_" +:+ pad4 (pretty k) +:+ ext.

(** The calls of a recording: the logger is enabled, then given buffers. *)
Definition recording (reset_ts : bool) (split_time_seconds : Z)
    (buffers : list (list Event * Z)) : list Call :=
  CallEnable true reset_ts split_time_seconds ::
  ((fun b => CallProcessEvents b.1 b.2) <$> buffers).

(** No event is written against an origin that is after it. *)
Definition from_origin (l : list FileOp) : Prop :=
  Forall (fun w => w.1 <= t w.2) (written l).

(** A logger on [rec.dat] for a sensor of 640 by 480 pixels. *)
Definition sample_logger : Logger :=
  StreamLoggerAlgorithm (fun _ => "rec") (fun _ => ".dat") "rec.dat" 640 480.

Definition sample_events : list Event :=
  [ {| t := 5; body := 1 |}; {| t := 12; body := 2 |}; {| t := 20; body := 3 |} ].

(** A file system in which nothing can be opened for writing. *)
Definition read_only (filename : string) : bool := false.

End StreamLogger.

(** * Properties *)

Module IntFacts.
Import Int.

Lemma wrap32_small x : 0 <= x < 2 ^ 32 -> wrap32 x = x.
Proof. intros H. unfold wrap32. now apply Z.mod_small. Qed.

Lemma wrap64_small x : 0 <= x < 2 ^ 64 -> wrap64 x = x.
Proof. intros H. unfold wrap64. now apply Z.mod_small. Qed.

Lemma wrap_s64_small x : - 2 ^ 63 <= x < 2 ^ 63 -> wrap_s64 x = x.
Proof.
  intros H. unfold wrap_s64. rewrite Z.mod_small; lia.
Qed.

Lemma to_double_small x : Z.abs x <= 2 ^ 53 -> to_double x = x.
Proof.
  intros H. unfold to_double.
  destruct (Z.ltb_spec (Z.abs x) (2 ^ 53)) as [Hlt | Hge]; [reflexivity |].
  assert (Ha : Z.abs x = 2 ^ 53) by lia.
  rewrite Ha.
  change (Z.log2 (2 ^ 53) - 52) with 1.
  change (2 ^ 53 / 2 ^ 1) with (2 ^ 52).
  change (2 ^ 53 mod 2 ^ 1) with 0.
  change (2 ^ (1 - 1)) with 1.
  change (0 <? 1) with true. cbv beta iota zeta.
  change (2 ^ 52 * 2 ^ 1) with (2 ^ 53).
  rewrite <- Ha. rewrite Z.mul_comm. apply Z.abs_sgn.
Qed.

End IntFacts.

Module CameraGenerationSpec.
Import CameraGeneration.

Lemma eq_spec a c : op_eq a c = true <-> major_ a = major_ c /\ minor_ a = minor_ c.
Proof. unfold op_eq. rewrite andb_true_iff, !Z.eqb_eq. tauto. Qed.

Lemma lt_spec a c : op_lt a c = true <-> lex_lt a c.
Proof.
  unfold op_lt, lex_lt.
  rewrite orb_true_iff, andb_true_iff, !Z.ltb_lt, Z.eqb_eq. tauto.
Qed.

Lemma ne_spec a c :
  op_ne a c = true <-> ~ (major_ a = major_ c /\ minor_ a = minor_ c).
Proof.
  unfold op_ne. rewrite negb_true_iff, <- eq_spec. symmetry.
  apply not_true_iff_false.
Qed.

Example generation_3_1_before_4_0 :
  op_lt {| major_ := 3; minor_ := 1 |} {| major_ := 4; minor_ := 0 |} = true /\
  op_ge {| major_ := 3; minor_ := 1 |} {| major_ := 4; minor_ := 0 |} = false /\
  op_le {| major_ := 4; minor_ := 0 |} {| major_ := 4; minor_ := 0 |} = true.
Proof. repeat split. Qed.

(** C10: the comparison operators of CameraGeneration are the strict
    lexicographic order on the (major version, minor version) pair:
    [==] holds iff both components are equal, [<] iff the major is smaller or
    the majors are equal and the minor is smaller, [<=] iff [<] or [==],
    [>] iff not [<=], [>=] iff [>] or [==], [!=] iff not [==]; and exactly
    one of [<], [==], [>] holds. *)
Theorem comparison_operators_lexicographic (a b : Private) :
  (op_eq a b = true <-> major_ a = major_ b /\ minor_ a = minor_ b) /\
  (op_ne a b = true <-> ~ (major_ a = major_ b /\ minor_ a = minor_ b)) /\
  (op_lt a b = true <->
     major_ a < major_ b \/ (major_ a = major_ b /\ minor_ a < minor_ b)) /\
  (op_le a b = true <-> op_lt a b = true \/ op_eq a b = true) /\
  (op_gt a b = true <-> ~ op_le a b = true) /\
  (op_ge a b = true <-> op_gt a b = true \/ op_eq a b = true) /\
  ((op_lt a b = true /\ op_eq a b = false /\ op_gt a b = false) \/
   (op_lt a b = false /\ op_eq a b = true /\ op_gt a b = false) \/
   (op_lt a b = false /\ op_eq a b = false /\ op_gt a b = true)).
Proof.
  split; [apply eq_spec |].
  split; [apply ne_spec |].
  split; [apply lt_spec |].
  split; [unfold op_le; rewrite orb_true_iff; tauto |].
  split; [unfold op_gt; rewrite negb_true_iff; symmetry; apply not_true_iff_false |].
  split; [unfold op_ge; rewrite orb_true_iff; tauto |].
  unfold op_gt, op_le, op_lt, op_eq.
  destruct (Z.ltb_spec (major_ a) (major_ b));
    destruct (Z.eqb_spec (major_ a) (major_ b));
    destruct (Z.ltb_spec (minor_ a) (minor_ b));
    destruct (Z.eqb_spec (minor_ a) (minor_ b));
    cbn; try lia; tauto.
Qed.

Lemma le_spec a c : op_le a c = true <-> lex_lt a c \/ (major_ a = major_ c /\ minor_ a = minor_ c).
Proof. unfold op_le. rewrite orb_true_iff, eq_spec, lt_spec. tauto. Qed.

Lemma gt_spec a c : op_gt a c = true <-> lex_lt c a.
Proof.
  unfold op_gt. rewrite negb_true_iff, <- not_true_iff_false, le_spec.
  unfold lex_lt. lia.
Qed.

Lemma ge_spec a c : op_ge a c = true <-> lex_lt c a \/ (major_ a = major_ c /\ minor_ a = minor_ c).
Proof. unfold op_ge. rewrite orb_true_iff, eq_spec, gt_spec. tauto. Qed.

(** X1: the six comparison operators of [CameraGeneration] make up a total
    order: [<] is irreflexive and transitive, any two generations are
    related by [<=] one way or the other, [<=] both ways means [==],
    [<=] is transitive, [a > b] is [b < a], [a >= b] is [b <= a], [==] is
    symmetric and [!=] is its negation. *)
Theorem comparison_operators_total_order (a b c : Private) :
  op_lt a a = false /\
  (op_lt a b = true -> op_lt b c = true -> op_lt a c = true) /\
  (op_le a b = true \/ op_le b a = true) /\
  (op_le a b = true -> op_le b a = true -> op_eq a b = true) /\
  (op_le a b = true -> op_le b c = true -> op_le a c = true) /\
  op_gt a b = op_lt b a /\
  op_ge a b = op_le b a /\
  op_eq a b = op_eq b a /\
  op_ne a b = negb (op_eq a b).
Proof.
  split; [apply not_true_iff_false; rewrite lt_spec; unfold lex_lt; lia |].
  split; [rewrite !lt_spec; unfold lex_lt; lia |].
  split; [rewrite !le_spec; unfold lex_lt; lia |].
  split; [rewrite !le_spec, eq_spec; unfold lex_lt; lia |].
  split; [rewrite !le_spec; unfold lex_lt; lia |].
  split; [apply eq_true_iff_eq; rewrite gt_spec, lt_spec; tauto |].
  split; [apply eq_true_iff_eq; rewrite ge_spec, le_spec; unfold lex_lt; lia |].
  split; [apply eq_true_iff_eq; rewrite !eq_spec; lia | reflexivity].
Qed.

End CameraGenerationSpec.
Module CameraSpec.
Import Camera.

(** *** The status-change callbacks *)

Lemma map_entries_perm (m : gmap CallbackId Handler) :
  map_entries m ≡ₚ map_to_list m.
Proof. apply merge_sort_Permutation. Qed.

Lemma map_entries_keys_NoDup (m : gmap CallbackId Handler) :
  NoDup (map_entries m).*1.
Proof.
  rewrite (map_entries_perm m). apply NoDup_fst_map_to_list.
Qed.

Lemma map_entries_keys_registered (m : gmap CallbackId Handler) (id : CallbackId) :
  id ∈ (map_entries m).*1 <-> is_Some (m !! id).
Proof.
  rewrite (map_entries_perm m), list_elem_of_fmap. split.
  - intros [[k h] [-> Hin]]. apply elem_of_map_to_list in Hin. eauto.
  - intros [h Hh]. exists (id, h). split; [reflexivity |].
    now apply elem_of_map_to_list.
Qed.

Lemma set_is_running_same (b : bool) (c : Private) :
  is_running_ c = b -> set_is_running b c = c.
Proof.
  intros <-. unfold set_is_running. now rewrite eqb_reflx.
Qed.

Lemma set_is_running_edge (b : bool) (c : Private) :
  is_running_ c <> b ->
  set_is_running b c =
  emit ((fun id => EvStatusChange id (status_of b))
          <$> (map_entries (status_change_callback_map_ c)).*1)
       (set_is_running_ b c).
Proof.
  intros Hne. unfold set_is_running.
  destruct (Bool.eqb (is_running_ c) b) eqn:E.
  - apply eqb_prop in E. contradiction.
  - cbn. f_equal. now rewrite <- list_fmap_compose.
Qed.

Lemma set_is_running_value (b : bool) (c : Private) :
  is_running_ (set_is_running b c) = b.
Proof.
  destruct (bool_decide (is_running_ c = b)) eqn:E.
  - apply bool_decide_eq_true in E. now rewrite set_is_running_same.
  - apply bool_decide_eq_false in E. now rewrite set_is_running_edge.
Qed.

(** A call of [set_is_running b] that no other call overlaps leaves
    [is_running_] equal to [b]; called with the value [is_running_] already
    holds it changes nothing and invokes no callback; on an actual
    transition it invokes every registered status-change callback exactly
    once (no identifier twice, and exactly the registered identifiers),
    each with STARTED on the false-to-true edge and STOPPED on the
    true-to-false edge, and invokes nothing else. *)
Theorem set_is_running_fires_on_edges_only (b : bool) (c : Private) :
  is_running_ (set_is_running b c) = b /\
  (is_running_ c = b -> set_is_running b c = c) /\
  (is_running_ c <> b ->
   exists ids : list CallbackId,
     trace (set_is_running b c) =
       trace c ++
       ((fun id => EvStatusChange id
                     (if b then CameraStatus.STARTED else CameraStatus.STOPPED))
          <$> ids) /\
     NoDup ids /\
     (forall id, id ∈ ids <-> is_Some (status_change_callback_map_ c !! id))).
Proof.
  split; [apply set_is_running_value |].
  split; [apply set_is_running_same |].
  intros Hne.
  exists (map_entries (status_change_callback_map_ c)).*1.
  split; [| split].
  - now rewrite set_is_running_edge.
  - apply map_entries_keys_NoDup.
  - intros id. apply map_entries_keys_registered.
Qed.

Lemma set_is_running_fires_on_edges_only_witness :
  is_running_ sample_live <> true /\
  exists ids : list CallbackId,
    trace (set_is_running true sample_live) =
      trace sample_live ++
      ((fun id => EvStatusChange id CameraStatus.STARTED) <$> ids) /\
    NoDup ids /\
    (forall id, id ∈ ids <->
                is_Some (status_change_callback_map_ sample_live !! id)).
Proof.
  assert (H : is_running_ sample_live <> true) by discriminate.
  split; [exact H |].
  exact (proj2 (proj2 (set_is_running_fires_on_edges_only true sample_live)) H).
Defined.

(** *** Decoding before the raw-buffer callbacks *)

Lemma pace_trace cur_ts cur_ts_clock c :
  trace (pace cur_ts cur_ts_clock c) = trace c ++ sleep_of cur_ts cur_ts_clock c.
Proof.
  unfold pace, sleep_of.
  destruct (cur_ts_clock <? expected_ts cur_ts c); cbn;
    [reflexivity | now rewrite app_nil_r].
Qed.

Lemma anchor_clocks_trace cur_ts cur_ts_clock c :
  trace (anchor_clocks cur_ts cur_ts_clock c) = trace c.
Proof. unfold anchor_clocks. now destruct (_ && _). Qed.

Lemma emulate_body_trace ev_buffer ev_buffer_end e c :
  let r := emulate_body ev_buffer ev_buffer_end e c in
  trace r.2 =
    trace c ++ [EvDecode ev_buffer (ev_buffer + r.1)]
            ++ ((fun cb => EvRawData cb ev_buffer r.1) <$> raw_data_cbs c)
            ++ sleep_of (Int.wrap_s64 (env_timestamp e)) (Int.wrap64 (env_clock e))
                        (anchored ev_buffer ev_buffer_end e c).
Proof.
  cbn zeta. unfold emulate_body. cbn [fst snd].
  rewrite pace_trace, anchor_clocks_trace. cbn.
  now rewrite <- !app_assoc.
Qed.

Lemma emulate_body_bytes ev_buffer ev_buffer_end e c :
  (emulate_body ev_buffer ev_buffer_end e c).1 =
  Z.min (Int.wrap32 (ev_buffer_end - ev_buffer)) (bytes_step_to_decode c).
Proof. reflexivity. Qed.

Lemma emulate_body_frame ev_buffer ev_buffer_end e c :
  let c' := (emulate_body ev_buffer ev_buffer_end e c).2 in
  is_running_ c' = is_running_ c /\
  raw_event_size_bytes c' = raw_event_size_bytes c /\
  raw_data_cbs c' = raw_data_cbs c /\
  last_timestamp c' = Int.wrap_s64 (env_timestamp e).
Proof.
  cbn zeta. unfold emulate_body, pace, anchor_clocks. cbn [fst snd].
  repeat match goal with |- context [if ?b then _ else _] => destruct b end;
    cbn; auto.
Qed.


Lemma new_events_app (c c' : Private) (t : list Event) :
  trace c' = trace c ++ t -> new_events c c' = t.
Proof. intros H. unfold new_events. rewrite H. apply drop_app_length. Qed.

Lemma sleep_of_only_sleeps cur_ts cur_ts_clock c ev :
  ev ∈ sleep_of cur_ts cur_ts_clock c -> exists us, ev = EvSleep us.
Proof.
  unfold sleep_of. destruct (_ <? _); intros H.
  - apply list_elem_of_singleton in H. eauto.
  - now apply elem_of_nil in H.
Qed.

Lemma process_buffer_trace ev_buffer n_rawbytes e c :
  trace (process_buffer ev_buffer n_rawbytes e c) =
    trace c ++
    (if decide (decode_callback_tag_count c = 0) then []
     else [EvDecode ev_buffer (ev_buffer + n_rawbytes)]) ++
    ((fun cb => EvRawData cb ev_buffer n_rawbytes) <$> raw_data_cbs c).
Proof.
  unfold process_buffer.
  destruct (Z.eqb_spec (decode_callback_tag_count c) 0) as [E | E];
    destruct (decide _) as [D | D]; try contradiction; cbn.
  - reflexivity.
  - now rewrite <- app_assoc.
Qed.

(** C4: for a buffer polled by the main loop, the non-emulated path calls
    the decoder on the whole buffer exactly when the count of
    decode-triggering callbacks is not zero, and calls every raw-buffer
    callback with that same range only afterwards; for a sub-buffer, the
    emulator always calls the decoder on it first and then every raw-buffer
    callback with the same range, followed by nothing but its sleep. *)
Theorem decode_completes_before_raw_callbacks
  (ev_buffer n_rawbytes ev_buffer_end : Z) (e : Env) (c : Private) :
  new_events c (process_buffer ev_buffer n_rawbytes e c) =
    (if decide (decode_callback_tag_count c = 0) then []
     else [EvDecode ev_buffer (ev_buffer + n_rawbytes)]) ++
    ((fun cb => EvRawData cb ev_buffer n_rawbytes) <$> raw_data_cbs c) /\
  exists pause : list Event,
    new_events c (emulate_body ev_buffer ev_buffer_end e c).2 =
      [EvDecode ev_buffer
                (ev_buffer + (emulate_body ev_buffer ev_buffer_end e c).1)] ++
      ((fun cb => EvRawData cb ev_buffer
                            (emulate_body ev_buffer ev_buffer_end e c).1)
         <$> raw_data_cbs c) ++
      pause /\
    Forall (fun ev => exists us, ev = EvSleep us) pause.
Proof.
  split.
  - apply new_events_app, process_buffer_trace.
  - eexists. split.
    + apply new_events_app, emulate_body_trace.
    + apply Forall_forall. intros ev. apply sleep_of_only_sleeps.
Qed.

(** *** The sub-buffers of the emulator *)

(** 10000 bytes of 4-byte events: two sub-buffers of 1024 events and the
    remaining 452 events. *)
Example emulate_real_time_10000_bytes :
  decoded_ranges
    (trace (state_of (emulate_real_time
                        [sample_env 10 1000; sample_env 20 1010; sample_env 30 1020]
                        4096 10000 sample_replay)))
  = [(4096, 8192); (8192, 12288); (12288, 14096)].
Proof. reflexivity. Qed.

Lemma decoded_ranges_app t1 t2 :
  decoded_ranges (t1 ++ t2) = decoded_ranges t1 ++ decoded_ranges t2.
Proof. apply omap_app. Qed.

Lemma decoded_ranges_raw_data b n (cbs : list CallbackId) :
  decoded_ranges ((fun cb => EvRawData cb b n) <$> cbs) = [].
Proof. induction cbs as [| cb cbs IH]; [reflexivity | exact IH]. Qed.

Lemma decoded_ranges_sleep_of cur_ts cur_ts_clock c :
  decoded_ranges (sleep_of cur_ts cur_ts_clock c) = [].
Proof. unfold sleep_of. now destruct (_ <? _). Qed.

Lemma emulate_body_decoded ev_buffer ev_buffer_end e c :
  let r := emulate_body ev_buffer ev_buffer_end e c in
  decoded_ranges (trace r.2) =
  decoded_ranges (trace c) ++ [(ev_buffer, ev_buffer + r.1)].
Proof.
  cbn zeta. rewrite emulate_body_trace, !decoded_ranges_app.
  rewrite decoded_ranges_raw_data, decoded_ranges_sleep_of. reflexivity.
Qed.

Lemma bytes_step_to_decode_frame ev_buffer ev_buffer_end e c :
  bytes_step_to_decode (emulate_body ev_buffer ev_buffer_end e c).2 =
  bytes_step_to_decode c.
Proof.
  unfold bytes_step_to_decode.
  now destruct (emulate_body_frame ev_buffer ev_buffer_end e c) as (_ & -> & _).
Qed.

Lemma bytes_step_to_decode_min c : 128 <= bytes_step_to_decode c.
Proof. unfold bytes_step_to_decode, min_events_per_buffer_to_decode. lia. Qed.

Lemma bytes_step_to_decode_in_range c :
  0 <= raw_event_size_bytes c < 2 ^ 22 ->
  bytes_step_to_decode c = Z.max 128 (1024 * raw_event_size_bytes c).
Proof.
  intros H. unfold bytes_step_to_decode, min_events_per_buffer_to_decode,
    events_per_buffer_to_decode.
  rewrite (IntFacts.wrap32_small 1024) by lia.
  rewrite IntFacts.wrap32_small by lia. f_equal. lia.
Qed.

Lemma sub_buffer_sizes_zero step : 0 < step -> sub_buffer_sizes 0 step = [].
Proof.
  intros H. unfold sub_buffer_sizes.
  rewrite Z.div_0_l, Z.mod_0_l by lia. reflexivity.
Qed.

Lemma sub_buffer_sizes_short n step :
  0 < n < step -> sub_buffer_sizes n step = [n].
Proof.
  intros H. unfold sub_buffer_sizes.
  rewrite Z.div_small, Z.mod_small by lia.
  destruct (Z.eqb_spec n 0); [lia | reflexivity].
Qed.

Lemma sub_buffer_sizes_full n step :
  0 < step <= n ->
  sub_buffer_sizes n step = step :: sub_buffer_sizes (n - step) step.
Proof.
  intros H. unfold sub_buffer_sizes.
  assert (Hd : n / step = (n - step) / step + 1).
  { replace n with ((n - step) + 1 * step) at 1 by lia.
    rewrite Z.div_add by lia. reflexivity. }
  assert (Hm : n mod step = (n - step) mod step).
  { replace n with ((n - step) + 1 * step) at 1 by lia.
    now rewrite Z.mod_add by lia. }
  rewrite Hd, Hm.
  assert (0 <= (n - step) / step) by (apply Z.div_pos; lia).
  rewrite Z2Nat.inj_add by lia. rewrite Nat.add_comm. reflexivity.
Qed.

(** A buffer shorter than 4 GiB, with the thread left running, is decoded
    to its end in consecutive sub-buffers of [bytes_step_to_decode] bytes and
    a shorter remainder. *)
Lemma emulate_loop_sub_buffers (envs : list Env) :
  forall (ev_buffer ev_buffer_end : Z) (c : Private),
    is_running_ c = true ->
    0 <= ev_buffer_end - ev_buffer < 2 ^ 32 ->
    (length (sub_buffer_sizes (ev_buffer_end - ev_buffer) (bytes_step_to_decode c))
       <= length envs)%nat ->
    exists c',
      emulate_loop envs ev_buffer ev_buffer_end c = Finished c' /\
      decoded_ranges (trace c') =
        decoded_ranges (trace c) ++
        consecutive ev_buffer
          (sub_buffer_sizes (ev_buffer_end - ev_buffer) (bytes_step_to_decode c)).
Proof.
  induction envs as [| e envs IH]; intros ev_buffer ev_buffer_end c Hrun Hn Hlen;
    pose proof (bytes_step_to_decode_min c) as Hstep;
    cbn [emulate_loop]; rewrite Hrun, andb_true_r;
    (destruct (Z.ltb_spec ev_buffer ev_buffer_end) as [Hlt | Hge];
     [| exists c; split; [reflexivity |];
        replace (ev_buffer_end - ev_buffer) with 0 by lia;
        rewrite sub_buffer_sizes_zero by lia; now rewrite app_nil_r]).
  - exfalso.
    destruct (Z.le_gt_cases (bytes_step_to_decode c) (ev_buffer_end - ev_buffer)).
    + rewrite sub_buffer_sizes_full in Hlen by lia. cbn in Hlen. lia.
    + rewrite sub_buffer_sizes_short in Hlen by lia. cbn in Hlen. lia.
  - pose proof (emulate_body_frame ev_buffer ev_buffer_end e c) as (Hr & _).
    pose proof (emulate_body_decoded ev_buffer ev_buffer_end e c) as Hdec.
    pose proof (bytes_step_to_decode_frame ev_buffer ev_buffer_end e c) as Hst.
    pose proof (emulate_body_bytes ev_buffer ev_buffer_end e c) as Hb.
    cbn zeta in Hr, Hdec.
    rewrite IntFacts.wrap32_small in Hb by lia.
    set (r := emulate_body ev_buffer ev_buffer_end e c) in *.
    destruct (Z.le_gt_cases (bytes_step_to_decode c) (ev_buffer_end - ev_buffer))
      as [Hfull | Hshort].
    + rewrite Z.min_r in Hb by lia.
      rewrite (sub_buffer_sizes_full (ev_buffer_end - ev_buffer)) in Hlen |- *
        by lia.
      destruct (IH (ev_buffer + r.1) ev_buffer_end r.2) as (c' & Hc' & Ht).
      { now rewrite Hr. }
      { lia. }
      { rewrite Hst, Hb.
        replace (ev_buffer_end - (ev_buffer + bytes_step_to_decode c))
          with (ev_buffer_end - ev_buffer - bytes_step_to_decode c) by lia.
        cbn [length] in Hlen. lia. }
      exists c'. split; [exact Hc' |].
      rewrite Ht, Hdec, Hst, Hb, <- app_assoc.
      cbn [consecutive app].
      replace (ev_buffer_end - (ev_buffer + bytes_step_to_decode c))
        with (ev_buffer_end - ev_buffer - bytes_step_to_decode c) by lia.
      reflexivity.
    + rewrite Z.min_l in Hb by lia.
      destruct (IH (ev_buffer + r.1) ev_buffer_end r.2) as (c' & Hc' & Ht).
      { now rewrite Hr. }
      { lia. }
      { rewrite Hb, Hst.
        replace (ev_buffer_end - (ev_buffer + (ev_buffer_end - ev_buffer)))
          with 0 by lia.
        rewrite sub_buffer_sizes_zero by lia. cbn. lia. }
      exists c'. split; [exact Hc' |].
      rewrite Ht, Hdec, Hst, Hb, <- app_assoc.
      replace (ev_buffer_end - (ev_buffer + (ev_buffer_end - ev_buffer)))
        with 0 by lia.
      rewrite sub_buffer_sizes_zero by lia.
      rewrite (sub_buffer_sizes_short (ev_buffer_end - ev_buffer)) by lia.
      reflexivity.
Qed.

Lemma emulate_body_extends ev_buffer ev_buffer_end e c :
  exists t, trace (emulate_body ev_buffer ev_buffer_end e c).2 = trace c ++ t.
Proof. eexists. apply emulate_body_trace. Qed.

Lemma emulate_loop_extends (envs : list Env) :
  forall ev_buffer ev_buffer_end c,
    exists t,
      trace (state_of (emulate_loop envs ev_buffer ev_buffer_end c)) = trace c ++ t.
Proof.
  induction envs as [| e envs IH]; intros ev_buffer ev_buffer_end c;
    cbn [emulate_loop]; destruct (_ && _); cbn [state_of];
    try (exists []; now rewrite app_nil_r).
  destruct (emulate_body_extends ev_buffer ev_buffer_end e c) as [t1 H1].
  destruct (IH (ev_buffer + (emulate_body ev_buffer ev_buffer_end e c).1)
              ev_buffer_end (emulate_body ev_buffer ev_buffer_end e c).2)
    as [t2 H2].
  exists (t1 ++ t2). now rewrite H2, H1, app_assoc.
Qed.

Lemma decoded_ranges_new_events c c' (l : list (Z * Z)) :
  (exists t, trace c' = trace c ++ t) ->
  decoded_ranges (trace c') = decoded_ranges (trace c) ++ l ->
  decoded_ranges (new_events c c') = l.
Proof.
  intros [t Ht] H. rewrite (new_events_app c c' t Ht).
  rewrite Ht, decoded_ranges_app in H. now apply app_inv_head in H.
Qed.

(** With a raw event size [s] below 2^22 bytes, a buffer of [n < 2^32]
    bytes is consumed in consecutive sub-buffers of [max(128, 1024 * s)]
    bytes and a shorter remainder. *)
Lemma emulate_real_time_sub_buffers
  (envs : list Env) (ev_buffer n_rawbytes : Z) (c : Private) :
  is_running_ c = true ->
  0 <= n_rawbytes < 2 ^ 32 ->
  0 <= raw_event_size_bytes c < 2 ^ 22 ->
  (length (sub_buffer_sizes n_rawbytes (Z.max 128 (1024 * raw_event_size_bytes c)))
     <= length envs)%nat ->
  exists c',
    emulate_real_time envs ev_buffer n_rawbytes c = Finished c' /\
    decoded_ranges (new_events c c') =
      consecutive ev_buffer
        (sub_buffer_sizes n_rawbytes (Z.max 128 (1024 * raw_event_size_bytes c))).
Proof.
  intros Hrun Hn Hs Hlen. unfold emulate_real_time.
  rewrite <- bytes_step_to_decode_in_range in * by assumption.
  destruct (emulate_loop_sub_buffers envs ev_buffer (ev_buffer + n_rawbytes) c)
    as (c' & Hc' & Ht); try assumption.
  - lia.
  - now replace (ev_buffer + n_rawbytes - ev_buffer) with n_rawbytes by lia.
  - exists c'. split; [exact Hc' |].
    replace (ev_buffer + n_rawbytes - ev_buffer) with n_rawbytes in Ht by lia.
    apply decoded_ranges_new_events; [| exact Ht].
    pose proof (emulate_loop_extends envs ev_buffer (ev_buffer + n_rawbytes) c) as He.
    now rewrite Hc' in He.
Qed.

Lemma emulate_loop_4GiB (envs : list Env) :
  forall (ev_buffer : Z) (c : Private),
    is_running_ c = true ->
    exists c',
      emulate_loop envs ev_buffer (ev_buffer + 2 ^ 32) c = OutOfObservations c' /\
      decoded_ranges (trace c') =
        decoded_ranges (trace c) ++ replicate (length envs) (ev_buffer, ev_buffer).
Proof.
  induction envs as [| e envs IH]; intros ev_buffer c Hrun;
    cbn [emulate_loop]; rewrite Hrun, andb_true_r;
    (destruct (Z.ltb_spec ev_buffer (ev_buffer + 2 ^ 32)) as [_ | Hge]; [| lia]).
  - exists c. split; [reflexivity | now rewrite app_nil_r].
  - pose proof (emulate_body_frame ev_buffer (ev_buffer + 2 ^ 32) e c) as (Hr & _).
    pose proof (emulate_body_decoded ev_buffer (ev_buffer + 2 ^ 32) e c) as Hdec.
    pose proof (emulate_body_bytes ev_buffer (ev_buffer + 2 ^ 32) e c) as Hb.
    pose proof (bytes_step_to_decode_min c) as Hstep.
    cbn zeta in Hr, Hdec.
    replace (ev_buffer + 2 ^ 32 - ev_buffer) with (2 ^ 32) in Hb by lia.
    change (Int.wrap32 (2 ^ 32)) with 0 in Hb.
    rewrite Z.min_l in Hb by lia.
    set (r := emulate_body ev_buffer (ev_buffer + 2 ^ 32) e c) in *.
    rewrite Hb, Z.add_0_r in *.
    destruct (IH ev_buffer r.2) as (c' & Hc' & Ht); [now rewrite Hr |].
    exists c'. split; [exact Hc' |].
    rewrite Ht, Hdec, <- app_assoc. reflexivity.
Qed.

(** C5, at a buffer of 2^32 bytes: whatever the raw event size, and however
    many iterations are observed, the emulator has not finished, and every
    sub-buffer it has handed to the decoder is the empty range at the start
    of the buffer (its 32-bit count of the remaining bytes is 0). *)
Theorem emulate_real_time_4GiB_never_advances
  (envs : list Env) (ev_buffer : Z) (c : Private) :
  is_running_ c = true ->
  exists c',
    emulate_real_time envs ev_buffer (2 ^ 32) c = OutOfObservations c' /\
    decoded_ranges (new_events c c') =
      replicate (length envs) (ev_buffer, ev_buffer + 0).
Proof.
  intros Hrun. unfold emulate_real_time.
  destruct (emulate_loop_4GiB envs ev_buffer c Hrun) as (c' & Hc' & Ht).
  exists c'. split; [exact Hc' |].
  rewrite Z.add_0_r.
  apply decoded_ranges_new_events; [| exact Ht].
  pose proof (emulate_loop_extends envs ev_buffer (ev_buffer + 2 ^ 32) c) as He.
  now rewrite Hc' in He.
Qed.

Lemma emulate_real_time_4GiB_never_advances_witness :
  is_running_ sample_replay = true /\
  exists c',
    emulate_real_time [sample_env 10 1000; sample_env 20 1010] 4096 (2 ^ 32)
                      sample_replay = OutOfObservations c' /\
    decoded_ranges (new_events sample_replay c') =
      replicate 2 (4096, 4096 + 0).
Proof.
  split; [reflexivity |].
  apply (emulate_real_time_4GiB_never_advances
           [sample_env 10 1000; sample_env 20 1010] 4096 sample_replay).
  reflexivity.
Defined.

(** *** The timing anchors *)

Lemma anchors_emulate_body ev_buffer ev_buffer_end e c :
  anchors (emulate_body ev_buffer ev_buffer_end e c).2 =
  anchors (anchor_clocks (Int.wrap_s64 (env_timestamp e))
                         (Int.wrap64 (env_clock e)) c).
Proof.
  unfold emulate_body, pace, anchor_clocks, anchors. cbn [fst snd].
  repeat match goal with |- context [if ?b then _ else _] => destruct b eqn:? end;
    cbn in *; congruence.
Qed.

Lemma anchor_clocks_anchored cur_ts cur_ts_clock c :
  first_ts_clock_ c <> 0 -> anchor_clocks cur_ts cur_ts_clock c = c.
Proof.
  intros H. unfold anchor_clocks.
  destruct (Z.eqb_spec (first_ts_clock_ c) 0); [contradiction | reflexivity].
Qed.

Lemma run_sub_buffers_anchored (subs : list SubBuffer) :
  forall c, first_ts_clock_ c <> 0 ->
            anchors (run_sub_buffers subs c) = anchors c.
Proof.
  induction subs as [| s subs IH]; intros c H; [reflexivity |].
  cbn [run_sub_buffers foldl].
  pose proof (anchors_emulate_body s.1.1 s.1.2 s.2 c) as Ha.
  rewrite anchor_clocks_anchored in Ha by assumption.
  unfold run_sub_buffers in IH. rewrite IH; [exact Ha |].
  unfold anchors in Ha. congruence.
Qed.

Lemma anchors_anchor_clocks cur_ts cur_ts_clock c :
  anchors (anchor_clocks cur_ts cur_ts_clock c) =
  if (first_ts_clock_ c =? 0) && negb (cur_ts =? first_ts_ c)
  then (cur_ts, cur_ts_clock) else anchors c.
Proof. unfold anchor_clocks. now destruct (_ && _). Qed.

Lemma run_sub_buffers_unanchored (subs : list SubBuffer) :
  forall c,
    first_ts_clock_ c = 0 ->
    Forall (fun s : SubBuffer => Int.wrap64 (env_clock s.2) <> 0) subs ->
    anchors (run_sub_buffers subs c) =
    default (first_ts_ c, 0) (first_change (first_ts_ c) subs).
Proof.
  induction subs as [| s subs IH]; intros c H0 Hclk.
  - cbn. unfold anchors. now rewrite H0.
  - apply Forall_cons in Hclk as [Hs Hclk].
    cbn [run_sub_buffers foldl first_change first_obs].
    pose proof (anchors_emulate_body s.1.1 s.1.2 s.2 c) as Ha.
    rewrite anchors_anchor_clocks, H0 in Ha. cbn [Z.eqb andb] in Ha.
    remember (emulate_body s.1.1 s.1.2 s.2 c).2 as c1 eqn:Ec1.
    destruct (Z.eqb_spec (Int.wrap_s64 (env_timestamp s.2)) (first_ts_ c))
      as [E | E]; cbn [negb] in Ha |- *; unfold anchors in Ha;
      injection Ha as Ha1 Ha2.
    + unfold run_sub_buffers, first_change in IH.
      rewrite IH by (assumption || congruence). now rewrite Ha1.
    + pose proof (run_sub_buffers_anchored subs c1) as Hk.
      unfold run_sub_buffers in Hk. rewrite Hk by congruence.
      cbn [default]. unfold anchors, id. congruence.
Qed.

Lemma first_obs_app_Some P subs more a :
  first_obs P subs = Some a -> first_obs P (subs ++ more) = Some a.
Proof.
  induction subs as [| s subs IH]; [discriminate |].
  cbn. destruct (P _); auto.
Qed.

(** C6, as the code has it: [init_clocks] resets the anchors to the
    decoder's current timestamp and to wall clock 0; as long as every wall
    clock read is not 0 (the value that stands for "not assigned yet"), the
    anchors after any number of sub-buffers are those read for the first
    sub-buffer whose decoded timestamp differs from the initial one, and
    the initial ones if there is no such sub-buffer; so they are assigned
    at most once and later sub-buffers never reassign them. *)
Theorem anchors_fixed_at_first_change (subs : list SubBuffer) (c : Private) :
  Forall (fun s : SubBuffer => Int.wrap64 (env_clock s.2) <> 0) subs ->
  anchors (init_clocks c) = (last_timestamp c, 0) /\
  anchors (run_sub_buffers subs (init_clocks c)) =
    default (last_timestamp c, 0) (first_change (last_timestamp c) subs) /\
  (forall a more,
     first_change (last_timestamp c) subs = Some a ->
     Forall (fun s : SubBuffer => Int.wrap64 (env_clock s.2) <> 0) more ->
     anchors (run_sub_buffers (subs ++ more) (init_clocks c)) = a).
Proof.
  intros Hclk.
  split; [reflexivity |].
  split.
  - now rewrite run_sub_buffers_unanchored.
  - intros a more Ha Hmore.
    rewrite run_sub_buffers_unanchored; [| reflexivity | now apply Forall_app].
    cbn [init_clocks first_ts_ set_first_ts_ set_first_ts_clock_].
    unfold first_change in *. now rewrite (first_obs_app_Some _ _ more a Ha).
Qed.

Lemma anchors_fixed_at_first_change_witness :
  Forall (fun s : SubBuffer => Int.wrap64 (env_clock s.2) <> 0)
         [(4096, 14096, sample_env 0 1000); (8192, 14096, sample_env 25 1040)] /\
  anchors (run_sub_buffers
             [(4096, 14096, sample_env 0 1000); (8192, 14096, sample_env 25 1040)]
             (init_clocks sample_replay)) = (25, 1040).
Proof.
  assert (H : Forall (fun s : SubBuffer => Int.wrap64 (env_clock s.2) <> 0)
                [(4096, 14096, sample_env 0 1000); (8192, 14096, sample_env 25 1040)]).
  { repeat constructor; discriminate. }
  split; [exact H |].
  exact (proj1 (proj2 (anchors_fixed_at_first_change _ sample_replay H))).
Defined.

(** A decoded timestamp below the initial one fixes the anchors too. *)
Lemma anchors_not_fixed_at_first_increase :
  ~ anchors_fixed_at_first_increase
      [(4096, 14096, sample_env 50 1000)]
      (set_last_timestamp 100 sample_replay).
Proof. unfold anchors_fixed_at_first_increase. vm_compute. discriminate. Qed.

(** *** Pacing *)

Lemma sleeps_app t1 t2 : sleeps (t1 ++ t2) = sleeps t1 ++ sleeps t2.
Proof. apply omap_app. Qed.

Lemma sleeps_raw_data b n (cbs : list CallbackId) :
  sleeps ((fun cb => EvRawData cb b n) <$> cbs) = [].
Proof. induction cbs as [| cb cbs IH]; [reflexivity | exact IH]. Qed.

Lemma pace_frame cur_ts cur_ts_clock c :
  first_ts_ (pace cur_ts cur_ts_clock c) = first_ts_ c /\
  first_ts_clock_ (pace cur_ts cur_ts_clock c) = first_ts_clock_ c /\
  last_timestamp (pace cur_ts cur_ts_clock c) = last_timestamp c.
Proof. unfold pace. now destruct (_ <? _). Qed.

Lemma anchored_last_timestamp ev_buffer ev_buffer_end e c :
  last_timestamp (anchored ev_buffer ev_buffer_end e c) =
  Int.wrap_s64 (env_timestamp e).
Proof. unfold anchored, anchor_clocks. now destruct (_ && _). Qed.

Lemma emulate_body_pace ev_buffer ev_buffer_end e c :
  (emulate_body ev_buffer ev_buffer_end e c).2 =
  pace (Int.wrap_s64 (env_timestamp e)) (Int.wrap64 (env_clock e))
       (anchored ev_buffer ev_buffer_end e c).
Proof. reflexivity. Qed.

Lemma emulate_body_sleeps ev_buffer ev_buffer_end e c :
  sleeps (new_events c (emulate_body ev_buffer ev_buffer_end e c).2) =
  sleeps (sleep_of (Int.wrap_s64 (env_timestamp e)) (Int.wrap64 (env_clock e))
                   (anchored ev_buffer ev_buffer_end e c)).
Proof.
  rewrite (new_events_app _ _ _ (emulate_body_trace ev_buffer ev_buffer_end e c)).
  rewrite !sleeps_app, sleeps_raw_data. reflexivity.
Qed.

(** C7, within the range of the arithmetic: when the decoded time elapsed
    since the anchor is at most 2^53 microseconds in absolute value (so that
    it goes through [double] unchanged), the expected wall-clock time
    [anchor wall clock + elapsed] is a 64-bit unsigned number and less than
    2^63 microseconds ahead of the wall clock read, the iteration sleeps
    exactly [expected - now] microseconds when [now < expected] and does not
    sleep otherwise. *)
Theorem pacing_is_one_to_one_in_range
  (ev_buffer ev_buffer_end : Z) (e : Env) (c : Private) :
  let c' := (emulate_body ev_buffer ev_buffer_end e c).2 in
  let elapsed := last_timestamp c' - first_ts_ c' in
  let expected := first_ts_clock_ c' + elapsed in
  - 2 ^ 53 <= elapsed <= 2 ^ 53 ->
  0 <= expected < 2 ^ 64 ->
  expected - Int.wrap64 (env_clock e) < 2 ^ 63 ->
  paces_one_to_one ev_buffer ev_buffer_end e c.
Proof.
  cbn zeta. intros Hel Hex Hsl. unfold paces_one_to_one. cbn zeta.
  rewrite emulate_body_sleeps.
  rewrite emulate_body_pace in *.
  set (a := anchored ev_buffer ev_buffer_end e c) in *.
  destruct (pace_frame (Int.wrap_s64 (env_timestamp e))
              (Int.wrap64 (env_clock e)) a) as (Hf1 & Hf2 & Hf3).
  rewrite Hf1, Hf2, Hf3 in *.
  pose proof (anchored_last_timestamp ev_buffer ev_buffer_end e c) as Hts.
  fold a in Hts. rewrite Hts in *.
  set (cur_ts := Int.wrap_s64 (env_timestamp e)) in *.
  set (now := Int.wrap64 (env_clock e)) in *.
  assert (Hdiff : diff_ts cur_ts a = cur_ts - first_ts_ a).
  { unfold diff_ts.
    rewrite (IntFacts.wrap_s64_small (cur_ts - first_ts_ a)) by lia.
    rewrite IntFacts.to_double_small by lia.
    apply IntFacts.wrap_s64_small. lia. }
  assert (Hexp : expected_ts cur_ts a = first_ts_clock_ a + (cur_ts - first_ts_ a)).
  { unfold expected_ts. rewrite Hdiff. now apply IntFacts.wrap64_small. }
  unfold sleep_of. rewrite Hexp.
  destruct (Z.ltb_spec now (first_ts_clock_ a + (cur_ts - first_ts_ a)));
    [| reflexivity].
  cbn. rewrite IntFacts.wrap_s64_small by lia. reflexivity.
Qed.

Lemma pacing_is_one_to_one_in_range_witness :
  (- 2 ^ 53 <= 1500 - 1000 <= 2 ^ 53 /\
   0 <= 5000 + (1500 - 1000) < 2 ^ 64 /\
   5000 + (1500 - 1000) - 5200 < 2 ^ 63) /\
  paces_one_to_one 4096 14096 (sample_env 1500 5200)
    (set_first_ts_ 1000 (set_first_ts_clock_ 5000 sample_replay)).
Proof.
  split; [lia |].
  apply (pacing_is_one_to_one_in_range 4096 14096 (sample_env 1500 5200)
           (set_first_ts_ 1000 (set_first_ts_clock_ 5000 sample_replay)));
    vm_compute; intuition discriminate.
Defined.

(** 2^53 + 1 microseconds of decoded time after the anchor, read at the
    wall-clock time of the anchor: the code sleeps 2^53 microseconds. *)
Lemma pacing_not_one_to_one_beyond_double :
  ~ paces_one_to_one 4096 14096 (sample_env (2 ^ 53 + 1) 1000000)
      (set_first_ts_ 0 (set_first_ts_clock_ 1000000 sample_replay)).
Proof. unfold paces_one_to_one. vm_compute. discriminate. Qed.

(** *** Opening a recorded file *)

Example open_raw_file_recording :
  open_raw_file sample_fs (fun _ => Some sample_device) id "rec.raw" true
                (new_session false false 4)
  = (set_emulate_real_time_ true
       (set_from_file_ true
          (emit [EvOpenRawFile "rec.raw"] (new_session false false 4))),
     None).
Proof. reflexivity. Qed.

(** C9: [open_raw_file] makes its three checks in this order, each before
    [DeviceDiscovery::open_raw_file] is called: it throws FileDoesNotExist
    when the path does not exist, NotARegularFile when it exists and is not
    a regular file, WrongExtension when it is a regular file whose extension
    is not ".raw"; the state it leaves is the one it started from (stopped
    first if a thread was running) marked initialized, with nothing added to
    the trace: no device has been opened. *)
Theorem open_raw_file_configuration_errors
  (fs : FileSystem) (discovery : string -> option Device)
  (stopped : Private -> Private)
  (rawfile : string) (reproduce_camera_behavior : bool) (c : Private) :
  let c0 := if is_init_ c && run_thread_ c then stopped c else c in
  let r := open_raw_file fs discovery stopped rawfile reproduce_camera_behavior c in
  (fs_exists fs rawfile = false ->
   r = (set_is_init_ true c0, Some FileDoesNotExist)) /\
  (fs_exists fs rawfile = true -> fs_is_regular_file fs rawfile = false ->
   r = (set_is_init_ true c0, Some NotARegularFile)) /\
  (fs_exists fs rawfile = true -> fs_is_regular_file fs rawfile = true ->
   fs_extension fs rawfile <> ".raw" ->
   r = (set_is_init_ true c0, Some WrongExtension)) /\
  (forall err, err ∈ [FileDoesNotExist; NotARegularFile; WrongExtension] ->
               r.2 = Some err ->
               trace r.1 = trace c0 /\ EvOpenRawFile rawfile ∉ new_events c0 r.1).
Proof.
  cbn zeta. unfold open_raw_file.
  set (c0 := if is_init_ c && run_thread_ c then stopped c else c).
  assert (Hnone : forall z : option CameraErrorCode,
             trace (set_is_init_ true c0, z).1 = trace c0 /\
             EvOpenRawFile rawfile ∉ new_events c0 (set_is_init_ true c0, z).1).
  { intros z. split; [reflexivity |].
    unfold new_events. cbn. rewrite drop_all. apply not_elem_of_nil. }
  destruct (fs_exists fs rawfile) eqn:Hex; cbn [negb].
  2: { split; [reflexivity |]. split; [discriminate |]. split; [discriminate |].
       intros err _ _. apply Hnone. }
  destruct (fs_is_regular_file fs rawfile) eqn:Hreg; cbn [negb].
  2: { split; [discriminate |]. split; [reflexivity |]. split; [discriminate |].
       intros err _ _. apply Hnone. }
  destruct (String.eqb_spec (fs_extension fs rawfile) ".raw") as [Hext | Hext];
    cbn [negb].
  2: { split; [discriminate |]. split; [discriminate |]. split; [reflexivity |].
       intros err _ _. apply Hnone. }
  split; [discriminate |]. split; [discriminate |].
  split; [intros _ _ H; contradiction |].
  intros err Herr Hr. exfalso.
  assert (Hother : err ∈ [InvalidRawfile; IBoardIdentificationNotFound;
                          IEventsStreamNotFound; IGeometryNotFound;
                          IDecoderNotFound; ICDDecoderNotFound]).
  { destruct (discovery rawfile) as [dev |]; cbn in Hr.
    - destruct (has_hw_identification dev); cbn in Hr.
      + unfold init_common_interfaces in Hr.
        repeat match type of Hr with
               | context [if ?b then _ else _] => destruct b; cbn in Hr
               end;
          try discriminate; injection Hr as <-;
          repeat first [apply list_elem_of_here | apply list_elem_of_further].
      + injection Hr as <-.
        repeat first [apply list_elem_of_here | apply list_elem_of_further].
    - injection Hr as <-. apply list_elem_of_here. }
  repeat (apply elem_of_cons in Herr as [-> | Herr]);
    try (now apply elem_of_nil in Herr);
    repeat (apply elem_of_cons in Hother as [Hother | Hother]; [discriminate |]);
    now apply elem_of_nil in Hother.
Qed.

Lemma open_raw_file_configuration_errors_witness :
  (fs_exists sample_fs "missing" = false /\
   (fs_exists sample_fs "dir.raw" = true /\
    fs_is_regular_file sample_fs "dir.raw" = false) /\
   (fs_exists sample_fs "notes.txt" = true /\
    fs_is_regular_file sample_fs "notes.txt" = true /\
    fs_extension sample_fs "notes.txt" <> ".raw")) /\
  open_raw_file sample_fs (fun _ => Some sample_device) id "missing" true
                (new_session false false 4)
    = (new_session false false 4, Some FileDoesNotExist) /\
  open_raw_file sample_fs (fun _ => Some sample_device) id "dir.raw" true
                (new_session false false 4)
    = (new_session false false 4, Some NotARegularFile) /\
  open_raw_file sample_fs (fun _ => Some sample_device) id "notes.txt" true
                (new_session false false 4)
    = (new_session false false 4, Some WrongExtension).
Proof.
  assert (H1 : fs_exists sample_fs "missing" = false) by reflexivity.
  assert (H2 : fs_exists sample_fs "dir.raw" = true) by reflexivity.
  assert (H3 : fs_is_regular_file sample_fs "dir.raw" = false) by reflexivity.
  assert (H4 : fs_exists sample_fs "notes.txt" = true) by reflexivity.
  assert (H5 : fs_is_regular_file sample_fs "notes.txt" = true) by reflexivity.
  assert (H6 : fs_extension sample_fs "notes.txt" <> ".raw") by discriminate.
  split; [tauto |].
  split; [| split].
  - exact (proj1 (open_raw_file_configuration_errors sample_fs
             (fun _ => Some sample_device) id "missing" true
             (new_session false false 4)) H1).
  - exact (proj1 (proj2 (open_raw_file_configuration_errors sample_fs
             (fun _ => Some sample_device) id "dir.raw" true
             (new_session false false 4))) H2 H3).
  - exact (proj1 (proj2 (proj2 (open_raw_file_configuration_errors sample_fs
             (fun _ => Some sample_device) id "notes.txt" true
             (new_session false false 4)))) H4 H5 H6).
Defined.

(** *** The two threads: what a step leaves unchanged *)


Lemma ctl_set_is_running b c : ctl (set_is_running b c) = ctl c.
Proof. unfold set_is_running. now destruct (negb _). Qed.

Lemma ctl_end_run o c : ctl (end_run o c) = ctl c.
Proof. unfold end_run. rewrite ctl_set_is_running. now destruct (_ =? _). Qed.

Lemma ctl_process_buffer b n e c : ctl (process_buffer b n e c) = ctl c.
Proof. unfold process_buffer. now destruct (negb _). Qed.

Lemma ctl_emulate_body b b' e c : ctl (emulate_body b b' e c).2 = ctl c.
Proof.
  unfold emulate_body, pace, anchor_clocks. cbn [fst snd].
  repeat match goal with |- context [if ?x then _ else _] => destruct x end;
    reflexivity.
Qed.

Lemma ctl_fields c c' :
  ctl c' = ctl c ->
  is_init_ c' = is_init_ c /\ from_file_ c' = from_file_ c /\
  emulate_real_time_ c' = emulate_real_time_ c /\
  i_device_control_ c' = i_device_control_ c /\
  run_thread_ c' = run_thread_ c /\
  camera_is_started_ c' = camera_is_started_ c /\
  run_thread_status_ c' = run_thread_status_ c.
Proof. unfold ctl. intros H. injection H as -> -> -> -> -> -> ->. tauto. Qed.

Lemma ctl_stop_recording c : ctl (stop_recording c) = ctl c.
Proof. reflexivity. Qed.

Lemma ctl_emit evs c : ctl (emit evs c) = ctl c.
Proof. reflexivity. Qed.

Lemma ctl_init_clocks c : ctl (init_clocks c) = ctl c.
Proof. reflexivity. Qed.

(** Every step keeps the invariant. *)
Lemma step_Inv (m : Machine) (a : Action) : Inv m -> Inv (step m a).
Proof.
  unfold Inv. destruct m as [c pc pp mx]. cbn [priv caller pump mutex].
  intros (Hi & Hw & Hm & Hx & Ht & Hn & Hb & Hs & Hf).
  destruct a as [op | | e]; cbn [step].
  - (* a call *)
    unfold call. cbn [caller].
    destruct pc; simpl in *; try (repeat split;
      assumption || tauto);
      destruct op; unfold goto_caller; simpl;
      repeat split; try assumption; try tauto;
      try (intros Hbl; destruct (Hb Hbl); discriminate);
      try (intros _ [? | ?]; discriminate).
  - (* a step of the caller *)
    unfold step_caller, acquire, upd, goto_caller, goto_pump, set_mutex.
    cbn [priv caller pump mutex].
    destruct pc; cbn [caller_holds starting] in *;
      repeat match goal with
             | |- context [if ?x then _ else _] => destruct x eqn:?
             | |- context [match mx with _ => _ end] => destruct mx eqn:?
             | |- context [match pp with _ => _ end] => destruct pp eqn:?
             end;
      cbn [priv caller pump mutex caller_holds starting before_loop];
      rewrite ?ctl_set_is_running, ?ctl_end_run, ?ctl_process_buffer,
        ?ctl_emulate_body, ?ctl_stop_recording, ?ctl_init_clocks, ?ctl_emit;
          unfold ctl in *; simpl in *;
      repeat split; intros; try assumption; try congruence; try tauto;
      destruct pp; simpl in *; intuition congruence.
  - (* a step of the acquisition thread *)
    unfold step_pump, acquire, upd, goto_caller, goto_pump, set_mutex.
    cbn [priv caller pump mutex].
    destruct pp; cbn [caller_holds starting before_loop] in *;
      repeat match goal with
             | |- context [if ?x then _ else _] => destruct x eqn:?
             | |- context [match mx with _ => _ end] => destruct mx eqn:?
             end;
      cbn [priv caller pump mutex caller_holds starting before_loop fst snd];
      rewrite ?ctl_set_is_running, ?ctl_end_run, ?ctl_process_buffer,
        ?ctl_emulate_body, ?ctl_stop_recording, ?ctl_init_clocks, ?ctl_emit;
          unfold ctl in *; simpl in *;
      repeat split; intros; try assumption; try congruence; try tauto;
      destruct pc; simpl in *; intuition congruence.
Qed.

Lemma run_Inv (sch : list Action) : forall m, Inv m -> Inv (run sch m).
Proof.
  induction sch as [| a sch IH]; intros m H; [exact H |].
  simpl. apply IH, step_Inv, H.
Qed.

Lemma initial_Inv (c : Private) : constructed c -> Inv (initial c).
Proof.
  intros (Hi & Hw & Ht). unfold Inv, InvK, initial. simpl.
  repeat split; intros; try assumption; try congruence; try discriminate;
    auto.
Qed.

Lemma run_app (sch1 sch2 : list Action) (m : Machine) :
  run (sch1 ++ sch2) m = run sch2 (run sch1 m).
Proof. apply foldl_app. Qed.

(** *** Stopping: the join, then the raw log *)

Lemma step_pump_caller e m : caller (step_pump e m) = caller m.
Proof.
  unfold step_pump, acquire.
  destruct (pump m); simpl;
    repeat match goal with
           | |- context [if ?x then _ else _] => destruct x
           | |- context [match mutex m with _ => _ end] => destruct (mutex m)
           end; reflexivity.
Qed.





(** *** Starting *)

Lemma spawns_app t1 t2 : spawns (t1 ++ t2) = (spawns t1 + spawns t2)%nat.
Proof. unfold spawns. now rewrite filter_app, length_app. Qed.

Lemma spawns_fmap_none {A} (f : A -> Event) (l : list A) :
  (forall x, f x <> EvThreadSpawn) -> spawns (f <$> l) = 0%nat.
Proof.
  intros H. induction l as [| x l IH]; [reflexivity |].
  rewrite fmap_cons. unfold spawns in *. rewrite filter_cons.
  destruct (decide _) as [E | _]; [now apply H in E | exact IH].
Qed.

Lemma spawns_cons_other ev t :
  ev <> EvThreadSpawn -> spawns (ev :: t) = spawns t.
Proof.
  intros H. unfold spawns. rewrite filter_cons.
  destruct (decide _); [contradiction | reflexivity].
Qed.

Lemma spawns_nil : spawns [] = 0%nat.
Proof. reflexivity. Qed.

Lemma trace_emit evs c : trace (emit evs c) = trace c ++ evs.
Proof. reflexivity. Qed.

Lemma spawns_set_is_running b c :
  spawns (trace (set_is_running b c)) = spawns (trace c).
Proof.
  destruct (decide (is_running_ c = b)) as [E | E].
  - now rewrite set_is_running_same.
  - rewrite set_is_running_edge, trace_emit by assumption.
    rewrite spawns_app, spawns_fmap_none by discriminate.
    change (trace (set_is_running_ b c)) with (trace c). lia.
Qed.

Lemma spawns_end_run o c : spawns (trace (end_run o c)) = spawns (trace c).
Proof.
  unfold end_run. rewrite spawns_set_is_running.
  destruct (o =? -1); [| reflexivity].
  rewrite trace_emit, spawns_app, spawns_fmap_none by discriminate. lia.
Qed.

Lemma spawns_process_buffer b n e c :
  spawns (trace (process_buffer b n e c)) = spawns (trace c).
Proof.
  rewrite process_buffer_trace, !spawns_app, spawns_fmap_none by discriminate.
  destruct (decide _); rewrite ?spawns_cons_other by discriminate;
    rewrite spawns_nil; lia.
Qed.

Lemma spawns_emulate_body b b' e c :
  spawns (trace (emulate_body b b' e c).2) = spawns (trace c).
Proof.
  rewrite emulate_body_trace, !spawns_app, spawns_fmap_none by discriminate.
  unfold sleep_of. destruct (_ <? _); rewrite ?spawns_cons_other by discriminate;
    rewrite spawns_nil; lia.
Qed.

Lemma step_pump_spawns e m :
  spawns (trace (priv (step_pump e m))) = spawns (trace (priv m)).
Proof.
  unfold step_pump, acquire.
  destruct (pump m); cbn -[spawns process_buffer emulate_body end_run];
    repeat match goal with
           | |- context [if ?x then _ else _] => destruct x
           | |- context [match mutex m with _ => _ end] => destruct (mutex m)
           end; cbn -[spawns process_buffer emulate_body end_run];
    rewrite ?spawns_process_buffer, ?spawns_emulate_body, ?spawns_end_run,
      ?trace_emit, ?spawns_app;
    try reflexivity;
    repeat (rewrite spawns_cons_other by discriminate);
    rewrite ?spawns_nil; lia.
Qed.

Lemma step_pump_frame e m :
  is_init_ (priv (step_pump e m)) = is_init_ (priv m) /\
  run_thread_ (priv (step_pump e m)) = run_thread_ (priv m) /\
  mutex (step_pump e m) =
    match pump m with
    | P_lock => match mutex m with None => Some Pump | o => o end
    | P_wait_started => None
    | _ => mutex m
    end.
Proof.
  destruct m as [c pc pp mx]. unfold step_pump, acquire.
  cbn [priv caller pump mutex].
  destruct pp; cbn -[process_buffer emulate_body end_run];
    repeat match goal with
           | |- context [if ?x then _ else _] => destruct x eqn:?
           | |- context [match mx with _ => _ end] => destruct mx eqn:?
           end; cbn -[process_buffer emulate_body end_run];
    repeat match goal with
           | |- context [process_buffer ?b ?n ?e ?c] =>
               destruct (ctl_fields _ _ (ctl_process_buffer b n e c))
                 as (-> & _ & _ & _ & -> & _)
           | |- context [emulate_body ?b ?n ?e ?c] =>
               destruct (ctl_fields _ _ (ctl_emulate_body b n e c))
                 as (-> & _ & _ & _ & -> & _)
           | |- context [end_run ?o ?c] =>
               destruct (ctl_fields _ _ (ctl_end_run o c))
                 as (-> & _ & _ & _ & -> & _)
           end; repeat split; first [reflexivity | congruence].
Qed.

Lemma step_fresh_start n0 m a :
  is_call a = false -> fresh_start n0 m -> fresh_start n0 (step m a).
Proof.
  intros Ha (Hi & H). destruct a as [op | | e]; [discriminate | |]; cbn [step].
  - destruct m as [c pc pp mx]. unfold fresh_start in *.
    unfold step_caller, acquire, upd, goto_caller, goto_pump, set_mutex.
    cbn [priv caller pump mutex] in *.
    destruct pc; try contradiction;
      repeat match goal with
             | |- context [if ?x then _ else _] => destruct x eqn:?
             | |- context [match mx with _ => _ end] => destruct mx eqn:?
             | H : context [match ?op with OpStart => _ | OpStop => _ end] |- _ =>
                 destruct op
             | H : context [match ?r with Returned _ => _ | Thrown _ => _ end] |- _ =>
                 destruct r as [[|] |]
             end;
      cbn [priv caller pump mutex]; try contradiction;
      try (split; [assumption | split; tauto || congruence]);
      destruct H as [Hr Hs].
    all: try congruence; try (repeat split; assumption).
    + repeat split; try assumption.
      rewrite trace_emit, spawns_app. cbn [trace].
      change (spawns [EvThreadSpawn]) with 1%nat.
      change (trace (set_run_thread_ true (set_camera_is_started_ false c)))
        with (trace c). lia.
    + destruct (ctl_fields _ _ (ctl_set_is_running true c))
        as (-> & _ & _ & _ & -> & _).
      rewrite spawns_set_is_running. auto.
  - unfold fresh_start in *. rewrite step_pump_caller, step_pump_spawns.
    destruct (step_pump_frame e m) as (-> & -> & _). auto.
Qed.

Lemma run_fresh_start n0 (sch : list Action) :
  forall m, no_call sch -> fresh_start n0 m -> fresh_start n0 (run sch m).
Proof.
  induction sch as [| a sch IH]; intros m Hn H; [exact H |].
  apply Forall_cons in Hn as [Ha Hn].
  simpl. apply IH;
    [exact Hn |]. now apply step_fresh_start.
Qed.


Lemma step_pump_after_loop e m m' :
  priv m = priv m' -> pump m = pump m' -> before_loop (pump m) = false ->
  priv (step_pump e m) = priv (step_pump e m') /\
  pump (step_pump e m) = pump (step_pump e m') /\
  before_loop (pump (step_pump e m)) = false /\
  mutex (step_pump e m) = mutex m.
Proof.
  destruct m as [c pc pp mx], m' as [c' pc' pp' mx'].
  cbn [priv caller pump mutex]. intros <- <- Hb.
  unfold step_pump, acquire. cbn [priv caller pump mutex].
  destruct pp; try discriminate; simpl;
    repeat match goal with
           | |- context [if ?x then _ else _] => destruct x eqn:?
           end; simpl; repeat split; reflexivity.
Qed.

Lemma step_refused_caller k m m' :
  refused_start k m m' -> refused_start (S k) (step_caller m) m'.
Proof.
  destruct m as [c pc pp mx].
  unfold refused_start. cbn [priv caller pump mutex].
  intros (Hp & Hpp & Hb & Hr & Hi & Hc & Hm). subst pc mx.
  unfold step_caller, acquire, upd, goto_caller, set_mutex.
  destruct k as [| [| [| k]]]; cbn [start_refused_pc priv caller pump mutex];
    rewrite ?Hi, ?Hr; simpl; repeat split;
      assumption || reflexivity.
Qed.

Lemma step_refused_pump e k m m' :
  refused_start k m m' ->
  refused_start k (step_pump e m) (step_pump e m').
Proof.
  unfold refused_start. intros (Hp & Hpp & Hb & Hr & Hi & Hc & Hm).
  destruct (step_pump_after_loop e m m' Hp Hpp Hb) as (H1 & H2 & H3 & H4).
  destruct (step_pump_frame e m) as (H5 & H6 & _).
  rewrite step_pump_caller, H4, H5, H6. auto 10.
Qed.

Lemma caller_steps_caller sch : caller_steps (ACaller :: sch) = S (caller_steps sch).
Proof. reflexivity. Qed.

Lemma caller_steps_pump e sch : caller_steps (APump e :: sch) = caller_steps sch.
Proof. reflexivity. Qed.

Lemma pump_only_caller sch : pump_only (ACaller :: sch) = pump_only sch.
Proof. reflexivity. Qed.

Lemma pump_only_call op sch : pump_only (ACall op :: sch) = pump_only sch.
Proof. reflexivity. Qed.

Lemma pump_only_pump e sch : pump_only (APump e :: sch) = APump e :: pump_only sch.
Proof. reflexivity. Qed.

Lemma run_refused_start (sch : list Action) :
  forall k m m',
    no_call sch -> refused_start k m m' ->
    refused_start (k + caller_steps sch) (run sch m) (run (pump_only sch) m').
Proof.
  induction sch as [| a sch IH]; intros k m m' Hn H.
  - simpl. now rewrite Nat.add_0_r.
  - apply Forall_cons in Hn as [Ha Hn].
    destruct a as [op | | e]; [discriminate | |].
    + rewrite caller_steps_caller, pump_only_caller, Nat.add_succ_r.
      cbn [run foldl step]. apply (IH (S k)); [exact Hn |].
      now apply step_refused_caller.
    + rewrite caller_steps_pump, pump_only_pump.
      cbn [run foldl step]. apply (IH k); [exact Hn |].
      now apply step_refused_pump.
Qed.

Lemma run_pump_only_spawns (sch : list Action) :
  forall m, spawns (trace (priv (run (pump_only sch) m))) = spawns (trace (priv m)).
Proof.
  induction sch as [| a sch IH]; intros m; [reflexivity |].
  destruct a as [op | | e];
    rewrite ?pump_only_call, ?pump_only_caller, ?pump_only_pump;
    [apply IH | apply IH |].
  cbn [run foldl step]. fold (run (pump_only sch) (step_pump e m)).
  now rewrite IH, step_pump_spawns.
Qed.

Lemma caller_progress n0 m :
  Inv m -> fresh_start n0 m ->
  (caller_rank (caller (step_caller m)) < caller_rank (caller m)
   \/ caller_rank (caller (step_caller m)) = 0)%nat.
Proof.
  destruct m as [c pc pp mx]. unfold Inv, InvK, fresh_start.
  cbn [priv caller pump mutex].
  intros (Hi & Hw & Hm & Hx & Ht & Hn & Hb & Hs & Hf) (_ & H).
  unfold step_caller, acquire, goto_caller, goto_pump, upd, set_mutex.
  cbn [priv caller pump mutex].
  destruct pc; try contradiction; cbn [caller_rank];
    try (right; reflexivity);
    try (destruct (camera_is_started_ c); right; reflexivity);
    destruct H as [Hr Hsp]; unfold ctl in *; simpl in *.
  all: try (assert (pp = P_none) by (apply Ht; exact Hr); subst pp mx).
  all: rewrite ?Hi, ?Hr; simpl; left; lia.
Qed.

Lemma caller_steps_progress n0 (k : nat) :
  forall m, Inv m -> fresh_start n0 m ->
            (caller_rank (caller (run (replicate k ACaller) m))
             <= caller_rank (caller m) - k)%nat.
Proof.
  induction k as [| k IH]; intros m HI HF; [simpl; lia |].
  cbn [replicate run foldl step]. fold (run (replicate k ACaller) (step_caller m)).
  pose proof (caller_progress n0 m HI HF) as Hp.
  assert (HI' : Inv (step_caller m)) by apply (step_Inv m ACaller HI).
  assert (HF' : fresh_start n0 (step_caller m))
    by apply (step_fresh_start n0 m ACaller eq_refl HF).
  specialize (IH _ HI' HF'). lia.
Qed.

Lemma pump_progress e m :
  Inv m -> caller m = C_start_wait_started ->
  (pump_rank (pump (step_pump e m)) < pump_rank (pump m)
   \/ pump_rank (pump (step_pump e m)) = 0)%nat.
Proof.
  destruct m as [c pc pp mx]. unfold Inv, InvK.
  cbn [priv caller pump mutex].
  intros (Hi & Hw & Hm & Hx & Ht & Hn & Hb & Hs & Hf) ->.
  unfold step_pump, acquire, goto_caller, goto_pump, upd, set_mutex.
  cbn [priv caller pump mutex].
  unfold ctl in *; simpl in *.
  destruct pp; cbn [pump_rank];
    try (right; reflexivity);
    try (repeat match goal with
                | |- context [if ?x then _ else _] => destruct x
                end; right; reflexivity);
    simpl in *.
  - subst mx. simpl. left. lia.
  - destruct (Hs eq_refl (or_intror eq_refl)) as [-> | (_ & _ & ?)];
      [simpl; left; lia | congruence].
  - rewrite Hi. simpl. left. lia.
  - destruct (from_file_ c) eqn:E; [simpl; left; lia |].
    rewrite Hw by reflexivity. simpl. left. lia.
Qed.

Lemma pump_steps_progress (envs : list Env) :
  forall m, Inv m -> caller m = C_start_wait_started ->
            (pump_rank (pump (run (APump <$> envs) m))
             <= pump_rank (pump m) - length envs)%nat /\
            caller (run (APump <$> envs) m) = C_start_wait_started.
Proof.
  induction envs as [| e envs IH]; intros m HI Hc;
    [simpl; split; [lia | exact Hc] |].
  rewrite fmap_cons. cbn [run foldl step]. fold (run (APump <$> envs) (step_pump e m)).
  pose proof (pump_progress e m HI Hc) as Hp.
  assert (HI' : Inv (step_pump e m)) by apply (step_Inv m (APump e) HI).
  assert (Hc' : caller (step_pump e m) = C_start_wait_started)
    by (now rewrite step_pump_caller).
  destruct (IH _ HI' Hc') as [H1 H2]. split; [cbn [length]; lia | exact H2].
Qed.

Lemma pump_steps_done (envs : list Env) op r :
  forall m, caller m = C_done op r -> caller (run (APump <$> envs) m) = C_done op r.
Proof.
  induction envs as [| e envs IH]; intros m Hc; [exact Hc |].
  rewrite fmap_cons. cbn [run foldl step]. apply IH. now rewrite step_pump_caller.
Qed.

Lemma pump_rank_zero pp : pump_rank pp = 0%nat -> before_loop pp = false.
Proof. destruct pp; simpl; congruence. Qed.

(** From any state of a [start()] that found no thread, the call returns
    true once the caller has taken eight steps, the acquisition thread five,
    and the caller one more. *)
Lemma fresh_start_returns_true n0 (m : Machine) (envs : list Env) :
  Inv m -> fresh_start n0 m -> length envs = 5%nat ->
  caller (run (replicate 8 ACaller ++ (APump <$> envs) ++ [ACaller]) m)
  = C_done OpStart (Returned true).
Proof.
  intros HI HF Hlen. rewrite !run_app.
  pose proof (caller_steps_progress n0 8 m HI HF) as Hrank.
  assert (HI2 : Inv (run (replicate 8 ACaller) m)) by (apply run_Inv, HI).
  assert (HF2 : fresh_start n0 (run (replicate 8 ACaller) m)).
  { apply run_fresh_start; [| exact HF]. repeat constructor. }
  assert (Hb : (caller_rank (caller m) <= 8)%nat)
    by (destruct (caller m); simpl; lia).
  remember (run (replicate 8 ACaller) m) as m2 eqn:Em2. clear Em2.
  assert (Hz : caller_rank (caller m2) = 0%nat) by lia.
  clear Hrank Hb HI HF m.
  assert (Hc2 : caller m2 = C_start_wait_started \/
                caller m2 = C_done OpStart (Returned true)).
  { destruct HF2 as [_ H].
    destruct (caller m2) eqn:E;
      simpl in Hz; try discriminate;
        try contradiction; auto.
    right.
    repeat match goal with
           | H : context [match ?x with _ => _ end] |- _ =>
               destruct x; try contradiction
           end.
    reflexivity. }
  destruct Hc2 as [Hc2 | Hc2].
  - destruct (pump_steps_progress envs m2 HI2 Hc2) as [Hpr Hc3].
    assert (HI3 : Inv (run (APump <$> envs) m2)) by (apply run_Inv, HI2).
    assert (Hz3 : pump_rank (pump (run (APump <$> envs) m2)) = 0%nat).
    { assert (pump_rank (pump m2) <= 5)%nat by (destruct (pump m2);
      simpl; lia). lia. }
    remember (run (APump <$> envs) m2) as m3 eqn:Em3. clear Em3.
    apply pump_rank_zero in Hz3.
    destruct HI3 as (_ & _ & _ & _ & _ & _ & _ & _ & Hf).
    rewrite Hc3 in Hf. specialize (Hf eq_refl Hz3).
    cbn [run foldl step]. unfold step_caller. rewrite Hc3.
    unfold ctl in Hf. simpl in Hf. rewrite Hf. reflexivity.
  - cbn [run foldl step]. unfold step_caller.
    rewrite (pump_steps_done envs _ _ m2 Hc2). apply pump_steps_done. exact Hc2.
Qed.

Lemma quiescent_not_before_loop m :
  Inv m -> quiescent m -> before_loop (pump m) = false /\ mutex m = None.
Proof.
  destruct m as [c pc pp mx]. unfold Inv, InvK, quiescent.
  cbn [priv caller pump mutex].
  intros (_ & _ & Hm & _ & _ & _ & Hb & _) Hq.
  assert (Hbl : before_loop pp = false).
  { destruct (before_loop pp) eqn:E; [| reflexivity].
    destruct (Hb eq_refl) as [_ Hs]. destruct pc; try contradiction; discriminate. }
  split; [exact Hbl |].
  destruct pc; try contradiction; simpl in Hm; destruct pp;
    try discriminate; exact Hm.
Qed.

(** C2: in an execution of a constructed session, take a state between two
    calls and let the caller enter [start()], the two threads then taking
    steps in any order. If the acquisition thread exists, the session is at
    every moment in the state the acquisition thread alone would have left
    it in, no thread has been created, and after three steps of its own the
    caller has returned false. If no thread exists, a call that has
    returned has returned true, with exactly one thread created and
    [run_thread_] joinable; and whatever the two threads have done so far,
    the call has returned true once the caller has taken eight more steps,
    the acquisition thread five, and the caller one. *)
Theorem start_twice_refused_start_once_spawns
  (c : Private) (sch0 sch : list Action) :
  constructed c ->
  quiescent (run sch0 (initial c)) ->
  no_call sch ->
  let m0 := run sch0 (initial c) in
  let m := run (ACall OpStart :: sch) m0 in
  (run_thread_ (priv m0) = true ->
   priv m = priv (run (pump_only sch) m0) /\
   spawns (trace (priv m)) = spawns (trace (priv m0)) /\
   caller m = start_refused_pc (caller_steps sch)) /\
  (run_thread_ (priv m0) = false ->
   (forall op r,
      caller m = C_done op r ->
      op = OpStart /\ r = Returned true /\
      run_thread_ (priv m) = true /\
      spawns (trace (priv m)) = S (spawns (trace (priv m0)))) /\
   (forall envs,
      length envs = 5%nat ->
      caller (run (replicate 8 ACaller ++ (APump <$> envs) ++ [ACaller]) m)
      = C_done OpStart (Returned true))).
Proof.
  intros Hc Hq Hn. cbn zeta.
  set (m0 := run sch0 (initial c)) in *.
  assert (HI : Inv m0) by (apply run_Inv, initial_Inv, Hc).
  destruct (quiescent_not_before_loop m0 HI Hq) as [Hbl Hmx].
  assert (Hcall : call OpStart m0 = goto_caller C_start_check m0).
  { unfold call. destruct (caller m0) eqn:E; unfold quiescent in Hq;
      rewrite E in Hq; try contradiction; reflexivity. }
  assert (HIc : Inv (goto_caller C_start_check m0)).
  { rewrite <- Hcall. apply (step_Inv m0 (ACall OpStart) HI). }
  change (run (ACall OpStart :: sch) m0) with (run sch (call OpStart m0)).
  rewrite Hcall.
  split.
  - intros Hr.
    assert (H0 : refused_start 0 (goto_caller C_start_check m0) m0).
    { unfold refused_start. cbn [priv caller pump mutex goto_caller].
      repeat split; try assumption; try reflexivity.
      apply HI. }
    pose proof (run_refused_start sch 0 _ _ Hn H0) as (Hp & _ & _ & _ & _ & Hpc & _).
    split; [exact Hp |]. split; [| exact Hpc].
    rewrite Hp. apply run_pump_only_spawns.
  - intros Hr.
    assert (H0 : fresh_start (spawns (trace (priv m0)))
                   (goto_caller C_start_check m0)).
    { unfold fresh_start. cbn [priv caller goto_caller].
      split; [apply HI | split; [exact Hr | reflexivity]]. }
    pose proof (run_fresh_start _ sch _ Hn H0) as HF.
    split.
    + intros op r Hdone. destruct HF as (_ & H).
      rewrite Hdone in H.
      destruct op; try contradiction.
      destruct r as [[|] |]; try contradiction.
      destruct H as [H1 H2]. auto.
    + intros envs Hlen.
      apply (fresh_start_returns_true (spawns (trace (priv m0)))); try assumption.
      apply run_Inv, HIc.
Qed.

Lemma start_twice_refused_start_once_spawns_witness :
  (constructed sample_file_session /\
   quiescent (run (start_then_poll (sample_env 10 1000)) (initial sample_file_session)) /\
   no_call [ACaller; APump (sample_env 20 1010); ACaller; ACaller] /\
   run_thread_ (priv (run (start_then_poll (sample_env 10 1000))
                          (initial sample_file_session))) = true) /\
  caller (run (ACall OpStart ::
               [ACaller; APump (sample_env 20 1010); ACaller; ACaller])
              (run (start_then_poll (sample_env 10 1000))
                   (initial sample_file_session)))
  = C_done OpStart (Returned false).
Proof.
  assert (H1 : constructed sample_file_session).
  { repeat split; try reflexivity. discriminate. }
  assert (H2 : quiescent (run (start_then_poll (sample_env 10 1000))
                              (initial sample_file_session))) by exact I.
  assert (H3 : no_call [ACaller; APump (sample_env 20 1010); ACaller; ACaller]).
  { repeat constructor. }
  assert (H4 : run_thread_ (priv (run (start_then_poll (sample_env 10 1000))
                                      (initial sample_file_session))) = true)
    by reflexivity.
  split; [auto |].
  exact (proj2 (proj2 (proj1 (start_twice_refused_start_once_spawns
                                sample_file_session _ _ H1 H2 H3) H4))).
Defined.

(** *** The end of a run *)

Lemma runtime_errors_app t1 t2 :
  runtime_errors (t1 ++ t2) = (runtime_errors t1 + runtime_errors t2)%nat.
Proof. unfold runtime_errors. now rewrite filter_app, length_app. Qed.

Lemma runtime_errors_cons_other ev t :
  is_runtime_error ev = false -> runtime_errors (ev :: t) = runtime_errors t.
Proof.
  intros H. unfold runtime_errors. rewrite filter_cons, H.
  destruct (decide _); [discriminate | reflexivity].
Qed.

Lemma runtime_errors_nil : runtime_errors [] = 0%nat.
Proof. reflexivity. Qed.

Lemma runtime_errors_fmap_none {A} (f : A -> Event) (l : list A) :
  (forall x, is_runtime_error (f x) = false) -> runtime_errors (f <$> l) = 0%nat.
Proof.
  intros H. induction l as [| x l IH]; [reflexivity |].
  rewrite fmap_cons, runtime_errors_cons_other by apply H. exact IH.
Qed.

Lemma runtime_errors_set_is_running b c :
  runtime_errors (trace (set_is_running b c)) = runtime_errors (trace c).
Proof.
  destruct (decide (is_running_ c = b)) as [E | E].
  - now rewrite set_is_running_same.
  - rewrite set_is_running_edge, trace_emit by assumption.
    rewrite runtime_errors_app, runtime_errors_fmap_none by reflexivity.
    change (trace (set_is_running_ b c)) with (trace c). lia.
Qed.

Lemma runtime_errors_end_run o c :
  o <> -1 -> runtime_errors (trace (end_run o c)) = runtime_errors (trace c).
Proof.
  intros H. unfold end_run. rewrite runtime_errors_set_is_running.
  destruct (Z.eqb_spec o (-1)); [contradiction | reflexivity].
Qed.

Lemma runtime_errors_process_buffer b n e c :
  runtime_errors (trace (process_buffer b n e c)) = runtime_errors (trace c).
Proof.
  rewrite process_buffer_trace, !runtime_errors_app,
    runtime_errors_fmap_none by reflexivity.
  destruct (decide _); rewrite ?runtime_errors_cons_other by reflexivity;
    rewrite runtime_errors_nil; lia.
Qed.

Lemma runtime_errors_emulate_body b b' e c :
  runtime_errors (trace (emulate_body b b' e c).2) = runtime_errors (trace c).
Proof.
  rewrite emulate_body_trace, !runtime_errors_app,
    runtime_errors_fmap_none by reflexivity.
  unfold sleep_of.
  destruct (_ <? _); rewrite ?runtime_errors_cons_other by reflexivity;
    rewrite runtime_errors_nil; lia.
Qed.

Lemma run_from_result_not_failure res : run_from_result res <> -1.
Proof. unfold run_from_result. destruct (res =? 0); discriminate. Qed.

Lemma step_InvEnd n0 m a : InvEnd n0 m -> InvEnd n0 (step m a).
Proof.
  destruct m as [c pc pp mx]. unfold InvEnd. cbn [priv caller pump mutex].
  intros [Hn Ho]. destruct a as [op | | e]; cbn [step].
  - unfold call, goto_caller. cbn [caller].
    destruct pc; try destruct op;
      simpl; auto.
  - unfold step_caller, acquire, upd, goto_caller, goto_pump, set_mutex.
    cbn [priv caller pump mutex].
    destruct pc;
      repeat match goal with
             | |- context [if ?x then _ else _] => destruct x eqn:?
             | |- context [match mx with _ => _ end] => destruct mx eqn:?
             | |- context [match pp with _ => _ end] => destruct pp eqn:?
             end;
      cbn [priv caller pump mutex]; unfold stop_recording;
      rewrite ?runtime_errors_set_is_running;
        simpl;
      rewrite ?runtime_errors_app;
      repeat (rewrite runtime_errors_cons_other by reflexivity);
      rewrite ?runtime_errors_nil, ?Nat.add_0_r;
      (split; [exact Hn | try exact Ho; intros; discriminate]).
  - unfold step_pump, acquire, upd, goto_caller, goto_pump, set_mutex.
    cbn [priv caller pump mutex].
    destruct pp;
      repeat match goal with
             | |- context [if ?x then _ else _] => destruct x eqn:?
             | |- context [match mx with _ => _ end] => destruct mx eqn:?
             end;
      cbn [priv caller pump mutex fst snd];
      rewrite ?runtime_errors_process_buffer, ?runtime_errors_emulate_body,
        ?runtime_errors_end_run by (apply Ho; reflexivity);
      simpl; rewrite ?runtime_errors_app;
      repeat (rewrite runtime_errors_cons_other by reflexivity);
      rewrite ?runtime_errors_nil, ?Nat.add_0_r;
      (split; [exact Hn |]);
      try exact Ho; intros out; try discriminate.
    intros [= <-]. apply run_from_result_not_failure.
Qed.

Lemma run_InvEnd n0 (sch : list Action) :
  forall m, InvEnd n0 m -> InvEnd n0 (run sch m).
Proof.
  induction sch as [| a sch IH]; intros m H; [exact H |].
  simpl. apply IH, step_InvEnd, H.
Qed.

(** Whatever the stream returns and however the threads are scheduled, an
    execution never invokes a runtime-error callback. *)
Lemma runtime_error_callbacks_never_invoked (c : Private) (sch : list Action) :
  runtime_errors (trace (priv (run sch (initial c)))) = runtime_errors (trace c).
Proof.
  apply (run_InvEnd (runtime_errors (trace c)) sch (initial c)).
  split; [reflexivity | discriminate].
Qed.

(** C1, at a stream failure: a live session with a runtime-error callback
    registered is started and its first [wait_next_buffer] returns -1. The
    main loop ends on it, [run_from_camera] turns the -1 into 1, [end_run]
    is given 1: the thread ends, [is_running_] is false and the
    status-change callback has seen the stop, but no runtime-error callback
    has been invoked. Given the -1 itself, [end_run] invokes it; given any
    other negative value, it does not. *)
Theorem stream_failure_invokes_no_runtime_error_callback :
  let m := run (start_then_poll stream_failure) (initial sample_live) in
  runtime_error_callback_map_ (priv m) !! 1 = Some 0%nat /\
  pump m = P_done /\
  is_running_ (priv m) = false /\
  trace (priv m) =
    [EvThreadSpawn; EvStatusChange 2 CameraStatus.STARTED;
     EvStreamStart; EvDeviceStart; EvDeviceReset;
     EvWaitNextBuffer (-1);
     EvStatusChange 2 CameraStatus.STOPPED] /\
  run_from_result (-1) = 1 /\
  new_events sample_live (end_run (-1) sample_live) =
    [EvRuntimeError 1 DataTransferFailed] /\
  new_events sample_live (end_run (-2) sample_live) = [].
Proof. vm_compute. repeat split; reflexivity. Qed.

(** ** The life of the acquisition thread *)

(** *** The life of the acquisition thread *)

Lemma flags_emit evs c : flags (emit evs c) = flags c.
Proof. reflexivity. Qed.

Lemma flags_init_clocks c : flags (init_clocks c) = flags c.
Proof. reflexivity. Qed.

Lemma flags_process_buffer b n e c : flags (process_buffer b n e c) = flags c.
Proof. unfold process_buffer. now destruct (negb _). Qed.

Lemma flags_emulate_body b b' e c : flags (emulate_body b b' e c).2 = flags c.
Proof.
  unfold emulate_body, pace, anchor_clocks. cbn [fst snd].
  repeat match goal with |- context [if ?x then _ else _] => destruct x end;
    reflexivity.
Qed.

Lemma flags_set_is_running b c :
  flags (set_is_running b c) = {| f_running := b; f_recording := is_recording_ c |}.
Proof.
  unfold set_is_running, flags.
  destruct (is_running_ c) eqn:E, b; cbn; rewrite ?E; reflexivity.
Qed.

Lemma flags_end_run o c :
  flags (end_run o c) = {| f_running := false; f_recording := is_recording_ c |}.
Proof.
  unfold end_run. rewrite flags_set_is_running. now destruct (_ =? _).
Qed.

Lemma flags_stop_recording c :
  flags (stop_recording c) = {| f_running := is_running_ c; f_recording := false |}.
Proof. reflexivity. Qed.

Lemma step_InvLife (m : Machine) (a : Action) :
  Inv m -> InvLife m -> InvLife (step m a).
Proof.
  unfold Inv, InvLife. destruct m as [c pc pp mx]. cbn [priv caller pump mutex].
  intros (Hi & Hw & Hm & Hx & Ht & Hn & Hb & Hs & Hf)
         (L1 & L3 & L4 & L5 & L6 & L7 & L8).
  destruct a as [op | | e]; cbn [step].
  - (* a call *)
    unfold call. cbn [caller].
    destruct pc; simpl in *; try (repeat split; assumption || tauto);
      destruct op; unfold goto_caller; simpl;
      repeat split; intros; try assumption; try tauto; try discriminate;
      try (destruct pp; simpl in *; intuition congruence).
  - (* a step of the caller *)
    unfold step_caller, acquire, upd, goto_caller, goto_pump, set_mutex.
    cbn [priv caller pump mutex].
    destruct pc;
      repeat match goal with
             | |- context [if ?x then _ else _] => destruct x eqn:?
             | |- context [match mx with _ => _ end] => destruct mx eqn:?
             | |- context [match pp with _ => _ end] => destruct pp eqn:?
             end;
      cbn [priv caller pump mutex];
      rewrite ?ctl_set_is_running, ?ctl_stop_recording, ?ctl_emit,
        ?flags_set_is_running, ?flags_stop_recording, ?flags_emit;
      unfold ctl, flags in *; simpl in *;
      repeat match goal with
             | H : negb _ = false |- _ => apply negb_false_iff in H
             | H : negb _ = true |- _ => apply negb_true_iff in H
             end;
      repeat split; intros; simpl; try assumption; try congruence; try tauto;
      try (destruct pp; simpl in *; intuition congruence).
  - (* a step of the acquisition thread *)
    unfold step_pump, acquire, upd, goto_caller, goto_pump, set_mutex.
    cbn [priv caller pump mutex].
    destruct pp;
      repeat match goal with
             | |- context [if ?x then _ else _] => destruct x eqn:?
             | |- context [match mx with _ => _ end] => destruct mx eqn:?
             end;
      cbn [priv caller pump mutex fst snd];
      rewrite ?ctl_end_run, ?ctl_process_buffer, ?ctl_emulate_body,
        ?ctl_init_clocks, ?ctl_emit,
        ?flags_end_run, ?flags_process_buffer, ?flags_emulate_body,
        ?flags_init_clocks, ?flags_emit;
      unfold ctl, flags in *; simpl in *;
      repeat split; intros; try assumption; try congruence; try tauto;
      try (destruct pc; simpl in *; intuition congruence).
Qed.

Lemma run_InvLife (sch : list Action) :
  forall m, Inv m -> InvLife m -> InvLife (run sch m).
Proof.
  induction sch as [| a sch IH]; intros m HI HL; [exact HL |].
  simpl. apply IH; [apply step_Inv, HI | apply step_InvLife; assumption].
Qed.

Lemma initial_InvLife (c : Private) : InvLife (initial c).
Proof.
  unfold InvLife, InvLifeK, initial. simpl.
  repeat split; intros; try discriminate; intuition discriminate.
Qed.

Lemma step_InvIdle (m : Machine) (a : Action) :
  Inv m -> InvLife m -> InvIdle m -> InvIdle (step m a).
Proof.
  unfold Inv, InvLife, InvIdle. destruct m as [c pc pp mx].
  cbn [priv caller pump mutex].
  intros (Hi & Hw & Hm & Hx & Ht & Hn & Hb & Hs & Hf)
         (L1 & L3 & L4 & L5 & L6 & L7 & L8) L2.
  destruct a as [op | | e]; cbn [step].
  - unfold call. cbn [caller].
    destruct pc; simpl; try exact L2; destruct op; exact L2.
  - unfold step_caller, acquire, upd, goto_caller, goto_pump, set_mutex.
    cbn [priv caller pump mutex].
    destruct pc;
      repeat match goal with
             | |- context [if ?x then _ else _] => destruct x eqn:?
             | |- context [match mx with _ => _ end] => destruct mx eqn:?
             | |- context [match pp with _ => _ end] => destruct pp eqn:?
             end;
      cbn [priv caller pump mutex]; try exact L2;
      try (intros [? | ?]; discriminate);
      try (intros _; apply (f_equal f_running (flags_set_is_running _ _)));
      try (specialize (L1 eq_refl); subst pp; intros [? | ?]; discriminate);
      try (intros _; apply L2; auto).
    all: intros H; apply L5; reflexivity.
  - unfold step_pump, acquire, upd, goto_caller, goto_pump, set_mutex.
    cbn [priv caller pump mutex].
    destruct pp;
      repeat match goal with
             | |- context [if ?x then _ else _] => destruct x eqn:?
             | |- context [match mx with _ => _ end] => destruct mx eqn:?
             end;
      cbn [priv caller pump mutex fst snd]; try exact L2;
      try (intros [? | ?]; discriminate).
    intros _. apply (f_equal f_running (flags_end_run _ _)).
Qed.

Lemma run_InvIdle (sch : list Action) :
  forall m, Inv m -> InvLife m -> InvIdle m -> InvIdle (run sch m).
Proof.
  induction sch as [| a sch IH]; intros m HI HL HD; [exact HD |].
  simpl. apply IH;
    [apply step_Inv, HI | apply step_InvLife; assumption
     | apply step_InvIdle; assumption].
Qed.

Lemma run_cons a sch m : run (a :: sch) m = run sch (step m a).
Proof. reflexivity. Qed.

Lemma step_pump_idle e m : pump m = P_none -> step_pump e m = m.
Proof. intros H. unfold step_pump. now rewrite H. Qed.

(** A [stop()] that finds no thread: the session does not change. *)
Lemma step_refused_stop (k : nat) (c0 : Private) (m : Machine) (a : Action) :
  is_call a = false ->
  is_init_ c0 = true -> run_thread_ c0 = false ->
  priv m = c0 /\ pump m = P_none /\ caller m = stop_refused_pc k /\
  mutex m = (if decide (k = 2%nat) then Some Caller else None) ->
  let k' := if is_caller_step a then S k else k in
  priv (step m a) = c0 /\ pump (step m a) = P_none /\
  caller (step m a) = stop_refused_pc k' /\
  mutex (step m a) = (if decide (k' = 2%nat) then Some Caller else None).
Proof.
  intros Ha Hi Hr (Hp & Hpp & Hc & Hm). cbn zeta.
  destruct a as [op | | e]; [discriminate | |]; cbn [step is_caller_step].
  - destruct m as [c pc pp mx]. cbn [priv caller pump mutex] in *.
    subst c pp pc mx.
    unfold step_caller, acquire, upd, goto_caller, set_mutex.
    destruct k as [| [| [| k]]]; cbn [stop_refused_pc priv caller pump mutex];
      rewrite ?Hi, ?Hr; simpl; auto.
  - rewrite step_pump_idle by exact Hpp. auto.
Qed.

Lemma run_refused_stop (c0 : Private) (sch : list Action) :
  is_init_ c0 = true -> run_thread_ c0 = false ->
  forall k m,
    no_call sch ->
    priv m = c0 /\ pump m = P_none /\ caller m = stop_refused_pc k /\
    mutex m = (if decide (k = 2%nat) then Some Caller else None) ->
    priv (run sch m) = c0 /\ pump (run sch m) = P_none /\
    caller (run sch m) = stop_refused_pc (k + caller_steps sch).
Proof.
  intros Hi Hr. induction sch as [| a sch IH]; intros k m Hn H.
  - simpl. rewrite Nat.add_0_r. tauto.
  - apply Forall_cons in Hn as [Ha Hn]. rewrite run_cons.
    pose proof (step_refused_stop k c0 m a Ha Hi Hr H) as H'. cbn zeta in H'.
    destruct a as [op | | e]; [discriminate | |]; cbn [is_caller_step] in H'.
    + rewrite caller_steps_caller, Nat.add_succ_r. apply (IH (S k)); assumption.
    + rewrite caller_steps_pump. apply (IH k); assumption.
Qed.

(** X2: in an execution of a constructed session, take a state between two
    calls in which there is no acquisition thread, and let the caller enter
    [stop()], the two threads then taking steps in any order: the session
    stays as it was, no thread appears, and after three steps of its own the
    caller has returned false. *)
Theorem stop_without_thread_returns_false
  (c : Private) (sch0 sch : list Action) :
  constructed c ->
  quiescent (run sch0 (initial c)) ->
  no_call sch ->
  run_thread_ (priv (run sch0 (initial c))) = false ->
  let m0 := run sch0 (initial c) in
  let m := run (ACall OpStop :: sch) m0 in
  priv m = priv m0 /\ pump m = P_none /\
  caller m = stop_refused_pc (caller_steps sch).
Proof.
  intros Hc Hq Hn Hr. cbn zeta.
  set (m0 := run sch0 (initial c)) in *.
  assert (HI : Inv m0) by (apply run_Inv, initial_Inv, Hc).
  destruct (quiescent_not_before_loop m0 HI Hq) as [_ Hmx].
  assert (Hcall : call OpStop m0 = goto_caller C_stop_check m0).
  { unfold call. destruct (caller m0) eqn:E; unfold quiescent in Hq;
      rewrite E in Hq; try contradiction; reflexivity. }
  rewrite run_cons. cbn [step]. rewrite Hcall.
  assert (Hpp : pump m0 = P_none).
  { destruct HI as (_ & _ & _ & _ & Ht & _). apply Ht. exact Hr. }
  apply (run_refused_stop (priv m0) sch) with (k := 0%nat); try assumption.
  - apply HI.
  - cbn [priv caller pump mutex goto_caller stop_refused_pc]. auto.
Qed.

Lemma stop_without_thread_returns_false_witness :
  (constructed sample_file_session /\
   quiescent (run [] (initial sample_file_session)) /\
   no_call [ACaller; APump (sample_env 20 1010); ACaller; ACaller] /\
   run_thread_ (priv (run [] (initial sample_file_session))) = false) /\
  priv (run [ACall OpStop; ACaller; APump (sample_env 20 1010); ACaller; ACaller]
            (initial sample_file_session)) = sample_file_session /\
  caller (run [ACall OpStop; ACaller; APump (sample_env 20 1010); ACaller; ACaller]
              (initial sample_file_session)) = C_done OpStop (Returned false).
Proof.
  assert (H1 : constructed sample_file_session).
  { repeat split; try reflexivity. discriminate. }
  assert (H2 : quiescent (run [] (initial sample_file_session))) by exact I.
  assert (H3 : no_call [ACaller; APump (sample_env 20 1010); ACaller; ACaller]).
  { repeat constructor. }
  assert (H4 : run_thread_ (priv (run [] (initial sample_file_session))) = false)
    by reflexivity.
  split; [auto |].
  pose proof (stop_without_thread_returns_false sample_file_session [] _ H1 H2 H3 H4)
    as (Ha & _ & Hb).
  split; [exact Ha | exact Hb].
Defined.

(** The points a caller of an uninitialized session can be at. *)
Lemma step_uninitialized (c : Private) (m : Machine) (a : Action) :
  is_init_ c = false ->
  priv m = c /\ pump m = P_none /\
  (caller m = C_idle \/ caller m = C_start_check \/ caller m = C_stop_check \/
   exists op, caller m = C_done op (Thrown CameraNotInitialized)) ->
  priv (step m a) = c /\ pump (step m a) = P_none /\
  (caller (step m a) = C_idle \/ caller (step m a) = C_start_check \/
   caller (step m a) = C_stop_check \/
   exists op, caller (step m a) = C_done op (Thrown CameraNotInitialized)).
Proof.
  intros Hi (Hp & Hpp & Hc). destruct m as [c' pc pp mx].
  cbn [priv caller pump mutex] in *. subst c' pp.
  destruct a as [op | | e]; cbn [step].
  - unfold call, goto_caller. cbn [priv caller pump mutex].
    destruct Hc as [-> | [-> | [-> | [op' ->]]]], op; cbn; eauto 10.
  - destruct Hc as [-> | [-> | [-> | [op' ->]]]];
      unfold step_caller, goto_caller; cbn [priv caller pump mutex];
      rewrite ?Hi; cbn; eauto 10.
  - rewrite step_pump_idle by reflexivity. cbn. auto.
Qed.

(** X3: a session that is not initialized (the one a default-constructed
    [Camera] holds) cannot be started or stopped: whatever calls of
    [start()] and [stop()] are made and however the steps are scheduled,
    the session never changes, no thread is created, and every call that
    has returned has thrown [CameraNotInitialized]. *)
Theorem uninitialized_session_rejects_calls (c : Private) (sch : list Action) :
  is_init_ c = false ->
  priv (run sch (initial c)) = c /\
  pump (run sch (initial c)) = P_none /\
  forall op r, caller (run sch (initial c)) = C_done op r ->
               r = Thrown CameraNotInitialized.
Proof.
  intros Hi.
  assert (H : forall m,
             priv m = c /\ pump m = P_none /\
             (caller m = C_idle \/ caller m = C_start_check \/
              caller m = C_stop_check \/
              exists op, caller m = C_done op (Thrown CameraNotInitialized)) ->
             priv (run sch m) = c /\ pump (run sch m) = P_none /\
             (caller (run sch m) = C_idle \/ caller (run sch m) = C_start_check \/
              caller (run sch m) = C_stop_check \/
              exists op, caller (run sch m) = C_done op (Thrown CameraNotInitialized))).
  { induction sch as [| a sch IH]; intros m Hm; [exact Hm |].
    rewrite run_cons. apply IH. now apply step_uninitialized. }
  destruct (H (initial c)) as (H1 & H2 & H3).
  { cbn. auto. }
  split; [exact H1 |]. split; [exact H2 |].
  intros op r Hd. rewrite Hd in H3.
  destruct H3 as [? | [? | [? | [op' ?]]]]; congruence.
Qed.

Lemma uninitialized_session_rejects_calls_witness :
  is_init_ sample_empty = false /\
  caller (run [ACall OpStart; ACaller; ACall OpStop; APump stream_failure; ACaller]
              (initial sample_empty))
  = C_done OpStop (Thrown CameraNotInitialized) /\
  priv (run [ACall OpStart; ACaller; ACall OpStop; APump stream_failure; ACaller]
            (initial sample_empty)) = sample_empty.
Proof.
  split; [reflexivity |]. split; [reflexivity |].
  exact (proj1 (uninitialized_session_rejects_calls sample_empty
                  [ACall OpStart; ACaller; ACall OpStop; APump stream_failure; ACaller]
                  eq_refl)).
Defined.

(** X4: in every execution of a constructed session, whatever the schedule,
    when [stop()] has returned true the session is stopped: [is_running_]
    and [is_recording_] are false, the thread is not joinable, its status is
    STOPPED and [run_thread_mutex_] is free. *)
Theorem stop_leaves_session_stopped (c : Private) (sch : list Action) :
  constructed c ->
  caller (run sch (initial c)) = C_done OpStop (Returned true) ->
  is_running_ (priv (run sch (initial c))) = false /\
  is_recording_ (priv (run sch (initial c))) = false /\
  run_thread_ (priv (run sch (initial c))) = false /\
  run_thread_status_ (priv (run sch (initial c))) = RunThreadStatus.STOPPED /\
  mutex (run sch (initial c)) = None.
Proof.
  intros Hc Hd.
  assert (HI : Inv (run sch (initial c))) by (apply run_Inv, initial_Inv, Hc).
  assert (HL : InvLife (run sch (initial c))).
  { apply run_InvLife; [apply initial_Inv, Hc | apply initial_InvLife]. }
  destruct (quiescent_not_before_loop _ HI) as [_ Hmx].
  { unfold quiescent. now rewrite Hd. }
  unfold InvLife, InvLifeK in HL. rewrite Hd in HL.
  destruct HL as (_ & _ & _ & L5 & L6 & L7 & L8).
  split; [apply L5; reflexivity |].
  split; [apply L8; reflexivity |].
  split; [apply L7; reflexivity |].
  split; [apply L6; right; reflexivity | exact Hmx].
Qed.

Lemma stop_leaves_session_stopped_witness :
  (constructed sample_file_session /\
   caller (run sample_stop_run (initial sample_file_session))
   = C_done OpStop (Returned true)) /\
  is_running_ (priv (run sample_stop_run (initial sample_file_session))) = false /\
  run_thread_ (priv (run sample_stop_run (initial sample_file_session))) = false.
Proof.
  assert (H1 : constructed sample_file_session).
  { repeat split; try reflexivity. discriminate. }
  assert (H2 : caller (run sample_stop_run (initial sample_file_session))
               = C_done OpStop (Returned true)) by reflexivity.
  split; [auto |].
  pose proof (stop_leaves_session_stopped sample_file_session sample_stop_run H1 H2)
    as (Ha & _ & Hb & _).
  split; [exact Ha | exact Hb].
Defined.

(** X5: in every execution of a constructed session that was not running to
    begin with, [is_running_] is false whenever there is no acquisition
    thread, and whenever the function of the thread has returned (the
    stream has failed or ended, or [stop()] was called), even though the
    thread has not been joined yet. *)
Theorem not_running_once_thread_has_ended (c : Private) (sch : list Action) :
  constructed c -> is_running_ c = false ->
  pump (run sch (initial c)) = P_none \/ pump (run sch (initial c)) = P_done ->
  is_running_ (priv (run sch (initial c))) = false.
Proof.
  intros Hc Hr.
  apply (run_InvIdle sch (initial c)).
  - apply initial_Inv, Hc.
  - apply initial_InvLife.
  - intros _. exact Hr.
Qed.

Lemma not_running_once_thread_has_ended_witness :
  (constructed sample_live /\ is_running_ sample_live = false /\
   pump (run (start_then_poll stream_failure ++ replicate 2 (APump stream_failure))
             (initial sample_live)) = P_done) /\
  is_running_ (priv (run (start_then_poll stream_failure ++
                          replicate 2 (APump stream_failure))
                         (initial sample_live))) = false.
Proof.
  assert (H1 : constructed sample_live).
  { repeat split; reflexivity. }
  assert (H2 : pump (run (start_then_poll stream_failure ++
                          replicate 2 (APump stream_failure))
                         (initial sample_live)) = P_done) by reflexivity.
  split; [auto |].
  apply (not_running_once_thread_has_ended sample_live _ H1 eq_refl).
  right. exact H2.
Defined.

(** *** [stop()] returns *)

Lemma step_live_stop (m : Machine) (a : Action) :
  Inv m -> InvLife m -> is_call a = false -> live_stop m -> live_stop (step m a).
Proof.
  intros HI HL Ha H. destruct a as [op | | e]; [discriminate | |]; cbn [step].
  - destruct m as [c pc pp mx]. unfold Inv, InvLife, live_stop in *.
    cbn [priv caller pump mutex] in *.
    destruct HI as (Hi & Hw & Hm & Hx & Ht & Hn & Hb & Hs & Hf).
    destruct HL as (L1 & L3 & L4 & L5 & L6 & L7 & L8).
    unfold step_caller, acquire, upd, goto_caller, goto_pump, set_mutex.
    cbn [priv caller pump mutex].
    destruct pc; try contradiction;
      repeat match goal with
             | |- context [if ?x then _ else _] => destruct x eqn:?
             | |- context [match mx with _ => _ end] => destruct mx eqn:?
             | |- context [match pp with _ => _ end] => destruct pp eqn:?
             | H : context [match ?op with OpStart => _ | OpStop => _ end] |- _ =>
                 destruct op
             | H : context [match ?r with Returned _ => _ | Thrown _ => _ end] |- _ =>
                 destruct r as [[|] |]
             end;
      cbn [priv caller pump mutex]; try contradiction; try exact I; try assumption;
      unfold ctl in *; simpl in *.
    all: try congruence.
    all: try (apply negb_true_iff in Heqb; congruence).
    (* the wait of the condition variable does not wait *)
    all: exfalso.
    all: assert (Hbl : before_loop pp = false)
      by (destruct (before_loop pp) eqn:E; [destruct (Hb eq_refl); discriminate | reflexivity]).
    all: assert (Hth : thread_running pp = true)
      by (destruct pp; try discriminate; try reflexivity;
          [ destruct Ht as [_ Ht]; specialize (Ht eq_refl);
            specialize (L3 eq_refl); congruence
          | congruence ]).
    all: specialize (L4 Hth eq_refl); rewrite L4 in *; discriminate.
  - unfold live_stop in *. rewrite step_pump_caller.
    destruct (step_pump_frame e m) as (_ & -> & _). exact H.
Qed.

Lemma run_live_stop (sch : list Action) :
  forall m, Inv m -> InvLife m -> no_call sch -> live_stop m ->
            live_stop (run sch m).
Proof.
  induction sch as [| a sch IH]; intros m HI HL Hn H; [exact H |].
  apply Forall_cons in Hn as [Ha Hn]. rewrite run_cons.
  apply IH; [apply step_Inv, HI | apply step_InvLife; assumption | exact Hn |].
  now apply step_live_stop.
Qed.

Lemma stop_progress (m : Machine) :
  Inv m -> InvLife m -> live_stop m ->
  (stop_rank (caller (step_caller m)) < stop_rank (caller m) \/
   stop_rank (caller (step_caller m)) <= 3)%nat.
Proof.
  destruct m as [c pc pp mx]. unfold Inv, InvK, InvLife, InvLifeK, live_stop.
  cbn [priv caller pump mutex].
  intros (Hi & Hw & Hm & Hx & Ht & Hn & Hb & Hs & Hf)
         (L1 & L3 & L4 & L5 & L6 & L7 & L8) H.
  assert (Hbl : starting pc = false -> before_loop pp = false).
  { intros E. destruct (before_loop pp) eqn:E'; [| reflexivity].
    destruct (Hb eq_refl). congruence. }
  unfold step_caller, acquire, goto_caller, goto_pump, upd, set_mutex.
  cbn [priv caller pump mutex].
  unfold ctl in *; simpl in *.
  destruct pc; try contradiction; cbn [stop_rank starting] in *;
    try (right; simpl; lia);
    rewrite ?Hi, ?H; simpl; try (left; lia).
  - (* the lock is free *)
    specialize (Hbl eq_refl). simpl in Hm.
    destruct pp; try discriminate; subst mx; simpl; left; lia.
  - (* the status is RUNNING *)
    specialize (Hbl eq_refl). specialize (L3 eq_refl).
    assert (Hth : thread_running pp = true).
    { destruct pp; try discriminate; try reflexivity;
        [destruct Ht as [_ Ht]; specialize (Ht eq_refl); congruence | congruence]. }
    rewrite (L4 Hth eq_refl). simpl. left. lia.
  - (* the join *)
    destruct pp; simpl; right; lia.
Qed.

Lemma stop_steps_progress (k : nat) :
  forall m, Inv m -> InvLife m -> live_stop m ->
            (stop_rank (caller (run (replicate k ACaller) m))
             <= Nat.max 3 (stop_rank (caller m) - k))%nat.
Proof.
  induction k as [| k IH]; intros m HI HL HS; [simpl; lia |].
  cbn [replicate]. rewrite run_cons. cbn [step].
  pose proof (stop_progress m HI HL HS) as Hp.
  assert (HI' : Inv (step_caller m)) by apply (step_Inv m ACaller HI).
  assert (HL' : InvLife (step_caller m)) by apply (step_InvLife m ACaller HI HL).
  assert (HS' : live_stop (step_caller m))
    by apply (step_live_stop m ACaller HI HL eq_refl HS).
  specialize (IH _ HI' HL' HS'). lia.
Qed.

Lemma exit_progress (e : Env) (m : Machine) :
  is_running_ (priv m) = false -> before_loop (pump m) = false ->
  (exit_rank (pump (step_pump e m)) < exit_rank (pump m) \/
   exit_rank (pump (step_pump e m)) = 0)%nat.
Proof.
  destruct m as [c pc pp mx]. cbn [priv caller pump mutex]. intros Hr Hbl.
  unfold step_pump, acquire, goto_caller, goto_pump, upd, set_mutex.
  cbn [priv caller pump mutex].
  destruct pp; try discriminate; rewrite ?Hr, ?andb_false_r; cbn [exit_rank pump];
    repeat match goal with
           | |- context [if ?x then _ else _] => destruct x
           | |- context [match mx with _ => _ end] => destruct mx
           end; cbn [exit_rank pump]; lia.
Qed.

Lemma exit_steps_progress (envs : list Env) (pc : CallerPc) :
  stop_signalled pc = true ->
  forall m, Inv m -> InvLife m -> caller m = pc ->
            (exit_rank (pump (run (APump <$> envs) m))
             <= exit_rank (pump m) - length envs)%nat /\
            caller (run (APump <$> envs) m) = pc.
Proof.
  intros Hpc. induction envs as [| e envs IH]; intros m HI HL Hc;
    [simpl; split; [lia | exact Hc] |].
  rewrite fmap_cons, run_cons. cbn [step].
  assert (Hr : is_running_ (priv m) = false).
  { destruct HL as (_ & _ & _ & L5 & _). apply L5. now rewrite Hc. }
  assert (Hbl : before_loop (pump m) = false).
  { destruct HI as (_ & _ & _ & _ & _ & _ & Hb & _).
    destruct (before_loop (pump m)) eqn:E; [| reflexivity].
    destruct (Hb eq_refl) as [_ Hst]. rewrite Hc in Hst.
    destruct pc; try discriminate. }
  pose proof (exit_progress e m Hr Hbl) as Hp.
  assert (HI' : Inv (step_pump e m)) by apply (step_Inv m (APump e) HI).
  assert (HL' : InvLife (step_pump e m)) by apply (step_InvLife m (APump e) HI HL).
  assert (Hc' : caller (step_pump e m) = pc) by (now rewrite step_pump_caller).
  destruct (IH _ HI' HL' Hc') as [H1 H2]. split; [cbn [length]; lia | exact H2].
Qed.

(** The last three steps of [stop()]: once the function of the thread has
    returned, or the thread has been joined. *)
Lemma stop_finishes (m : Machine) :
  Inv m -> InvLife m -> live_stop m ->
  (stop_rank (caller m) <= 3)%nat ->
  (caller m = C_stop_join -> pump m = P_done) ->
  caller (run (replicate 3 ACaller) m) = C_done OpStop (Returned true).
Proof.
  destruct m as [c pc pp mx]. unfold live_stop.
  cbn [priv caller pump mutex]. intros HI HL H Hrank Hj.
  destruct pc; try contradiction; cbn [stop_rank] in Hrank; try lia.
  - destruct op; try contradiction. destruct r as [[|] |]; try contradiction.
    reflexivity.
  - rewrite (Hj eq_refl). reflexivity.
  - reflexivity.
  - reflexivity.
Qed.

Lemma live_stop_signalled (m : Machine) :
  live_stop m -> (stop_rank (caller m) <= 3)%nat -> stop_signalled (caller m) = true.
Proof.
  unfold live_stop. intros HS Hrank.
  destruct (caller m) as [| op r | | | | | | | | | | | | | | | | | | | | |];
    try contradiction; cbn [stop_rank] in Hrank; try lia; try reflexivity.
  destruct op; try contradiction. destruct r as [[|] |]; try contradiction.
  reflexivity.
Qed.

Lemma live_stop_after_join (m m' : Machine) :
  live_stop m -> (stop_rank (caller m) <= 3)%nat -> caller m' = caller m ->
  live_stop m'.
Proof.
  unfold live_stop. intros HS Hrank ->.
  destruct (caller m) as [| op r | | | | | | | | | | | | | | | | | | | | |];
    try contradiction; try exact I; cbn [stop_rank] in Hrank; try lia.
  exact HS.
Qed.

Lemma live_stop_returns_true (sch : list Action) (envs : list Env) (m1 : Machine) :
  Inv m1 -> InvLife m1 -> live_stop m1 ->
  no_call sch ->
  length envs = 6%nat ->
  caller (run (sch ++ replicate 8 ACaller ++ (APump <$> envs) ++ replicate 3 ACaller) m1)
  = C_done OpStop (Returned true).
Proof.
  intros HI1 HL1 HS1 Hn Hlen.
  rewrite !run_app.
  assert (HI2 : Inv (run sch m1)) by (apply run_Inv, HI1).
  assert (HL2 : InvLife (run sch m1)) by (apply run_InvLife; assumption).
  assert (HS2 : live_stop (run sch m1)) by (apply run_live_stop; assumption).
  remember (run sch m1) as m2 eqn:Em2. clear Em2 HI1 HL1 HS1 m1.
  pose proof (stop_steps_progress 8 m2 HI2 HL2 HS2) as Hrank.
  assert (HI3 : Inv (run (replicate 8 ACaller) m2)) by (apply run_Inv, HI2).
  assert (HL3 : InvLife (run (replicate 8 ACaller) m2))
    by (apply run_InvLife; assumption).
  assert (HS3 : live_stop (run (replicate 8 ACaller) m2)).
  { apply run_live_stop; try assumption. repeat constructor. }
  assert (Hb : (stop_rank (caller m2) <= 11)%nat)
    by (destruct (caller m2); simpl; lia).
  remember (run (replicate 8 ACaller) m2) as m3 eqn:Em3.
  clear Em3 HI2 HL2 HS2.
  assert (Hrank3 : (stop_rank (caller m3) <= 3)%nat) by lia.
  clear Hrank Hb m2.
  assert (Hsig : stop_signalled (caller m3) = true) by (now apply live_stop_signalled).
  destruct (exit_steps_progress envs (caller m3) Hsig m3 HI3 HL3 eq_refl)
    as [Hexit Hc4].
  assert (HI4 : Inv (run (APump <$> envs) m3)) by (apply run_Inv, HI3).
  assert (HL4 : InvLife (run (APump <$> envs) m3))
    by (apply run_InvLife; assumption).
  assert (HS4 : live_stop (run (APump <$> envs) m3))
    by (apply (live_stop_after_join m3); assumption).
  assert (Hz : exit_rank (pump (run (APump <$> envs) m3)) = 0%nat).
  { assert (exit_rank (pump m3) <= 6)%nat by (destruct (pump m3); simpl; lia). lia. }
  remember (run (APump <$> envs) m3) as m4 eqn:Em4. clear Em4 Hexit.
  apply stop_finishes; try assumption.
  - now rewrite Hc4.
  - intros Hj. rewrite Hc4 in Hj.
    destruct HI4 as (_ & _ & _ & _ & Ht & Hnt & Hbl & _).
    destruct HL4 as (_ & L3 & _).
    rewrite Hc4, Hj in L3, Hbl. specialize (L3 eq_refl).
    destruct (pump m4) eqn:E; cbn [exit_rank] in Hz; try discriminate;
      try reflexivity;
      try (destruct (Hbl eq_refl); discriminate).
    + destruct Ht as [_ Ht]. specialize (Ht eq_refl).
      cbn in Ht, L3. congruence.
    + congruence.
Qed.


(** X6: [stop()] returns. In an execution of a constructed session, take a
    state between two calls in which the acquisition thread exists, and let
    the caller enter [stop()]: whatever the two threads do next and
    whatever the stream delivers, the call has returned true once the
    caller has taken eight more steps (it never waits on the condition
    variable: the thread is RUNNING), the acquisition thread six (it leaves
    its loops at their next test of [is_running_]), and the caller three
    (the join, the raw log, the return). *)
Theorem stop_returns_true
  (c : Private) (sch0 sch : list Action) (envs : list Env) :
  constructed c ->
  quiescent (run sch0 (initial c)) ->
  run_thread_ (priv (run sch0 (initial c))) = true ->
  no_call sch ->
  length envs = 6%nat ->
  caller (run (ACall OpStop :: sch ++ replicate 8 ACaller ++ (APump <$> envs)
                 ++ replicate 3 ACaller)
              (run sch0 (initial c)))
  = C_done OpStop (Returned true).
Proof.
  intros Hc Hq Hr Hn Hlen.
  assert (HI0 : Inv (run sch0 (initial c))) by (apply run_Inv, initial_Inv, Hc).
  assert (HL0 : InvLife (run sch0 (initial c))).
  { apply run_InvLife; [apply initial_Inv, Hc | apply initial_InvLife]. }
  assert (Hcall : call OpStop (run sch0 (initial c))
                  = goto_caller C_stop_check (run sch0 (initial c))).
  { unfold call. destruct (caller (run sch0 (initial c))) eqn:E;
      unfold quiescent in Hq; rewrite E in Hq; try contradiction; reflexivity. }
  rewrite run_cons.
  apply live_stop_returns_true; try assumption.
  - apply (step_Inv _ (ACall OpStop) HI0).
  - apply (step_InvLife _ (ACall OpStop) HI0 HL0).
  - change (live_stop (call OpStop (run sch0 (initial c)))).
    rewrite Hcall. exact Hr.
Qed.
Lemma stop_returns_true_witness :
  (constructed sample_file_session /\
   quiescent (run (start_then_poll (sample_env 10 1000)) (initial sample_file_session)) /\
   run_thread_ (priv (run (start_then_poll (sample_env 10 1000))
                          (initial sample_file_session))) = true /\
   no_call [APump (sample_env 20 1010)] /\
   length (replicate 6 (sample_env 30 1020)) = 6%nat) /\
  caller (run (ACall OpStop :: [APump (sample_env 20 1010)] ++ replicate 8 ACaller
                 ++ (APump <$> replicate 6 (sample_env 30 1020))
                 ++ replicate 3 ACaller)
              (run (start_then_poll (sample_env 10 1000)) (initial sample_file_session)))
  = C_done OpStop (Returned true).
Proof.
  assert (H1 : constructed sample_file_session).
  { repeat split; try reflexivity. discriminate. }
  assert (H2 : quiescent (run (start_then_poll (sample_env 10 1000))
                              (initial sample_file_session))) by exact I.
  assert (H3 : run_thread_ (priv (run (start_then_poll (sample_env 10 1000))
                                      (initial sample_file_session))) = true)
    by reflexivity.
  assert (H4 : no_call [APump (sample_env 20 1010)]) by (repeat constructor).
  assert (H5 : length (replicate 6 (sample_env 30 1020)) = 6%nat) by reflexivity.
  split; [exact (conj H1 (conj H2 (conj H3 (conj H4 H5)))) |].
  exact (stop_returns_true sample_file_session _ _ _ H1 H2 H3 H4 H5).
Defined.

(** *** Which thread does what *)

Lemma set_is_running_trace (b : bool) (c : Private) :
  exists ids : list CallbackId,
    trace (set_is_running b c) =
    trace c ++ ((fun id => EvStatusChange id (status_of b)) <$> ids).
Proof.
  destruct (decide (is_running_ c = b)) as [E | E].
  - exists []. rewrite set_is_running_same by exact E. now rewrite app_nil_r.
  - eexists. rewrite set_is_running_edge by exact E. reflexivity.
Qed.

Lemma end_run_trace (run_output : Z) (c : Private) :
  exists ids ids' : list CallbackId,
    trace (end_run run_output c) =
    trace c ++ ((fun id => EvRuntimeError id DataTransferFailed) <$> ids)
            ++ ((fun id => EvStatusChange id CameraStatus.STOPPED) <$> ids') /\
    (run_output <> -1 -> ids = []).
Proof.
  unfold end_run.
  destruct (Z.eqb_spec run_output (-1)) as [E | E].
  - destruct (set_is_running_trace false
                (emit ((fun callback => EvRuntimeError callback.1 DataTransferFailed)
                         <$> map_entries (runtime_error_callback_map_ c)) c))
      as [ids' H].
    exists (map_entries (runtime_error_callback_map_ c)).*1, ids'.
    split; [| contradiction].
    rewrite H, trace_emit, <- app_assoc, <- list_fmap_compose. reflexivity.
  - destruct (set_is_running_trace false c) as [ids' H].
    exists [], ids'. split; [| reflexivity]. rewrite H. reflexivity.
Qed.

Lemma Forall_fmap_intro {A} (P : Event -> Prop) (f : A -> Event) (l : list A) :
  (forall x, P (f x)) -> Forall P (f <$> l).
Proof. intros H. apply Forall_fmap, Forall_forall. intros x _. apply H. Qed.

Lemma step_caller_emits (m : Machine) :
  exists evs, trace (priv (step_caller m)) = trace (priv m) ++ evs /\
              Forall (caller_emits (priv m) (caller m)) evs.
Proof.
  destruct m as [c pc pp mx].
  unfold step_caller, acquire, upd, goto_caller, goto_pump, set_mutex.
  cbn [priv caller pump mutex].
  destruct pc;
    repeat match goal with
           | |- context [if ?x then _ else _] => destruct x eqn:?
           | |- context [match mx with _ => _ end] => destruct mx eqn:?
           | |- context [match pp with _ => _ end] => destruct pp eqn:?
           end;
    cbn [priv caller pump mutex];
    try (exists []; split; [now rewrite app_nil_r | constructor]).
  - eexists. split; [reflexivity |]. repeat constructor.
  - destruct (set_is_running_trace true c) as [ids H]. eexists. split; [exact H |].
    apply Forall_fmap_intro. intros id. reflexivity.
  - destruct (set_is_running_trace false c) as [ids H]. eexists. split; [exact H |].
    apply Forall_fmap_intro. intros id. reflexivity.
  - eexists. split; [reflexivity |]. repeat constructor.
  - eexists. split; [reflexivity |]. repeat constructor. assumption.
  - eexists. split; [reflexivity |]. repeat constructor.
  - eexists. split; [reflexivity |]. repeat constructor.
Qed.

Lemma step_pump_emits (e : Env) (m : Machine) :
  exists evs, trace (priv (step_pump e m)) = trace (priv m) ++ evs /\
              Forall (pump_emits (priv m) (pump m)) evs.
Proof.
  destruct m as [c pc pp mx].
  unfold step_pump, acquire, upd, goto_caller, goto_pump, set_mutex.
  cbn [priv caller pump mutex].
  destruct pp;
    repeat match goal with
           | |- context [if ?x then _ else _] => destruct x eqn:?
           | |- context [match mx with _ => _ end] => destruct mx eqn:?
           end;
    cbn [priv caller pump mutex fst snd];
    try (exists []; split; [now rewrite app_nil_r | constructor]);
    try (eexists; split; [reflexivity |]; repeat constructor; assumption).
  - (* the non-emulated branch *)
    eexists. split.
    + rewrite process_buffer_trace, trace_emit, <- app_assoc. reflexivity.
    + apply Forall_app. split; [repeat constructor |].
      apply Forall_app. split.
      * destruct (decide _); repeat constructor. assumption.
      * apply Forall_fmap_intro. intros id. assumption.
  - (* a sub-buffer *)
    eexists. split; [apply emulate_body_trace |].
    apply Forall_app. split; [repeat constructor |].
    apply Forall_app. split; [apply Forall_fmap_intro; intros id; exact I |].
    unfold sleep_of.
    match goal with |- context [if ?x then _ else _] => destruct x end;
      repeat constructor.
  - (* end_run *)
    destruct (end_run_trace run_output c) as (ids & ids' & H & Hne).
    eexists. split; [exact H |].
    apply Forall_app. split.
    + destruct (decide (run_output = -1)) as [E | E].
      * apply Forall_fmap_intro. intros id. exact E.
      * rewrite (Hne E). constructor.
    + apply Forall_fmap_intro. intros id. exact I.
Qed.

(** The configuration of a session does not change once it is constructed. *)
Lemma step_config (m : Machine) (a : Action) :
  is_init_ (priv (step m a)) = is_init_ (priv m) /\
  from_file_ (priv (step m a)) = from_file_ (priv m) /\
  emulate_real_time_ (priv (step m a)) = emulate_real_time_ (priv m) /\
  i_device_control_ (priv (step m a)) = i_device_control_ (priv m).
Proof.
  assert (H : k_init (ctl (priv (step m a))) = k_init (ctl (priv m)) /\
              k_file (ctl (priv (step m a))) = k_file (ctl (priv m)) /\
              k_emulate (ctl (priv (step m a))) = k_emulate (ctl (priv m)) /\
              k_devctl (ctl (priv (step m a))) = k_devctl (ctl (priv m)));
    [| exact H].
  destruct m as [c pc pp mx]. destruct a as [op | | e]; cbn [step].
  - unfold call. cbn [caller]. destruct pc; try destruct op; repeat split.
  - unfold step_caller, acquire, upd, goto_caller, goto_pump, set_mutex.
    cbn [priv caller pump mutex].
    destruct pc;
      repeat match goal with
             | |- context [if ?x then _ else _] => destruct x
             | |- context [match mx with _ => _ end] => destruct mx
             | |- context [match pp with _ => _ end] => destruct pp
             end;
      cbn [priv caller pump mutex];
      rewrite ?ctl_set_is_running, ?ctl_stop_recording, ?ctl_emit;
      repeat split.
  - unfold step_pump, acquire, upd, goto_caller, goto_pump, set_mutex.
    cbn [priv caller pump mutex].
    destruct pp;
      repeat match goal with
             | |- context [if ?x then _ else _] => destruct x
             | |- context [match mx with _ => _ end] => destruct mx
             end;
      cbn [priv caller pump mutex fst snd];
      rewrite ?ctl_end_run, ?ctl_process_buffer, ?ctl_emulate_body,
        ?ctl_init_clocks, ?ctl_emit;
      repeat split.
Qed.

Lemma call_priv (op : Op) (m : Machine) : priv (call op m) = priv m.
Proof. unfold call. destruct (caller m); try destruct op; reflexivity. Qed.

Section Emitted.

(** A property [Q] of the events that the steps taken from the states of
    [Good] emit holds of everything an execution adds to the trace. *)
Variable Good : Machine -> Prop.
Variable Q : Event -> Prop.

Hypothesis Good_step : forall m a, Good m -> Good (step m a).
Hypothesis Good_caller :
  forall m ev, Good m -> caller_emits (priv m) (caller m) ev -> Q ev.
Hypothesis Good_pump :
  forall m ev, Good m -> pump_emits (priv m) (pump m) ev -> Q ev.

Lemma step_emitted (m : Machine) (a : Action) :
  Good m ->
  exists evs, trace (priv (step m a)) = trace (priv m) ++ evs /\ Forall Q evs.
Proof.
  intros HG. destruct a as [op | | e]; cbn [step].
  - exists []. rewrite call_priv, app_nil_r. split; [reflexivity | constructor].
  - destruct (step_caller_emits m) as (evs & H & HF). exists evs.
    split; [exact H |]. eapply Forall_impl; [exact HF |].
    intros ev. now apply Good_caller.
  - destruct (step_pump_emits e m) as (evs & H & HF). exists evs.
    split; [exact H |]. eapply Forall_impl; [exact HF |].
    intros ev. now apply Good_pump.
Qed.

Lemma run_emitted (sch : list Action) :
  forall m, Good m ->
            exists t, trace (priv (run sch m)) = trace (priv m) ++ t /\ Forall Q t.
Proof.
  induction sch as [| a sch IH]; intros m HG.
  - exists []. rewrite app_nil_r. split; [reflexivity | constructor].
  - rewrite run_cons.
    destruct (step_emitted m a HG) as (evs & H1 & HF1).
    destruct (IH (step m a) (Good_step m a HG)) as (t & H2 & HF2).
    exists (evs ++ t). rewrite H2, H1, app_assoc. split; [reflexivity |].
    apply Forall_app. tauto.
Qed.

End Emitted.

Lemma sleeps_none (t : list Event) :
  Forall (fun ev => forall us, ev <> EvSleep us) t -> sleeps t = [].
Proof.
  induction 1 as [| ev t H _ IH]; [reflexivity |].
  unfold sleeps in *. cbn. rewrite IH.
  destruct ev; try reflexivity. now destruct (H us).
Qed.

Lemma device_events_none (t : list Event) :
  Forall (fun ev => is_device_event ev = false) t -> device_events t = [].
Proof.
  induction 1 as [| ev t H _ IH]; [reflexivity |].
  unfold device_events in *. rewrite filter_cons, IH.
  destruct (decide _) as [E | _]; [congruence | reflexivity].
Qed.

Lemma step_pump_not_emulating (e : Env) (m : Machine) :
  emulate_real_time_ (priv m) = false ->
  (forall r b b', pump m <> P_emulate r b b') ->
  forall r b b', pump (step_pump e m) <> P_emulate r b b'.
Proof.
  destruct m as [c pc pp mx]. cbn [priv caller pump mutex]. intros He Hp.
  unfold step_pump, acquire, upd, goto_caller, goto_pump, set_mutex.
  cbn [priv caller pump mutex].
  destruct pp; rewrite ?He;
    repeat match goal with
           | |- context [if ?x then _ else _] => destruct x
           | |- context [match mx with _ => _ end] => destruct mx
           end;
    cbn [priv caller pump mutex fst snd]; try discriminate; try exact Hp.
  intros r b b' _. now apply (Hp res ev_buffer ev_buffer_end).
Qed.

Lemma step_caller_pump (m : Machine) :
  pump (step_caller m) = pump m \/
  (caller m = C_start_spawn /\ pump (step_caller m) = P_lock) \/
  (caller m = C_stop_join /\ pump m = P_done /\ pump (step_caller m) = P_none).
Proof.
  destruct m as [c pc pp mx].
  unfold step_caller, acquire, upd, goto_caller, goto_pump, set_mutex.
  cbn [priv caller pump mutex].
  destruct pc;
    repeat match goal with
           | |- context [if ?x then _ else _] => destruct x
           | |- context [match mx with _ => _ end] => destruct mx
           | |- context [match pp with _ => _ end] => destruct pp
           end;
    cbn [priv caller pump mutex]; auto.
Qed.

Lemma call_pump (op : Op) (m : Machine) : pump (call op m) = pump m.
Proof. unfold call. destruct (caller m); try destruct op; reflexivity. Qed.

(** X7: a session that does not emulate real time never sleeps: whatever
    the calls, the schedule and the stream, the acquisition thread hands
    every buffer over as soon as it is polled, and the execution adds no
    [sleep_for] to what the session has done. *)
Theorem without_emulation_never_sleeps (c : Private) (sch : list Action) :
  emulate_real_time_ c = false ->
  sleeps (new_events c (priv (run sch (initial c)))) = [].
Proof.
  intros He.
  destruct (run_emitted
              (fun m => emulate_real_time_ (priv m) = false /\
                        forall r b b', pump m <> P_emulate r b b')
              (fun ev => forall us, ev <> EvSleep us)) with (sch := sch) (m := initial c)
    as (t & Ht & HF).
  - intros m a [H1 H2]. split.
    + destruct (step_config m a) as (_ & _ & -> & _). exact H1.
    + destruct a as [op | | e]; cbn [step].
      * now rewrite call_pump.
      * destruct (step_caller_pump m) as [-> | [[_ ->] | (_ & _ & ->)]];
          [exact H2 | discriminate | discriminate].
      * now apply step_pump_not_emulating.
    - intros m ev _ H us ->. exact H.
    - intros m ev [_ H2] H us ->. cbn in H.
      destruct (pump m) eqn:E; try contradiction. now apply (H2 res ev_buffer ev_buffer_end).
    - split; [exact He | discriminate].
    - cbn [initial priv] in Ht. rewrite (new_events_app _ _ _ Ht).
      now apply sleeps_none.
Qed.

Lemma without_emulation_never_sleeps_witness :
  emulate_real_time_ sample_plain_session = false /\
  sleeps (new_events sample_plain_session
            (priv (run sample_stop_run (initial sample_plain_session)))) = [].
Proof.
  split; [reflexivity |].
  exact (without_emulation_never_sleeps sample_plain_session sample_stop_run eq_refl).
Defined.

(** X8: a session that replays a file and holds no device-control facility
    never calls into one: whatever the calls, the schedule and the stream,
    the execution adds no [start], [reset] or [stop] of the device to what
    the session has done. *)
Theorem file_session_never_touches_device_control
  (c : Private) (sch : list Action) :
  from_file_ c = true -> i_device_control_ c = false ->
  device_events (new_events c (priv (run sch (initial c)))) = [].
Proof.
  intros Hf Hd.
  destruct (run_emitted
              (fun m => from_file_ (priv m) = true /\
                        i_device_control_ (priv m) = false)
              (fun ev => is_device_event ev = false)) with (sch := sch) (m := initial c)
    as (t & Ht & HF).
  - intros m a [H1 H2].
    destruct (step_config m a) as (_ & -> & _ & ->). auto.
  - intros m ev [_ H2] H. destruct ev; try reflexivity; cbn in H;
      try contradiction. destruct H. congruence.
  - intros m ev [H1 _] H. destruct ev; try reflexivity; cbn in H;
      destruct (pump m); try contradiction; congruence.
  - auto.
  - cbn [initial priv] in Ht. rewrite (new_events_app _ _ _ Ht).
    now apply device_events_none.
Qed.

Lemma file_session_never_touches_device_control_witness :
  (from_file_ sample_file_session = true /\
   i_device_control_ sample_file_session = false) /\
  device_events (new_events sample_file_session
                   (priv (run sample_stop_run (initial sample_file_session)))) = [].
Proof.
  split; [split; reflexivity |].
  exact (file_session_never_touches_device_control sample_file_session
           sample_stop_run eq_refl eq_refl).
Defined.

(** *** After a failure of the stream *)

Lemma failed_after_app (f : bool) (t1 t2 : list Event) :
  failed_after f (t1 ++ t2) = failed_after (failed_after f t1) t2.
Proof. apply foldl_app. Qed.

Lemma failed_after_cons (f : bool) (ev : Event) (t : list Event) :
  failed_after f (ev :: t) = failed_after (failed_after f [ev]) t.
Proof. reflexivity. Qed.

Lemma quiet_after_failure_app (t1 t2 : list Event) :
  forall f, quiet_after_failure f (t1 ++ t2) =
            quiet_after_failure f t1 && quiet_after_failure (failed_after f t1) t2.
Proof.
  induction t1 as [| ev t1 IH]; intros f; [reflexivity |].
  cbn [app quiet_after_failure]. rewrite IH, andb_assoc. reflexivity.
Qed.

(** Events that are neither a poll nor the creation of a thread leave the
    answer as it is; events that are not polls do not make it true. *)
Lemma failed_after_other (t : list Event) :
  Forall (fun ev => ev <> EvThreadSpawn /\ forall r, ev <> EvWaitNextBuffer r) t ->
  forall f, failed_after f t = f.
Proof.
  induction 1 as [| ev t [H1 H2] _ IH]; intros f; [reflexivity |].
  rewrite failed_after_cons, IH.
  destruct ev; try reflexivity; [contradiction | now destruct (H2 res)].
Qed.

Lemma failed_after_no_poll (t : list Event) :
  Forall (fun ev => forall r, ev <> EvWaitNextBuffer r) t ->
  forall f, failed_after f t = true -> f = true.
Proof.
  induction 1 as [| ev t H _ IH]; intros f Hf; [exact Hf |].
  rewrite failed_after_cons in Hf. apply IH in Hf.
  destruct ev; try exact Hf; [discriminate | now destruct (H res)].
Qed.

Lemma quiet_no_data (t : list Event) :
  Forall (fun ev => is_data_event ev = false) t ->
  forall f, quiet_after_failure f t = true.
Proof.
  induction 1 as [| ev t H _ IH]; intros f; [reflexivity |].
  cbn [quiet_after_failure]. rewrite H, andb_false_r. apply IH.
Qed.

Lemma quiet_not_failed (t : list Event) :
  Forall (fun ev => forall r, ev <> EvWaitNextBuffer r) t ->
  quiet_after_failure false t = true.
Proof.
  induction 1 as [| ev t H _ IH]; [reflexivity |].
  cbn [quiet_after_failure].
  replace (failed_after false [ev]) with false; [exact IH |].
  destruct ev; try reflexivity. now destruct (H res).
Qed.

Lemma caller_emits_no_data c pc (evs : list Event) :
  Forall (caller_emits c pc) evs ->
  Forall (fun ev => is_data_event ev = false) evs /\
  Forall (fun ev => forall r, ev <> EvWaitNextBuffer r) evs.
Proof.
  intros H. split; (eapply Forall_impl; [exact H |]); intros ev Hev;
    destruct ev; try reflexivity; try discriminate; contradiction.
Qed.

Lemma step_caller_spawn (m : Machine) :
  caller m = C_start_spawn ->
  trace (priv (step_caller m)) = trace (priv m) ++ [EvThreadSpawn].
Proof.
  destruct m as [c pc pp mx]. cbn [caller]. intros ->. reflexivity.
Qed.

(** What the poll does. *)
Lemma step_pump_poll (e : Env) (m : Machine) :
  pump m = P_poll ->
  trace (priv (step_pump e m)) = trace (priv m) ++ [EvWaitNextBuffer (env_res e)] /\
  (env_res e < 0 -> loop_exited (pump (step_pump e m)) = true).
Proof.
  destruct m as [c pc pp mx]. cbn [pump]. intros ->.
  unfold step_pump, upd, goto_pump. cbn [priv caller pump mutex].
  destruct (Z.ltb_spec (env_res e) 0); [| destruct (0 <? env_res e)];
    cbn [priv pump]; (split; [reflexivity | intros; try reflexivity; lia]).
Qed.

Lemma step_pump_exited (e : Env) (m : Machine) :
  loop_exited (pump m) = true -> loop_exited (pump (step_pump e m)) = true.
Proof.
  destruct m as [c pc pp mx]. cbn [pump].
  unfold step_pump, upd, goto_pump. cbn [priv caller pump mutex].
  destruct pp; try discriminate; reflexivity.
Qed.

Lemma pump_emits_exited c pp (evs : list Event) :
  loop_exited pp = true ->
  Forall (pump_emits c pp) evs ->
  Forall (fun ev => is_data_event ev = false) evs /\
  Forall (fun ev => ev <> EvThreadSpawn /\ forall r, ev <> EvWaitNextBuffer r) evs.
Proof.
  intros Hp H. split; (eapply Forall_impl; [exact H |]); intros ev Hev;
    destruct ev, pp; try discriminate; try contradiction;
      try reflexivity; (split; [discriminate | discriminate]).
Qed.

Lemma pump_emits_no_poll c pp (evs : list Event) :
  pp <> P_poll ->
  Forall (pump_emits c pp) evs ->
  Forall (fun ev => ev <> EvThreadSpawn /\ forall r, ev <> EvWaitNextBuffer r) evs.
Proof.
  intros Hp H. eapply Forall_impl; [exact H |]. intros ev Hev.
  destruct ev, pp; try contradiction; (split; [discriminate | discriminate]).
Qed.

Lemma step_quiet (f : bool) (m : Machine) (a : Action) :
  (f = true -> loop_exited (pump m) = true) ->
  exists evs,
    trace (priv (step m a)) = trace (priv m) ++ evs /\
    quiet_after_failure f evs = true /\
    (failed_after f evs = true -> loop_exited (pump (step m a)) = true).
Proof.
  intros Hf. destruct a as [op | | e]; cbn [step].
  - exists []. rewrite call_priv, call_pump, app_nil_r. auto.
  - destruct (step_caller_emits m) as (evs & H & HF). exists evs.
    destruct (caller_emits_no_data _ _ _ HF) as [Hnd Hnp].
    split; [exact H |]. split; [now apply quiet_no_data |].
    destruct (step_caller_pump m) as [-> | [[Hpc Hpp] | (_ & _ & ->)]].
    + intros Hfa. apply Hf. now apply (failed_after_no_poll evs).
    + rewrite (step_caller_spawn m Hpc) in H. apply app_inv_head in H. subst evs.
      discriminate.
    + reflexivity.
  - assert (Hpoll : pump m = P_poll \/ pump m <> P_poll)
      by (destruct (pump m); auto; right; discriminate).
    destruct Hpoll as [Hp | Hp].
    + destruct (step_pump_poll e m Hp) as [H Hex]. eexists. split; [exact H |].
      assert (Ef : f = false).
      { destruct f; [| reflexivity]. specialize (Hf eq_refl). rewrite Hp in Hf.
        discriminate. }
      subst f. split; [reflexivity |].
      cbn. intros Hneg. apply Hex. now apply Z.ltb_lt.
    + destruct (step_pump_emits e m) as (evs & H & HF). exists evs.
      split; [exact H |].
      pose proof (pump_emits_no_poll _ _ _ Hp HF) as Hnp.
      rewrite (failed_after_other evs Hnp).
      destruct f.
      * specialize (Hf eq_refl).
        destruct (pump_emits_exited _ _ _ Hf HF) as [Hnd _].
        split; [now apply quiet_no_data |]. intros _. now apply step_pump_exited.
      * split; [| discriminate]. apply quiet_not_failed.
        eapply Forall_impl; [exact Hnp |]. intros ev [_ Hev]. exact Hev.
Qed.

Lemma run_quiet (sch : list Action) :
  forall (f : bool) (m : Machine),
    (f = true -> loop_exited (pump m) = true) ->
    exists t, trace (priv (run sch m)) = trace (priv m) ++ t /\
              quiet_after_failure f t = true.
Proof.
  induction sch as [| a sch IH]; intros f m Hf.
  - exists []. rewrite app_nil_r. auto.
  - rewrite run_cons.
    destruct (step_quiet f m a Hf) as (evs & H1 & Hq1 & Hf1).
    destruct (IH (failed_after f evs) (step m a) Hf1) as (t & H2 & Hq2).
    exists (evs ++ t). rewrite H2, H1, app_assoc. split; [reflexivity |].
    rewrite quiet_after_failure_app, Hq1, Hq2. reflexivity.
Qed.

(** Once a poll has failed, nothing consumes the stream until a thread is
    created. *)
Lemma quiet_after_failing_poll (t2 : list Event) (ev : Event) (t3 : list Event) :
  quiet_after_failure true (t2 ++ ev :: t3) = true ->
  EvThreadSpawn ∉ t2 ->
  is_data_event ev = false.
Proof.
  induction t2 as [| ev2 t2 IH]; cbn [app quiet_after_failure]; intros Hq Hs.
  - apply andb_true_iff in Hq as [Hq _]. now destruct (is_data_event ev).
  - apply andb_true_iff in Hq as [Hq1 Hq2]. apply IH.
    + replace (failed_after true [ev2]) with true in Hq2; [exact Hq2 |].
      destruct ev2; try reflexivity.
      * exfalso. apply Hs. left.
      * discriminate.
    + intros Hin. apply Hs. now right.
Qed.

(** X9: once [wait_next_buffer] has returned a negative value, the session
    consumes nothing more from the stream until a new thread is created:
    in what an execution adds to the trace, no poll, no
    [get_latest_raw_data], no decoding, no raw-buffer callback and no sleep
    comes after a failed poll unless a thread creation lies in between. *)
Theorem no_data_event_after_stream_failure
  (c : Private) (sch : list Action)
  (t1 : list Event) (r : Z) (t2 : list Event) (ev : Event) (t3 : list Event) :
  new_events c (priv (run sch (initial c)))
  = t1 ++ EvWaitNextBuffer r :: t2 ++ ev :: t3 ->
  r < 0 ->
  EvThreadSpawn ∉ t2 ->
  is_data_event ev = false.
Proof.
  intros Ht Hr Hs.
  destruct (run_quiet sch false (initial c)) as (t & H & Hq); [discriminate |].
  cbn [initial priv] in H. rewrite (new_events_app _ _ _ H) in Ht. subst t.
  rewrite quiet_after_failure_app in Hq. apply andb_true_iff in Hq as [_ Hq].
  cbn [quiet_after_failure] in Hq. apply andb_true_iff in Hq as [_ Hq].
  apply (quiet_after_failing_poll t2 ev t3); [| exact Hs].
  replace (failed_after (failed_after false t1) [EvWaitNextBuffer r]) with true in Hq;
    [exact Hq |].
  cbn. symmetry. now apply Z.ltb_lt.
Qed.

Lemma no_data_event_after_stream_failure_witness :
  (new_events sample_live
     (priv (run (start_then_poll stream_failure ++ replicate 2 (APump stream_failure))
                (initial sample_live)))
   = [EvThreadSpawn; EvStatusChange 2 CameraStatus.STARTED; EvStreamStart;
      EvDeviceStart; EvDeviceReset]
     ++ EvWaitNextBuffer (-1) :: [] ++ EvStatusChange 2 CameraStatus.STOPPED :: [] /\
   -1 < 0 /\ EvThreadSpawn ∉ @nil Event) /\
  is_data_event (EvStatusChange 2 CameraStatus.STOPPED) = false.
Proof.
  assert (H1 : new_events sample_live
     (priv (run (start_then_poll stream_failure ++ replicate 2 (APump stream_failure))
                (initial sample_live)))
   = [EvThreadSpawn; EvStatusChange 2 CameraStatus.STARTED; EvStreamStart;
      EvDeviceStart; EvDeviceReset]
     ++ EvWaitNextBuffer (-1) :: [] ++ EvStatusChange 2 CameraStatus.STOPPED :: [])
    by reflexivity.
  assert (H2 : -1 < 0) by lia.
  assert (H3 : EvThreadSpawn ∉ @nil Event) by apply not_elem_of_nil.
  split; [exact (conj H1 (conj H2 H3)) |].
  exact (no_data_event_after_stream_failure sample_live _ _ _ _ _ _ H1 H2 H3).
Defined.

(** *** Whole events *)

Lemma sub_buffer_sizes_whole (s n : Z) :
  0 < s -> 0 <= n -> (s | n) ->
  Forall (fun x => 0 < x <= 1024 * s /\ (s | x)) (sub_buffer_sizes n (1024 * s)).
Proof.
  intros Hs Hn Hd. unfold sub_buffer_sizes. apply Forall_app. split.
  - apply Forall_replicate. split; [lia |]. exists 1024. lia.
  - destruct (Z.eqb_spec (n mod (1024 * s)) 0) as [E | E]; constructor; [| constructor].
    pose proof (Z.mod_pos_bound n (1024 * s)) as Hb. split; [lia |].
    rewrite Z.mod_eq by lia. apply Z.divide_sub_r; [exact Hd |].
    apply Z.divide_mul_l. exists 1024. lia.
Qed.

Lemma consecutive_whole (s base : Z) (sizes : list Z) :
  Forall (fun x => 0 < x <= 1024 * s /\ (s | x)) sizes ->
  forall b, (s | b - base) ->
            Forall (fun r : Z * Z => (s | r.1 - base) /\ (s | r.2 - r.1) /\
                                     0 < r.2 - r.1 <= 1024 * s)
                   (consecutive b sizes).
Proof.
  induction 1 as [| x sizes [Hx Hd] _ IH]; intros b Hb; cbn [consecutive];
    constructor.
  - cbn [fst snd]. replace (b + x - b) with x by lia. auto.
  - apply IH. replace (b + x - base) with ((b - base) + x) by lia.
    now apply Z.divide_add_r.
Qed.

(** X10: the emulator never cuts a raw event in two. With a raw event size
    [s] of at least 1 byte and below 2^22, the step is [1024 * s] bytes (the
    minimum of 128 never applies), and a buffer of [n < 2^32] bytes holding
    whole events is decoded, while the session runs, in sub-buffers that
    each start at a whole number of events from the start of the buffer
    and hold a whole number of events, at least 1 and at most 1024. *)
Theorem emulate_real_time_decodes_whole_events
  (envs : list Env) (ev_buffer n_rawbytes : Z) (c : Private) :
  is_running_ c = true ->
  0 <= n_rawbytes < 2 ^ 32 ->
  1 <= raw_event_size_bytes c < 2 ^ 22 ->
  (raw_event_size_bytes c | n_rawbytes) ->
  (length (sub_buffer_sizes n_rawbytes (1024 * raw_event_size_bytes c))
     <= length envs)%nat ->
  bytes_step_to_decode c = 1024 * raw_event_size_bytes c /\
  exists c',
    emulate_real_time envs ev_buffer n_rawbytes c = Finished c' /\
    Forall (fun r : Z * Z =>
              (raw_event_size_bytes c | r.1 - ev_buffer) /\
              (raw_event_size_bytes c | r.2 - r.1) /\
              0 < r.2 - r.1 <= 1024 * raw_event_size_bytes c)
           (decoded_ranges (new_events c c')).
Proof.
  intros Hrun Hn Hs Hd Hlen.
  assert (Hmax : Z.max 128 (1024 * raw_event_size_bytes c)
                 = 1024 * raw_event_size_bytes c) by lia.
  split; [rewrite bytes_step_to_decode_in_range by lia; exact Hmax |].
  destruct (emulate_real_time_sub_buffers envs ev_buffer n_rawbytes c)
    as (c' & Hc' & Ht); try assumption; try lia.
  - now rewrite Hmax.
  - exists c'. split; [exact Hc' |]. rewrite Ht, Hmax.
    apply consecutive_whole.
    + apply sub_buffer_sizes_whole; [lia | lia | exact Hd].
    + replace (ev_buffer - ev_buffer) with 0 by lia. apply Z.divide_0_r.
Qed.

Lemma emulate_real_time_decodes_whole_events_witness :
  (is_running_ sample_replay = true /\
   0 <= 10000 < 2 ^ 32 /\
   1 <= raw_event_size_bytes sample_replay < 2 ^ 22 /\
   (raw_event_size_bytes sample_replay | 10000) /\
   (length (sub_buffer_sizes 10000 (1024 * raw_event_size_bytes sample_replay))
    <= length (replicate 3 (sample_env 10 1000)))%nat) /\
  bytes_step_to_decode sample_replay = 4096.
Proof.
  assert (H1 : is_running_ sample_replay = true) by reflexivity.
  assert (H2 : 0 <= 10000 < 2 ^ 32) by lia.
  assert (H3 : 1 <= raw_event_size_bytes sample_replay < 2 ^ 22) by (cbn; lia).
  assert (H4 : (raw_event_size_bytes sample_replay | 10000)) by (exists 2500; reflexivity).
  assert (H5 : (length (sub_buffer_sizes 10000 (1024 * raw_event_size_bytes sample_replay))
                <= length (replicate 3 (sample_env 10 1000)))%nat)
    by (vm_compute; lia).
  split; [exact (conj H1 (conj H2 (conj H3 (conj H4 H5)))) |].
  exact (proj1 (emulate_real_time_decodes_whole_events
                  (replicate 3 (sample_env 10 1000)) 4096 10000 sample_replay
                  H1 H2 H3 H4 H5)).
Defined.

(** *** Calls of [set_is_running] that overlap *)

Example stop_reaches_set_is_running_with_end_run :
  let m := run stop_meets_end_run (initial sample_live) in
  caller m = C_stop_set_running /\ pump m = P_end_run 1 /\
  is_running_ (priv m) = true /\
  priv (step m ACaller) = set_is_running false (priv m) /\
  priv (step m (APump stream_failure)) = set_is_running false (priv m).
Proof. vm_compute. repeat split; reflexivity. Qed.

Lemma times_notified_app id s t t' :
  times_notified id s (t ++ t') = (times_notified id s t + times_notified id s t')%nat.
Proof. unfold times_notified. now rewrite filter_app, length_app. Qed.

Lemma times_notified_one id s id' :
  times_notified id s [EvStatusChange id' s] = if decide (id' = id) then 1%nat else 0%nat.
Proof.
  unfold times_notified. rewrite filter_cons, filter_nil.
  destruct (decide (id' = id)) as [-> | Hne].
  - now rewrite decide_True.
  - rewrite decide_False; [reflexivity |]. intros [= E]. contradiction.
Qed.

Lemma still_to_notify_entries (m : gmap CallbackId Handler) (id : CallbackId) :
  is_Some (m !! id) ->
  still_to_notify id (S_notify (map_entries m)) = 1%nat.
Proof.
  intros Hid. simpl.
  pose proof (map_entries_keys_NoDup m) as Hnd.
  apply (map_entries_keys_registered m id) in Hid.
  induction (map_entries m) as [|[k h] l IH]; [inversion Hid |].
  rewrite fmap_cons in Hnd, Hid. apply NoDup_cons in Hnd as [Hk Hnd].
  rewrite filter_cons. simpl. destruct (decide (k = id)) as [-> | Hne].
  - simpl. f_equal. apply length_zero_iff_nil.
    destruct (filter _ l) as [|[k' h'] l'] eqn:E; [reflexivity |].
    exfalso. apply Hk.
    assert (Hin : (k', h') ∈ filter (fun callback : CallbackId * Handler => callback.1 = id) l)
      by (rewrite E; left).
    apply list_elem_of_filter in Hin as [Hk' Hin]. simpl in Hk'. subst k'.
    apply list_elem_of_fmap. exists (id, h'). auto.
  - apply IH; [| assumption].
    apply elem_of_cons in Hid as [E | Hid]; [simpl in E; congruence | assumption].
Qed.

(** What holds while two calls that have both passed the test run. *)
Lemma overlap_step_notified (b : bool) (c : Private) (id : CallbackId)
    (o : Overlap) (th : Thread) (t : list Event) :
  is_Some (status_change_callback_map_ c !! id) ->
  status_change_callback_map_ (o_priv o) = status_change_callback_map_ c ->
  trace (o_priv o) = trace c ++ t ->
  o_caller o <> S_test -> o_pump o <> S_test ->
  (o_caller o <> S_write \/ o_pump o <> S_write -> is_running_ (o_priv o) = b) ->
  exists t',
    status_change_callback_map_ (o_priv (overlap_step b o th))
      = status_change_callback_map_ c /\
    trace (o_priv (overlap_step b o th)) = trace c ++ t' /\
    o_caller (overlap_step b o th) <> S_test /\
    o_pump (overlap_step b o th) <> S_test /\
    (o_caller (overlap_step b o th) <> S_write \/
     o_pump (overlap_step b o th) <> S_write ->
     is_running_ (o_priv (overlap_step b o th)) = b) /\
    (times_notified id (status_of b) t'
     + still_to_notify id (o_caller (overlap_step b o th))
     + still_to_notify id (o_pump (overlap_step b o th)))%nat
    = (times_notified id (status_of b) t
       + still_to_notify id (o_caller o) + still_to_notify id (o_pump o))%nat.
Proof.
  intros Hid Hmap Htr Hc Hp Hrun.
  destruct o as [c0 pc pp].
  cbn -[still_to_notify times_notified map_entries] in *.
  destruct th; cbn -[still_to_notify times_notified map_entries].
  - destruct pc as [| | |[|[k h] l]|];
      cbn -[still_to_notify times_notified map_entries]; try contradiction.
    + exists t. repeat split; try assumption; try discriminate; auto.
    + exists t. rewrite Hmap, (still_to_notify_entries _ id Hid).
      repeat split; try assumption; try discriminate; auto.
    + exists t. repeat split; try assumption; try discriminate; auto.
    + exists (t ++ [EvStatusChange k (status_of b)]).
      rewrite Htr, <- app_assoc, times_notified_app, times_notified_one.
      repeat split; try assumption; try discriminate; auto.
      simpl. rewrite filter_cons. simpl. destruct (decide (k = id)); simpl; lia.
    + exists t. repeat split; try assumption; try discriminate; auto.
  - destruct pp as [| | |[|[k h] l]|];
      cbn -[still_to_notify times_notified map_entries]; try contradiction.
    + exists t. repeat split; try assumption; try discriminate; auto.
    + exists t. rewrite Hmap, (still_to_notify_entries _ id Hid).
      repeat split; try assumption; try discriminate; auto.
    + exists t. repeat split; try assumption; try discriminate; auto.
    + exists (t ++ [EvStatusChange k (status_of b)]).
      rewrite Htr, <- app_assoc, times_notified_app, times_notified_one.
      repeat split; try assumption; try discriminate; auto.
      simpl. rewrite filter_cons. simpl. destruct (decide (k = id)); simpl; lia.
    + exists t. repeat split; try assumption; try discriminate; auto.
Qed.

Lemma overlap_run_notified (b : bool) (c : Private) (id : CallbackId)
    (sch : list Thread) : forall (o : Overlap) (t : list Event),
  is_Some (status_change_callback_map_ c !! id) ->
  status_change_callback_map_ (o_priv o) = status_change_callback_map_ c ->
  trace (o_priv o) = trace c ++ t ->
  o_caller o <> S_test -> o_pump o <> S_test ->
  (o_caller o <> S_write \/ o_pump o <> S_write -> is_running_ (o_priv o) = b) ->
  exists t',
    trace (o_priv (overlap_run b sch o)) = trace c ++ t' /\
    (o_caller (overlap_run b sch o) <> S_write \/
     o_pump (overlap_run b sch o) <> S_write ->
     is_running_ (o_priv (overlap_run b sch o)) = b) /\
    (times_notified id (status_of b) t'
     + still_to_notify id (o_caller (overlap_run b sch o))
     + still_to_notify id (o_pump (overlap_run b sch o)))%nat
    = (times_notified id (status_of b) t
       + still_to_notify id (o_caller o) + still_to_notify id (o_pump o))%nat.
Proof.
  induction sch as [|th sch IH]; intros o t Hid Hmap Htr Hc Hp Hrun.
  - exists t. auto.
  - destruct (overlap_step_notified b c id o th t Hid Hmap Htr Hc Hp Hrun)
      as (t1 & Hmap1 & Htr1 & Hc1 & Hp1 & Hrun1 & Hcount1).
    destruct (IH (overlap_step b o th) t1 Hid Hmap1 Htr1 Hc1 Hp1 Hrun1)
      as (t2 & Htr2 & Hrun2 & Hcount2).
    exists t2. simpl. rewrite <- Hcount1. auto.
Qed.

Lemma emit_no_event (c : Private) : emit [] c = c.
Proof. unfold emit. rewrite app_nil_r. reflexivity. Qed.

Lemma emit_more_events (evs evs' : list Event) (c : Private) :
  emit evs' (emit evs c) = emit (evs ++ evs') c.
Proof. unfold emit. cbn. rewrite app_assoc. reflexivity. Qed.

Lemma overlap_run_returned (b : bool) (n : nat) (c : Private) (pp : SetIsRunningPc) :
  overlap_run b (replicate n Caller) {| o_priv := c; o_caller := S_return; o_pump := pp |}
  = {| o_priv := c; o_caller := S_return; o_pump := pp |}.
Proof. induction n as [|n IH]; [reflexivity | exact IH]. Qed.

Lemma overlap_run_notify_loop (b : bool) (l : list (CallbackId * Handler)) :
  forall (c : Private) (pp : SetIsRunningPc),
  overlap_run b (replicate (S (length l)) Caller)
    {| o_priv := c; o_caller := S_notify l; o_pump := pp |}
  = {| o_priv := emit ((fun callback : CallbackId * Handler =>
                          EvStatusChange callback.1
                            (if b then CameraStatus.STARTED else CameraStatus.STOPPED))
                         <$> l) c;
       o_caller := S_return; o_pump := pp |}.
Proof.
  induction l as [|callback l IH]; intros c pp.
  - cbn. now rewrite emit_no_event.
  - change (overlap_run b (replicate (S (length (callback :: l))) Caller)
              {| o_priv := c; o_caller := S_notify (callback :: l); o_pump := pp |})
      with (overlap_run b (replicate (S (length l)) Caller)
              {| o_priv := emit [EvStatusChange callback.1
                                   (if b then CameraStatus.STARTED
                                    else CameraStatus.STOPPED)] c;
                 o_caller := S_notify l; o_pump := pp |}).
    rewrite IH, emit_more_events. reflexivity.
Qed.

(** A call of [set_is_running] that runs alone does what the function
    taken as a whole does. *)
Lemma set_is_running_run_alone (b : bool) (c : Private) :
  let n := length (map_entries (status_change_callback_map_ c)) in
  let o := overlap_run b (replicate (4 + n) Caller) (two_calls c) in
  o_caller o = S_return /\ o_priv o = set_is_running b c.
Proof.
  intros n o. subst o n. unfold two_calls, set_is_running.
  set (l := map_entries (status_change_callback_map_ c)).
  change (replicate (4 + length l) Caller)
    with (Caller :: Caller :: Caller :: replicate (S (length l)) Caller).
  unfold overlap_run. cbn [foldl overlap_step step_set_is_running o_priv o_caller o_pump fst snd].
  destruct (negb (Bool.eqb (is_running_ c) b)).
  - cbn [foldl overlap_step step_set_is_running o_priv o_caller o_pump fst snd].
    change (status_change_callback_map_ (set_is_running_ b c))
      with (status_change_callback_map_ c).
    fold l. fold (overlap_run b (replicate (S (length l)) Caller)
                    {| o_priv := set_is_running_ b c; o_caller := S_notify l;
                       o_pump := S_test |}).
    rewrite overlap_run_notify_loop. split; reflexivity.
  - cbn [foldl overlap_step step_set_is_running o_priv o_caller o_pump fst snd].
    fold (overlap_run b (replicate (S (length l)) Caller)
            {| o_priv := c; o_caller := S_return; o_pump := S_test |}).
    rewrite overlap_run_returned. split; reflexivity.
Qed.

(** C3, when [stop()] meets [end_run()]: two calls of [set_is_running]
    with the value that [is_running_] does not hold, one on each thread,
    which both test [is_running_] before either has written it, both find
    a transition to make. Whatever the order of their statements from
    there on, once both have returned [is_running_] has changed once, to the
    value asked for, and every registered status-change callback has been
    invoked twice with the status of this one transition. *)
Theorem overlapping_set_is_running_notifies_twice
  (b : bool) (c : Private) (id : CallbackId) (sch : list Thread) :
  is_running_ c <> b ->
  is_Some (status_change_callback_map_ c !! id) ->
  let o := overlap_run b (Caller :: Pump :: sch) (two_calls c) in
  o_caller o = S_return -> o_pump o = S_return ->
  is_running_ (o_priv o) = b /\
  times_notified id (status_of b) (new_events c (o_priv o)) = 2%nat.
Proof.
  intros Hne Hid o Hc Hp. subst o. unfold two_calls in *. simpl in Hc, Hp |- *.
  assert (E : negb (Bool.eqb (is_running_ c) b) = true).
  { destruct (is_running_ c), b; try reflexivity; contradiction Hne; reflexivity. }
  rewrite E in *. simpl in *.
  destruct (overlap_run_notified b c id sch
              {| o_priv := c; o_caller := S_write; o_pump := S_write |} []
              Hid eq_refl (eq_sym (app_nil_r _)))
    as (t & Htr & Hrun & Hcount); try discriminate.
  { simpl. intros [H | H]; contradiction H; reflexivity. }
  unfold overlap_run in *. rewrite Hc, Hp in Hrun, Hcount. simpl in Hcount.
  split; [apply Hrun; left; discriminate |].
  unfold new_events. rewrite Htr, drop_app_length. lia.
Qed.

Lemma overlapping_set_is_running_notifies_twice_witness :
  let m := run stop_meets_end_run (initial sample_live) in
  let o := overlap_run false (both_test_first 1) (two_calls (priv m)) in
  (caller m = C_stop_set_running /\ pump m = P_end_run 1) /\
  is_running_ (priv m) <> false /\
  is_Some (status_change_callback_map_ (priv m) !! 2) /\
  o_caller o = S_return /\ o_pump o = S_return /\
  is_running_ (o_priv o) = false /\
  times_notified 2 CameraStatus.STOPPED (new_events (priv m) (o_priv o)) = 2%nat /\
  new_events (priv m) (o_priv o) =
    [EvStatusChange 2 CameraStatus.STOPPED; EvStatusChange 2 CameraStatus.STOPPED].
Proof.
  assert (H1 : is_running_ (priv (run stop_meets_end_run (initial sample_live))) <> false)
    by (vm_compute; discriminate).
  assert (H2 : is_Some (status_change_callback_map_
                          (priv (run stop_meets_end_run (initial sample_live))) !! 2))
    by (vm_compute; eauto).
  assert (H3 : o_caller (overlap_run false (both_test_first 1)
                 (two_calls (priv (run stop_meets_end_run (initial sample_live)))))
               = S_return) by (vm_compute; reflexivity).
  assert (H4 : o_pump (overlap_run false (both_test_first 1)
                 (two_calls (priv (run stop_meets_end_run (initial sample_live)))))
               = S_return) by (vm_compute; reflexivity).
  pose proof (overlapping_set_is_running_notifies_twice false
                (priv (run stop_meets_end_run (initial sample_live))) 2
                (replicate 4 Caller ++ replicate 4 Pump) H1 H2 H3 H4) as [H5 H6].
  split; [vm_compute; split; reflexivity |].
  exact (conj H1 (conj H2 (conj H3 (conj H4 (conj H5 (conj H6 eq_refl)))))).
Defined.

End CameraSpec.

Module CameraApiSpec.
Import Camera CameraSpec CameraApi.

(** *** The callback registry *)

(** X11: removing a status-change or a runtime-error callback returns true
    exactly when the identifier is registered; the identifier is then no
    longer registered and every other registration is as it was; removing
    it a second time returns false and changes nothing. *)
Theorem remove_callback_twice (id : CallbackId) (c : Private) :
  let r := remove_status_change_callback id c in
  let e := remove_runtime_error_callback id c in
  ((r.2 = true <-> is_Some (status_change_callback_map_ c !! id)) /\
   status_change_callback_map_ r.1 !! id = None /\
   (forall id', id' <> id ->
                status_change_callback_map_ r.1 !! id'
                = status_change_callback_map_ c !! id') /\
   remove_status_change_callback id r.1 = (r.1, false)) /\
  ((e.2 = true <-> is_Some (runtime_error_callback_map_ c !! id)) /\
   runtime_error_callback_map_ e.1 !! id = None /\
   (forall id', id' <> id ->
                runtime_error_callback_map_ e.1 !! id'
                = runtime_error_callback_map_ c !! id') /\
   remove_runtime_error_callback id e.1 = (e.1, false)).
Proof.
  cbn zeta. split.
  - unfold remove_status_change_callback.
    destruct (status_change_callback_map_ c !! id) as [cb |] eqn:E; cbn.
    + split; [split; [eauto | reflexivity] |].
      split; [apply lookup_delete_eq |].
      split; [intros id' Hne; now apply lookup_delete_ne |].
      now rewrite lookup_delete_eq.
    + split; [split; [discriminate | intros [? ?]; discriminate] |].
      split; [exact E |]. split; [reflexivity |]. now rewrite E.
  - unfold remove_runtime_error_callback.
    destruct (runtime_error_callback_map_ c !! id) as [cb |] eqn:E; cbn.
    + split; [split; [eauto | reflexivity] |].
      split; [apply lookup_delete_eq |].
      split; [intros id' Hne; now apply lookup_delete_ne |].
      now rewrite lookup_delete_eq.
    + split; [split; [discriminate | intros [? ?]; discriminate] |].
      split; [exact E |]. split; [reflexivity |]. now rewrite E.
Qed.

Lemma status_changes_fmap (s : CameraStatus.t) (ids : list CallbackId) :
  status_changes ((fun id => EvStatusChange id s) <$> ids) = (fun id => (id, s)) <$> ids.
Proof.
  induction ids as [| id ids IH]; [reflexivity |].
  rewrite !fmap_cons. unfold status_changes in *. cbn. now rewrite IH.
Qed.

Lemma status_changes_set_is_running (b : bool) (c : Private) :
  is_running_ c <> b ->
  status_changes (new_events c (set_is_running b c)) =
  (fun id => (id, status_of b)) <$> (map_entries (status_change_callback_map_ c)).*1.
Proof.
  intros Hne. rewrite set_is_running_edge by exact Hne.
  rewrite (new_events_app c _ _ (trace_emit _ (set_is_running_ b c))).
  apply status_changes_fmap.
Qed.

Lemma notified_iff (b : bool) (c : Private) (id : CallbackId) (s : CameraStatus.t) :
  is_running_ c <> b ->
  (id, s) ∈ status_changes (new_events c (set_is_running b c)) <->
  s = status_of b /\ is_Some (status_change_callback_map_ c !! id).
Proof.
  intros Hne. rewrite status_changes_set_is_running by exact Hne.
  rewrite list_elem_of_fmap. split.
  - intros (id' & [= -> ->] & Hin). split; [reflexivity |].
    now apply map_entries_keys_registered.
  - intros [-> Hreg]. exists id. split; [reflexivity |].
    now apply map_entries_keys_registered.
Qed.

(** X12: a status-change callback is notified from its registration to its
    removal. After [add_status_change_callback] has returned the
    identifier, a call of [set_is_running] that changes [is_running_]
    invokes the callbacks registered before and the new one, and no other,
    with the status of the transition; after
    [remove_status_change_callback] of that identifier has returned true,
    such a call invokes the others and no longer this one. How many times
    a callback is invoked for one transition is left out: calls of
    [set_is_running] that overlap can each invoke it. *)
Theorem registered_callbacks_are_notified
  (h : Handles) (id : CallbackId) (cb : Handler) (b : bool) (c : Private) :
  check_camera_device_instance h c = None ->
  is_running_ c <> b ->
  let c1 := (add_status_change_callback h id cb c).1 in
  let c2 := (remove_status_change_callback id c1).1 in
  (add_status_change_callback h id cb c).2 = Returns id /\
  (remove_status_change_callback id c1).2 = true /\
  (forall id' s,
     (id', s) ∈ status_changes (new_events c1 (set_is_running b c1)) <->
     s = status_of b /\
     (id' = id \/ is_Some (status_change_callback_map_ c !! id'))) /\
  (forall id' s,
     (id', s) ∈ status_changes (new_events c2 (set_is_running b c2)) <->
     s = status_of b /\ id' <> id /\
     is_Some (status_change_callback_map_ c !! id')).
Proof.
  intros Hchk Hne. cbn zeta.
  unfold add_status_change_callback. rewrite Hchk. cbn [fst snd].
  set (c1 := set_status_change_callback_map_
               (<[id := cb]> (status_change_callback_map_ c)) c).
  assert (Hm1 : status_change_callback_map_ c1
                = <[id := cb]> (status_change_callback_map_ c)) by reflexivity.
  assert (Hr1 : is_running_ c1 <> b) by exact Hne.
  unfold remove_status_change_callback. rewrite Hm1, lookup_insert_eq. cbn [fst snd].
  set (c2 := set_status_change_callback_map_
               (delete id (<[id := cb]> (status_change_callback_map_ c))) c1).
  assert (Hm2 : status_change_callback_map_ c2
                = delete id (status_change_callback_map_ c)).
  { unfold c2. cbn. apply delete_insert_eq. }
  assert (Hr2 : is_running_ c2 <> b) by exact Hne.
  split; [reflexivity |]. split; [reflexivity |]. split.
  - intros id' s. rewrite notified_iff by exact Hr1. rewrite Hm1.
    destruct (decide (id' = id)) as [-> | Hd].
    + rewrite lookup_insert_eq. split; [intros [-> _]; auto | intros [-> _]; eauto].
    + rewrite lookup_insert_ne by congruence. tauto.
  - intros id' s. rewrite notified_iff by exact Hr2. rewrite Hm2.
    destruct (decide (id' = id)) as [-> | Hd].
    + rewrite lookup_delete_eq. split; [intros [_ [? ?]]; discriminate | tauto].
    + rewrite lookup_delete_ne by congruence. tauto.
Qed.

Lemma registered_callbacks_are_notified_witness :
  (check_camera_device_instance sample_handles sample_live = None /\
   is_running_ sample_live <> true) /\
  status_changes
    (new_events (add_status_change_callback sample_handles 5 0%nat sample_live).1
       (set_is_running true
          (add_status_change_callback sample_handles 5 0%nat sample_live).1))
  = [(2, CameraStatus.STARTED); (5, CameraStatus.STARTED)] /\
  (5, CameraStatus.STARTED) ∈
    status_changes
      (new_events (add_status_change_callback sample_handles 5 0%nat sample_live).1
         (set_is_running true
            (add_status_change_callback sample_handles 5 0%nat sample_live).1)).
Proof.
  assert (H1 : check_camera_device_instance sample_handles sample_live = None)
    by reflexivity.
  assert (H2 : is_running_ sample_live <> true) by discriminate.
  split; [exact (conj H1 H2) |]. split; [vm_compute; reflexivity |].
  destruct (registered_callbacks_are_notified sample_handles 5 0%nat true
              sample_live H1 H2) as (_ & _ & H & _).
  apply H. split; [reflexivity | left; reflexivity].
Defined.

(** *** Errors of initialization *)

(** X13: on a session that is not initialized and is not marked as a replay
    (the one a default-constructed [Camera] holds), registering a callback,
    starting and stopping a recording, and every accessor of a facility
    that is not deprecated throw [CameraNotInitialized], whatever the
    handles; the session is left as it was and no call is made. *)
Theorem uninitialized_interface_throws
  (h : Handles) (id : CallbackId) (cb : Handler)
  (change_extension : string -> string) (log_raw_data : string -> bool)
  (path : string) (f : Facility) (c : Private) :
  is_init_ c = false -> from_file_ c = false ->
  add_runtime_error_callback h id cb c = (c, Throws (Code CameraNotInitialized)) /\
  add_status_change_callback h id cb c = (c, Throws (Code CameraNotInitialized)) /\
  start_recording h change_extension log_raw_data path c
  = (c, [], Some (Code CameraNotInitialized)) /\
  stop_recording_checked h c = (c, Some (Code CameraNotInitialized)) /\
  (deprecated f = false -> facility f h c = Some (Code CameraNotInitialized)).
Proof.
  intros Hi Hf.
  unfold add_runtime_error_callback, add_status_change_callback, start_recording,
    stop_recording_checked, check_camera_device_instance,
    check_events_stream_instance, check_initialization.
  rewrite Hi. cbn.
  repeat split.
  destruct f; try discriminate; intros _; unfold facility,
    check_camera_device_instance, check_biases_instance, check_initialization;
    rewrite ?Hi, ?Hf; reflexivity.
Qed.

Lemma uninitialized_interface_throws_witness :
  (is_init_ sample_empty = false /\ from_file_ sample_empty = false) /\
  facility F_cd sample_handles sample_empty = Some (Code CameraNotInitialized) /\
  stop_recording_checked sample_handles sample_empty
  = (sample_empty, Some (Code CameraNotInitialized)).
Proof.
  split; [split; reflexivity |].
  destruct (uninitialized_interface_throws sample_handles 1 0%nat (fun p => p)
              (fun _ => true) "out.raw" F_cd sample_empty eq_refl eq_refl)
    as (_ & _ & _ & H4 & H5).
  split; [apply H5; reflexivity | exact H4].
Defined.

(** *** Recording *)

(** X14: [start_recording] on a session that holds a device and an event
    stream closes the raw log first; it leaves [is_recording_] true
    exactly when the stream could open the file, whatever [is_recording_]
    was, and throws [CouldNotOpenFile] otherwise: a recording in progress
    does not survive a failed [start_recording]. The file is the path with
    its extension replaced by [.raw]; the biases are saved beside it when
    the device has them, before the log is opened. A [stop_recording] that
    follows leaves [is_recording_] false. *)
Theorem start_recording_outcome
  (h : Handles) (change_extension : string -> string) (log_raw_data : string -> bool)
  (path : string) (c : Private) :
  check_camera_device_instance h c = None ->
  i_events_stream_ h = true ->
  let r := start_recording h change_extension log_raw_data path c in
  let c' := r.1.1 in
  let raw := change_extension path +:+ ".raw" in
  new_events c c' = [EvStopLogRawData] /\
  r.1.2 = (if biases_ h then [SaveBiases (change_extension path +:+ ".bias")]
           else []) ++ [LogRawData raw] /\
  is_recording_ c' = log_raw_data raw /\
  r.2 = (if log_raw_data raw then None else Some (Code CouldNotOpenFile)) /\
  is_running_ c' = is_running_ c /\
  is_recording_ (stop_recording_checked h c').1 = false.
Proof.
  intros Hchk Hs. cbn zeta. unfold start_recording, stop_recording_checked.
  assert (Hi : is_init_ c = true).
  { unfold check_camera_device_instance, check_initialization in Hchk.
    destruct (is_init_ c); [reflexivity | discriminate]. }
  assert (Hes : forall c1, is_init_ c1 = true ->
                           check_events_stream_instance h c1 = None).
  { intros c1 H1. unfold check_events_stream_instance, check_initialization.
    now rewrite H1, Hs. }
  rewrite Hchk, (Hes c Hi). cbn [and_then].
  destruct (log_raw_data (change_extension path +:+ ".raw")) eqn:E;
    cbn [negb fst snd].
  - rewrite Hes by exact Hi. cbn [fst].
    repeat split. apply (new_events_app c). reflexivity.
  - rewrite Hes by exact Hi. cbn [fst].
    repeat split. apply (new_events_app c). reflexivity.
Qed.

Lemma start_recording_outcome_witness :
  (check_camera_device_instance sample_handles (set_is_recording_ true sample_live)
   = None /\ i_events_stream_ sample_handles = true) /\
  start_recording sample_handles (fun _ => "/no/such/dir/out") (fun _ => false)
    "/no/such/dir/out.raw" (set_is_recording_ true sample_live)
  = (emit [EvStopLogRawData] sample_live,
     [SaveBiases "/no/such/dir/out.bias"; LogRawData "/no/such/dir/out.raw"],
     Some (Code CouldNotOpenFile)) /\
  is_recording_
    (start_recording sample_handles (fun _ => "/no/such/dir/out") (fun _ => false)
       "/no/such/dir/out.raw" (set_is_recording_ true sample_live)).1.1 = false.
Proof.
  split; [split; reflexivity |]. split; [reflexivity |].
  exact (proj1 (proj2 (proj2 (start_recording_outcome sample_handles
           (fun _ => "/no/such/dir/out") (fun _ => false) "/no/such/dir/out.raw"
           (set_is_recording_ true sample_live) eq_refl eq_refl)))).
Defined.

(** *** The constructors *)

Lemma open_raw_file_success fs discovery stopped rawfile reproduce c c' :
  open_raw_file fs discovery stopped rawfile reproduce c = (c', None) ->
  is_init_ c = false ->
  is_init_ c' = true /\ from_file_ c' = true /\
  emulate_real_time_ c' = reproduce /\
  run_thread_ c' = run_thread_ c /\
  i_device_control_ c' = i_device_control_ c /\
  is_running_ c' = is_running_ c /\
  new_events c c' = [EvOpenRawFile rawfile].
Proof.
  unfold open_raw_file. intros H Hi. rewrite Hi in H. cbn [andb] in H.
  destruct (negb (fs_exists fs rawfile)); [discriminate |].
  destruct (negb (fs_is_regular_file fs rawfile)); [discriminate |].
  destruct (negb (_ =? _)%string); [discriminate |].
  destruct (discovery rawfile) as [dev |]; [| discriminate].
  destruct (negb (has_hw_identification dev)); [discriminate |].
  injection H as H _. subst c'. repeat split.
  apply (new_events_app c). reflexivity.
Qed.

Lemma init_interfaces_built dev c h c' :
  init_interfaces dev c = Built h c' ->
  c' = set_i_device_control_ true c /\ device_ h = true /\
  i_events_stream_ h = true /\ i_decoder_ h = true /\ geometry_ h = true.
Proof.
  unfold init_interfaces. destruct dev as [dev |]; [| discriminate].
  repeat match goal with
         | |- context [if ?x then _ else _] => destruct x; try discriminate
         end.
  intros [= <- <-]. repeat split.
Qed.

(** X15: every constructor that returns leaves a session as the two threads
    assume it ([constructed], given that the thread of a new object is not
    joinable): initialized, and holding a device-control facility or
    replaying a file; the constructors on a camera hold a device, an event
    stream, a decoder and a geometry; the one on a file marks the session
    as a replay with the emulation flag it was given and has called
    [DeviceDiscovery::open_raw_file] and nothing else. *)
Theorem constructors_build_constructed_sessions
  (local remote : list System) (open : string -> option Facilities)
  (ty : OnlineSourceType) (index : nat) (serial : string)
  (fs : FileSystem) (discovery : string -> option Device) (ext : bool)
  (rawfile : string) (reproduce : bool)
  (c0 : Private) (h : Handles) (c : Private) :
  is_init_ c0 = false -> run_thread_ c0 = false ->
  (from_first_available local remote open c0 false = Built h c \/
   from_source local remote open c0 ty index = Built h c \/
   from_serial open c0 serial = Built h c ->
   constructed c /\ i_device_control_ c = true /\
   from_file_ c = from_file_ c0 /\
   device_ h = true /\ i_events_stream_ h = true /\ i_decoder_ h = true /\
   geometry_ h = true) /\
  (from_file fs discovery ext rawfile reproduce c0 = Built h c ->
   constructed c /\ from_file_ c = true /\ emulate_real_time_ c = reproduce /\
   device_ h = true /\ new_events c0 c = [EvOpenRawFile rawfile]).
Proof.
  intros Hi Hr. split.
  - intros H.
    assert (Hb : exists dev, init_interfaces dev (set_is_init_ true c0) = Built h c).
    { destruct H as [H | [H | H]].
      - unfold from_first_available in H. eauto.
      - unfold from_source in H.
        destruct (list_online_sources local remote ty) as [systems |]; [| eauto].
        destruct (systems !! index); [eauto | discriminate].
      - unfold from_serial in H. destruct (open serial); [eauto | discriminate]. }
    destruct Hb as [dev Hb].
    destruct (init_interfaces_built _ _ _ _ Hb) as (-> & H1 & H2 & H3 & H4).
    repeat split; try assumption.
  - unfold from_file. intros H.
    destruct (open_raw_file fs discovery (fun c => c) rawfile reproduce c0)
      as [c1 [e |]] eqn:E; [discriminate |].
    injection H as <- <-.
    destruct (open_raw_file_success _ _ _ _ _ _ _ E Hi)
      as (H1 & H2 & H3 & H4 & H5 & H6 & H7).
    repeat split; try assumption; try congruence.
Qed.

Lemma constructors_build_constructed_sessions_witness :
  (is_init_ sample_empty = false /\ run_thread_ sample_empty = false /\
   from_serial (fun _ => Some sample_camera) sample_empty "vendor:usb:zeta"
   = Built sample_handles (set_i_device_control_ true (set_is_init_ true sample_empty))) /\
  constructed (set_i_device_control_ true (set_is_init_ true sample_empty)).
Proof.
  assert (H : from_serial (fun _ => Some sample_camera) sample_empty "vendor:usb:zeta"
              = Built sample_handles
                  (set_i_device_control_ true (set_is_init_ true sample_empty)))
    by reflexivity.
  split; [exact (conj eq_refl (conj eq_refl H)) |].
  exact (proj1 (proj1 (constructors_build_constructed_sessions [] []
                         (fun _ => Some sample_camera)
                         USB 0 "vendor:usb:zeta" sample_fs (fun _ => None) false
                         EmptyString false
                         sample_empty sample_handles _ eq_refl eq_refl)
                  (or_intror (or_intror H)))).
Defined.

(** X16: on a session opened from a file, the facilities that only a device
    has are unavailable: [biases()], [roi()], [antiflicker_module()],
    [noise_filter_module()] and [trigger_out()] throw their
    feature-unavailable error; [geometry()], [generation()], [raw_data()]
    and [cd()] return; [ext_trigger()] returns exactly when the device of
    the file decodes external triggers; the deprecated accessors throw
    [DeprecatedFeature]. *)
Theorem file_session_facilities
  (fs : FileSystem) (discovery : string -> option Device) (ext : bool)
  (rawfile : string) (reproduce : bool) (c0 : Private)
  (h : Handles) (c : Private) (f : Facility) :
  is_init_ c0 = false ->
  from_file fs discovery ext rawfile reproduce c0 = Built h c ->
  facility f h c =
  if deprecated f then Some DeprecatedFeature
  else match device_only f with
       | Some e => Some e
       | None =>
           match f with
           | F_ext_trigger => if ext then None else Some ExtTriggerUnavailable
           | _ => None
           end
       end.
Proof.
  intros Hi. unfold from_file.
  destruct (open_raw_file fs discovery (fun c => c) rawfile reproduce c0)
    as [c1 [e |]] eqn:E; [discriminate |].
  intros [= <- <-].
  destruct (open_raw_file_success _ _ _ _ _ _ _ E Hi) as (H1 & H2 & _).
  destruct f; unfold facility, check_camera_device_instance,
    check_biases_instance, check_initialization; cbn [deprecated device_only];
    rewrite ?H1, ?H2; cbn; try reflexivity.
Qed.

Lemma file_session_facilities_witness :
  (is_init_ sample_empty = false /\
   exists h c,
     from_file sample_fs (fun _ => Some sample_device) false "rec.raw" true sample_empty
     = Built h c /\
     facility F_roi h c = Some RoiUnavailable /\ facility F_cd h c = None).
Proof.
  split; [reflexivity |].
  eexists _, _. split; [reflexivity |]. split.
  - exact (file_session_facilities sample_fs (fun _ => Some sample_device) false
             "rec.raw" true sample_empty _ _ F_roi eq_refl eq_refl).
  - exact (file_session_facilities sample_fs (fun _ => Some sample_device) false
             "rec.raw" true sample_empty _ _ F_cd eq_refl eq_refl).
Defined.

(** *** The sources *)

Lemma sort_entries_id (ret : AvailableSourcesList) : sort_entries ret = ret.
Proof.
  unfold sort_entries. cbn [foldl].
  destruct (ret EMBEDDED), (ret USB), (ret REMOTE); reflexivity.
Qed.

Lemma entry_snoc (v : list string) (s : string) : entry (v ++ [s]) = Some (v ++ [s]).
Proof. destruct v; reflexivity. Qed.

Lemma push_back_same ty s ret v :
  ret ty = entry v -> push_back ty s ret ty = entry (v ++ [s]).
Proof.
  intros H. rewrite entry_snoc. unfold push_back, assign.
  rewrite decide_True by reflexivity. rewrite H.
  destruct v as [| x v]; cbn [entry].
  - now rewrite decide_True by reflexivity.
  - now rewrite H.
Qed.

Lemma push_back_other ty ty' s ret :
  ty' <> ty -> push_back ty s ret ty' = ret ty'.
Proof.
  intros Hne. unfold push_back, assign.
  rewrite decide_False by exact Hne.
  destruct (ret ty); [reflexivity |]. now rewrite decide_False by exact Hne.
Qed.

Lemma fold_remote (remote : list System) :
  forall ret v,
    ret REMOTE = entry v ->
    let ret' := foldl (fun ret system => push_back REMOTE (full_serial system) ret)
                      ret remote in
    ret' REMOTE = entry (v ++ (full_serial <$> remote)) /\
    forall ty, ty <> REMOTE -> ret' ty = ret ty.
Proof.
  induction remote as [| s remote IH]; intros ret v Hv; cbn zeta.
  - rewrite app_nil_r. auto.
  - cbn [foldl]. rewrite fmap_cons.
    destruct (IH (push_back REMOTE (full_serial s) ret) (v ++ [full_serial s]))
      as [H1 H2]; [now apply push_back_same |].
    split; [now rewrite <- app_assoc in H1 |].
    intros ty Hne. rewrite H2 by exact Hne. now apply push_back_other.
Qed.

Lemma serials_of_cons (ty : OnlineSourceType) (s : System) (local : list System) :
  ty <> REMOTE ->
  serials_of ty (s :: local) [] =
  (if of_type ty s then [full_serial s] else []) ++ serials_of ty local [].
Proof.
  intros Hne.
  assert (H : serials_of ty (s :: local) []
              = full_serial <$> filter (fun s => of_type ty s = true) (s :: local))
    by (destruct ty; [reflexivity | reflexivity | contradiction]).
  assert (H' : serials_of ty local []
               = full_serial <$> filter (fun s => of_type ty s = true) local)
    by (destruct ty; [reflexivity | reflexivity | contradiction]).
  rewrite H, H', filter_cons.
  destruct (decide (of_type ty s = true)) as [E | E].
  - rewrite E. reflexivity.
  - apply not_true_is_false in E. rewrite E. reflexivity.
Qed.

Lemma fold_local (local : list System) :
  forall ret e u,
    ret EMBEDDED = entry e -> ret USB = entry u ->
    let ret' := foldl (fun ret system =>
                         match connection_ system with
                         | MIPI_LINK => push_back EMBEDDED (full_serial system) ret
                         | USB_LINK => push_back USB (full_serial system) ret
                         | OTHER_LINK => ret
                         end) ret local in
    ret' EMBEDDED = entry (e ++ serials_of EMBEDDED local []) /\
    ret' USB = entry (u ++ serials_of USB local []) /\
    ret' REMOTE = ret REMOTE.
Proof.
  induction local as [| s local IH]; intros ret e u He Hu; cbn zeta.
  - cbn. rewrite !app_nil_r. auto.
  - cbn [foldl]. rewrite !serials_of_cons by discriminate. unfold of_type.
    destruct (connection_ s) eqn:E.
    + destruct (IH (push_back EMBEDDED (full_serial s) ret) (e ++ [full_serial s]) u)
        as (H1 & H2 & H3).
      * now apply push_back_same.
      * now rewrite push_back_other by discriminate.
      * cbn zeta in H1, H2, H3. rewrite H1, H2, H3, <- app_assoc.
        now rewrite push_back_other by discriminate.
    + destruct (IH (push_back USB (full_serial s) ret) e (u ++ [full_serial s]))
        as (H1 & H2 & H3).
      * now rewrite push_back_other by discriminate.
      * now apply push_back_same.
      * cbn zeta in H1, H2, H3. rewrite H1, H2, H3, <- app_assoc.
        now rewrite push_back_other by discriminate.
    + now apply IH.
Qed.

(** X17: [list_online_sources] gives, for each type of source, the full
    serials of the systems of that type in the order in which discovery
    lists them: the remote systems under REMOTE whatever their connection,
    the local ones under EMBEDDED (MIPI) or USB, the other local ones
    nowhere; a type without a system has no entry. The lists are not
    sorted: the final [std::sort] runs on copies of the entries. *)
Theorem list_online_sources_in_discovery_order
  (local remote : list System) (ty : OnlineSourceType) :
  list_online_sources local remote ty = entry (serials_of ty local remote).
Proof.
  unfold list_online_sources. rewrite sort_entries_id.
  destruct (fold_remote remote no_sources []) as [R1 R2]; [reflexivity |].
  cbn zeta in R1, R2.
  destruct (fold_local local
              (foldl (fun ret system => push_back REMOTE (full_serial system) ret)
                     no_sources remote) [] [])
    as (L1 & L2 & L3).
  - now rewrite R2 by discriminate.
  - now rewrite R2 by discriminate.
  - cbn zeta in L1, L2, L3. destruct ty.
    + exact L1.
    + exact L2.
    + rewrite L3, R1. reflexivity.
Qed.

Example list_online_sources_keeps_discovery_order :
  list_online_sources sample_local sample_remote USB
  = Some ["vendor:usb:zeta"; "vendor:usb:alpha"] /\
  list_online_sources sample_local sample_remote EMBEDDED = None /\
  list_online_sources sample_local sample_remote REMOTE = Some ["vendor:remote:pi"].
Proof. repeat split. Qed.

(** X18: which camera a constructor opens. [from_first_available] opens the
    first embedded system that discovery lists, if there is one, and
    otherwise the first USB one, never a remote one; [from_source] opens
    the system at the given index among those of the given type, in the
    order of discovery, and throws [CameraNotFound] when there are not that
    many; with no system to open, or when [DeviceDiscovery::open] returns
    no device, the constructors throw [CameraNotFound]. *)
Theorem constructors_open_in_discovery_order
  (local remote : list System) (open : string -> option Facilities)
  (c0 : Private) (ty : OnlineSourceType) (index : nat) :
  from_first_available local remote open c0 false =
    init_interfaces
      (match serials_of EMBEDDED local remote with
       | serial :: _ => open serial
       | [] => match serials_of USB local remote with
               | serial :: _ => open serial
               | [] => None
               end
       end) (set_is_init_ true c0) /\
  from_source local remote open c0 ty index =
    match serials_of ty local remote !! index with
    | Some serial => init_interfaces (open serial) (set_is_init_ true c0)
    | None => Failed (Code CameraNotFound)
    end /\
  init_interfaces None (set_is_init_ true c0) = Failed (Code CameraNotFound).
Proof.
  split; [| split; [| reflexivity]].
  - unfold from_first_available.
    rewrite !list_online_sources_in_discovery_order.
    destruct (serials_of EMBEDDED local remote) as [| s l]; cbn [entry];
      [| reflexivity].
    destruct (serials_of USB local remote); reflexivity.
  - unfold from_source. rewrite list_online_sources_in_discovery_order.
    destruct (serials_of ty local remote) as [| s l]; cbn [entry]; reflexivity.
Qed.

Example from_source_opens_by_discovery_index :
  from_source sample_local sample_remote
    (fun serial => if String.eqb serial "vendor:usb:zeta" then Some sample_camera
                   else None)
    sample_empty USB 0
  = Built sample_handles (set_i_device_control_ true (set_is_init_ true sample_empty)) /\
  from_source sample_local sample_remote (fun _ => Some sample_camera)
    sample_empty USB 2
  = Failed (Code CameraNotFound).
Proof. split; reflexivity. Qed.

End CameraApiSpec.

Module RawInfoSpec.
Import RawInfo.

Example human_readable_time_samples :
  human_readable_time 3723000004 = "1h 2m 3s 0ms 4us " /\
  human_readable_time 1500 = "1ms 500us " /\
  human_readable_time 0 = "" /\
  human_readable_time (-1) = "-1us ".
Proof. repeat split; vm_compute; reflexivity. Qed.

Lemma vs_nonneg (t : Z) :
  0 <= t ->
  vs t = [t / 86400000000 mod 365; t / 3600000000 mod 24; t / 60000000 mod 60;
          t / 1000000 mod 60; t / 1000 mod 1000; t mod 1000].
Proof.
  intros Ht. unfold vs.
  assert (H1 : 0 <= t / 1000) by (apply Z.div_pos; lia).
  assert (H2 : 0 <= t / 1000 / 1000) by (apply Z.div_pos; lia).
  assert (H3 : 0 <= t / 1000 / 1000 / 60) by (apply Z.div_pos; lia).
  assert (H4 : 0 <= t / 1000 / 1000 / 60 / 60) by (apply Z.div_pos; lia).
  assert (H5 : 0 <= t / 1000 / 1000 / 60 / 60 / 24) by (apply Z.div_pos; lia).
  rewrite (Z.quot_div_nonneg t 1000) by lia.
  rewrite (Z.quot_div_nonneg (t / 1000) 1000) by lia.
  rewrite (Z.quot_div_nonneg (t / 1000 / 1000) 60) by lia.
  rewrite (Z.quot_div_nonneg (t / 1000 / 1000 / 60) 60) by lia.
  rewrite (Z.quot_div_nonneg (t / 1000 / 1000 / 60 / 60) 24) by lia.
  rewrite !Z.rem_mod_nonneg by lia.
  rewrite !Z.div_div by lia. reflexivity.
Qed.

Lemma fields_of_nonneg (t : Z) :
  0 <= t ->
  exists d h m s ms us,
    vs t = [d; h; m; s; ms; us] /\
    0 <= d < 365 /\ 0 <= h < 24 /\ 0 <= m < 60 /\ 0 <= s < 60 /\
    0 <= ms < 1000 /\ 0 <= us < 1000 /\
    microseconds (vs t) = t mod year_us.
Proof.
  intros Ht. rewrite vs_nonneg by exact Ht.
  do 6 eexists. split; [reflexivity |].
  repeat (split; [apply Z.mod_pos_bound; lia |]).
  assert (E : microseconds
                [t / 86400000000 mod 365; t / 3600000000 mod 24; t / 60000000 mod 60;
                 t / 1000000 mod 60; t / 1000 mod 1000; t mod 1000]
              = t mod year_us).
  { unfold microseconds, year_us.
    change (365 * 24 * 60 * 60 * 1000 * 1000) with (86400000000 * 365).
    rewrite (Z.mod_eq t (86400000000 * 365)) by lia.
    rewrite <- Z.div_div by lia.
    assert (E1 : t / 1000 / 1000 = t / 1000000)
      by (rewrite Z.div_div by lia; reflexivity).
    assert (E2 : t / 1000000 / 60 = t / 60000000)
      by (rewrite Z.div_div by lia; reflexivity).
    assert (E3 : t / 60000000 / 60 = t / 3600000000)
      by (rewrite Z.div_div by lia; reflexivity).
    assert (E4 : t / 3600000000 / 24 = t / 86400000000)
      by (rewrite Z.div_div by lia; reflexivity).
    pose proof (Z.div_mod t 1000 ltac:(lia)) as H1.
    pose proof (Z.div_mod (t / 1000) 1000 ltac:(lia)) as H2.
    pose proof (Z.div_mod (t / 1000000) 60 ltac:(lia)) as H3.
    pose proof (Z.div_mod (t / 60000000) 60 ltac:(lia)) as H4.
    pose proof (Z.div_mod (t / 3600000000) 24 ltac:(lia)) as H5.
    pose proof (Z.div_mod (t / 86400000000) 365 ltac:(lia)) as H6.
    rewrite E1 in H2. rewrite E2 in H3. rewrite E3 in H4. rewrite E4 in H5.
    generalize dependent (t / 86400000000 / 365).
    generalize dependent (t / 86400000000 mod 365).
    generalize dependent (t / 86400000000).
    generalize dependent (t / 3600000000 mod 24).
    generalize dependent (t / 3600000000).
    generalize dependent (t / 60000000 mod 60).
    generalize dependent (t / 60000000).
    generalize dependent (t / 1000000 mod 60).
    generalize dependent (t / 1000000).
    generalize dependent (t / 1000 mod 1000).
    generalize dependent (t / 1000).
    generalize dependent (t mod 1000).
    intros. lia. }
  exact E.
Qed.

(** X19: [human_readable_time] splits a duration that is not negative into
    days, hours, minutes, seconds, milliseconds and microseconds, each
    within its range, which add up to the duration again as long as it is
    shorter than 365 days; the days wrap around at 365, so what is shown
    is the duration modulo 365 days. *)
Theorem human_readable_time_decomposition (t : Z) :
  0 <= t ->
  exists d h m s ms us,
    vs t = [d; h; m; s; ms; us] /\
    0 <= d < 365 /\ 0 <= h < 24 /\ 0 <= m < 60 /\ 0 <= s < 60 /\
    0 <= ms < 1000 /\ 0 <= us < 1000 /\
    microseconds (vs t) = t mod year_us /\
    (t < year_us -> microseconds (vs t) = t).
Proof.
  intros Ht.
  destruct (fields_of_nonneg t Ht)
    as (d & h & m & s & ms & us & Hvs & Hd & Hh & Hm & Hs & Hms & Hus & E).
  exists d, h, m, s, ms, us. repeat (split; [assumption |]).
  intros Hy. rewrite E. apply Z.mod_small. lia.
Qed.

Lemma human_readable_time_decomposition_witness :
  0 <= 3723000004 /\
  vs 3723000004 = [0; 1; 2; 3; 0; 4] /\ microseconds (vs 3723000004) = 3723000004.
Proof.
  split; [lia |]. split; [reflexivity |].
  destruct (human_readable_time_decomposition 3723000004 ltac:(lia))
    as (d & h & m & s & ms & us & _ & _ & _ & _ & _ & _ & _ & _ & H).
  apply H. reflexivity.
Defined.

Lemma append_empty (a b : string) : a +:+ b = "" -> a = "" /\ b = "".
Proof. destruct a; [cbn; auto | discriminate]. Qed.

Lemma render_not_empty (item : Z * string) : render item <> "".
Proof.
  unfold render. intros H. apply append_empty in H as [_ H].
  apply append_empty in H as [_ H]. discriminate.
Qed.

Lemma rendered_empty (items : list (Z * string)) :
  foldr String.append "" (render <$> items) = "" <-> items = [].
Proof.
  split; [| intros ->; reflexivity].
  destruct items as [| item items]; [reflexivity |].
  rewrite fmap_cons. cbn [foldr]. intros H. apply append_empty in H as [H _].
  now apply render_not_empty in H.
Qed.

Lemma leading_zeros_split (values : list Z) (labels : list string) :
  length values = length labels ->
  zip values labels
  = take (leading_zeros values) (zip values labels)
    ++ drop (leading_zeros values) (zip values labels) /\
  Forall (fun item : Z * string => item.1 = 0)
         (take (leading_zeros values) (zip values labels)) /\
  (forall v l, head (drop (leading_zeros values) (zip values labels)) = Some (v, l) ->
               v <> 0) /\
  (drop (leading_zeros values) (zip values labels) = [] <->
   Forall (fun v => v = 0) values).
Proof.
  revert labels. induction values as [| v values IH]; intros labels Hlen.
  - cbn. repeat split; try constructor; try discriminate.
  - destruct labels as [| l labels]; [discriminate |].
    injection Hlen as Hlen. cbn [leading_zeros zip zip_with].
    destruct (Z.eqb_spec v 0) as [-> | Hv].
    + destruct (IH labels Hlen) as (H1 & H2 & H3 & H4).
      cbn [take drop app]. split; [now f_equal |].
      split; [constructor; [reflexivity | exact H2] |].
      split; [exact H3 |].
      rewrite H4. split; [now constructor | now inversion 1].
    + cbn [take drop app]. split; [reflexivity |].
      split; [constructor |].
      split; [intros v' l' [= <- _]; exact Hv |].
      split; [discriminate | inversion 1; contradiction].
Qed.

Lemma human_readable_time_zero_fields (t : Z) :
  0 <= t ->
  (Forall (fun v => v = 0) (vs t) -> t mod year_us = 0) /\
  (t mod year_us = 0 -> Forall (fun v => v = 0) (vs t)).
Proof.
  intros Ht.
  destruct (fields_of_nonneg t Ht)
    as (d & h & m & s & ms & us & Hvs & Hd & Hh & Hm & Hs & Hms & Hus & E).
  rewrite <- E, Hvs. unfold microseconds. split.
  - intros H. repeat (apply Forall_cons in H as [? H]). subst. reflexivity.
  - intros H.
    assert (d = 0 /\ h = 0 /\ m = 0 /\ s = 0 /\ ms = 0 /\ us = 0) as (-> & -> & -> & -> & -> & ->)
      by lia.
    repeat constructor.
Qed.

(** X20: [human_readable_time] prints the units from the largest one whose
    value is not zero down to the microseconds, zero values included from
    there on, and leaves out the units before it, whose values are all
    zero; the text is empty exactly when all six values are zero: for the
    duration 0, and for any whole number of 365 days. *)
Theorem human_readable_time_skips_leading_zeros (t : Z) :
  human_readable_time t = foldr String.append "" (render <$> shown t) /\
  (exists zeros, zip (vs t) ls = zeros ++ shown t /\
                 Forall (fun item : Z * string => item.1 = 0) zeros) /\
  (forall v l, head (shown t) = Some (v, l) -> v <> 0) /\
  (human_readable_time t = "" <-> Forall (fun v => v = 0) (vs t)) /\
  (0 <= t -> (human_readable_time t = "" <-> t mod year_us = 0)).
Proof.
  destruct (leading_zeros_split (vs t) ls eq_refl) as (H1 & H2 & H3 & H4).
  fold (shown t) in H1, H3, H4.
  split; [reflexivity |].
  split; [eexists; split; [exact H1 | exact H2] |].
  split; [exact H3 |].
  assert (He : human_readable_time t = "" <-> Forall (fun v => v = 0) (vs t)).
  { unfold human_readable_time. rewrite rendered_empty. exact H4. }
  split; [exact He |].
  intros Ht. rewrite He.
  destruct (human_readable_time_zero_fields t Ht) as [Ha Hb]. split; assumption.
Qed.

(** *** The statistics *)

Lemma time_ordered_tail (t0 : Z) (buffer : list Z) :
  time_ordered (t0 :: buffer) ->
  time_ordered buffer /\ Forall (fun t => t0 <= t) buffer.
Proof.
  intros H. split.
  - intros i j a b Ha Hb Hij. apply (H (S i) (S j)); try assumption. lia.
  - apply Forall_lookup_2. intros i t Ht. apply (H 0%nat (S i)); try assumption;
      [reflexivity | lia].
Qed.

Lemma foldl_min_above (a : Z) (l : list Z) :
  Forall (fun t => a <= t) l -> foldl Z.min a l = a.
Proof.
  induction 1 as [| t l Ht _ IH]; [reflexivity |].
  cbn [foldl]. rewrite Z.min_l by exact Ht. exact IH.
Qed.

Lemma foldl_min_le (l : list Z) : forall a b, a <= b -> foldl Z.min a l <= foldl Z.min b l.
Proof.
  induction l as [| t l IH]; intros a b Hab; [exact Hab |].
  cbn [foldl]. apply IH. lia.
Qed.

Lemma foldl_min_ordered (a t0 : Z) (buffer : list Z) :
  time_ordered (t0 :: buffer) ->
  foldl Z.min a (t0 :: buffer) = Z.min a t0.
Proof.
  intros H. destruct (time_ordered_tail _ _ H) as [_ Hall]. cbn [foldl].
  apply foldl_min_above. eapply Forall_impl; [exact Hall |]. cbn. lia.
Qed.

Lemma foldl_max_ordered (buffer : list Z) :
  forall a end_t,
    time_ordered buffer -> last buffer = Some end_t ->
    foldl Z.max a buffer = Z.max a end_t.
Proof.
  induction buffer as [| t0 buffer IH]; intros a end_t Ho Hl; [discriminate |].
  destruct (time_ordered_tail _ _ Ho) as [Ho' Hall]. cbn [foldl].
  destruct buffer as [| t1 buffer].
  - injection Hl as <-. reflexivity.
  - rewrite (IH (Z.max a t0) end_t Ho' Hl).
    assert (t0 <= end_t); [| lia].
    apply (Ho 0%nat (length (t1 :: buffer))); [reflexivity | | lia].
    change (t0 :: t1 :: buffer) with ([t0] ++ t1 :: buffer).
    rewrite lookup_app_r by (cbn; lia).
    replace (length (t1 :: buffer) - length [t0])%nat
      with (pred (length (t1 :: buffer))) by (cbn; lia).
    rewrite <- last_lookup. exact Hl.
Qed.

Lemma on_buffers_ordered (buffers : list (list Z)) :
  forall st,
    Forall (fun buffer => buffer <> [] /\ time_ordered buffer) buffers ->
    0 <= num_events st ->
    num_events st + Z.of_nat (length (concat buffers)) < 2 ^ 64 ->
    exists st',
      on_buffers buffers st = Some st' /\
      num_events st' = num_events st + Z.of_nat (length (concat buffers)) /\
      first_ts st' = foldl Z.min (first_ts st) (concat buffers) /\
      last_ts st' = foldl Z.max (last_ts st) (concat buffers).
Proof.
  induction buffers as [| buffer buffers IH]; intros st Hb Hn0 Hn.
  - exists st. cbn. repeat split. lia.
  - apply Forall_cons in Hb as [[Hne Ho] Hb].
    cbn [concat] in *. rewrite length_app, Nat2Z.inj_add in Hn.
    destruct buffer as [| t0 buffer]; [contradiction |].
    destruct (last (t0 :: buffer)) as [end_t |] eqn:El;
      [| now apply last_None in El].
    cbn [on_buffers]. unfold on_events. rewrite El.
    rewrite IntFacts.wrap64_small by lia.
    destruct (IH {| num_events := num_events st + Z.of_nat (length (t0 :: buffer));
                    first_ts := Z.min (first_ts st) t0;
                    last_ts := Z.max (last_ts st) end_t |} Hb)
      as (st' & H1 & H2 & H3 & H4); cbn [num_events first_ts last_ts]; try lia.
    exists st'. split; [exact H1 |]. cbn [num_events first_ts last_ts] in *.
    rewrite length_app, Nat2Z.inj_add, !foldl_app.
    rewrite (foldl_min_ordered _ _ _ Ho), (foldl_max_ordered _ _ _ Ho El).
    repeat split; [lia | exact H3 | exact H4].
Qed.

(** X21: on buffers that are not empty and hold their events in the order of
    their timestamps, the callbacks of [main] count the events and keep the
    smallest and the largest of all their timestamps, although they read
    only the first and the last event of each buffer; the duration that
    [main] derives from the two types of events is the largest timestamp
    of either, or -1 when there is no event. *)
Theorem statistics_of_time_ordered_buffers (cd ext_trigger : list (list Z)) :
  Forall (fun buffer => buffer <> [] /\ time_ordered buffer) cd ->
  Forall (fun buffer => buffer <> [] /\ time_ordered buffer) ext_trigger ->
  Z.of_nat (length (concat cd)) < 2 ^ 64 ->
  Z.of_nat (length (concat ext_trigger)) < 2 ^ 64 ->
  exists st_cd st_ext,
    on_buffers cd no_stats = Some st_cd /\
    on_buffers ext_trigger no_stats = Some st_ext /\
    num_events st_cd = Z.of_nat (length (concat cd)) /\
    first_ts st_cd = foldl Z.min timestamp_max (concat cd) /\
    last_ts st_cd = foldl Z.max (-1) (concat cd) /\
    num_events st_ext = Z.of_nat (length (concat ext_trigger)) /\
    first_ts st_ext = foldl Z.min timestamp_max (concat ext_trigger) /\
    last_ts st_ext = foldl Z.max (-1) (concat ext_trigger) /\
    duration [st_cd; st_ext] = foldl Z.max (-1) (concat cd ++ concat ext_trigger).
Proof.
  intros Hcd Hext Hn1 Hn2.
  destruct (on_buffers_ordered cd no_stats Hcd) as (st1 & A1 & A2 & A3 & A4);
    [cbn; lia | cbn; lia |].
  destruct (on_buffers_ordered ext_trigger no_stats Hext) as (st2 & B1 & B2 & B3 & B4);
    [cbn; lia | cbn; lia |].
  exists st1, st2. cbn [num_events first_ts last_ts no_stats] in *.
  repeat (split; [first [assumption | lia] |]).
  unfold duration. cbn [foldl]. rewrite foldl_app, A4, B4.
  assert (Hmax : forall l a b, foldl Z.max (Z.max a b) l = Z.max a (foldl Z.max b l)).
  { induction l as [| x l IHl]; intros a b; [reflexivity |].
    cbn [foldl]. rewrite <- IHl. f_equal. lia. }
  assert (Hge : forall l a, a <= foldl Z.max a l).
  { induction l as [| x l IHl]; intros a; [cbn; lia |].
    cbn [foldl]. specialize (IHl (Z.max a x)). lia. }
  pose proof (Hge (concat cd) (-1)) as H1.
  rewrite (Z.max_r (-1)) by exact H1.
  rewrite <- Hmax. f_equal. lia.
Qed.

Lemma statistics_of_time_ordered_buffers_witness :
  (Forall (fun buffer => buffer <> [] /\ time_ordered buffer) [[10; 20]; [20; 35]] /\
   Forall (fun buffer => buffer <> [] /\ time_ordered buffer) [[15]]) /\
  on_buffers [[10; 20]; [20; 35]] no_stats
  = Some {| num_events := 4; first_ts := 10; last_ts := 35 |} /\
  exists st_cd st_ext,
    on_buffers [[10; 20]; [20; 35]] no_stats = Some st_cd /\
    on_buffers [[15]] no_stats = Some st_ext /\
    duration [st_cd; st_ext] = 35.
Proof.
  assert (Ho : forall l : list Z,
             (forall i j a b, l !! i = Some a -> l !! j = Some b -> (i <= j)%nat ->
                              a <= b) -> time_ordered l) by (intros l H; exact H).
  assert (H1 : Forall (fun buffer => buffer <> [] /\ time_ordered buffer)
                      [[10; 20]; [20; 35]]).
  { repeat constructor; try discriminate; apply Ho; intros i j a b Ha Hb Hij;
      destruct i as [| [| i]], j as [| [| j]]; cbn in Ha, Hb;
      try discriminate; try lia;
      injection Ha as <-; injection Hb as <-; lia. }
  assert (H2 : Forall (fun buffer => buffer <> [] /\ time_ordered buffer) [[15]]).
  { repeat constructor; try discriminate; apply Ho; intros i j a b Ha Hb Hij;
      destruct i as [| i], j as [| j]; cbn in Ha, Hb;
      try discriminate; try lia;
      injection Ha as <-; injection Hb as <-; lia. }
  split; [exact (conj H1 H2) |]. split; [reflexivity |].
  destruct (statistics_of_time_ordered_buffers [[10; 20]; [20; 35]] [[15]] H1 H2)
    as (st1 & st2 & A1 & A2 & _ & _ & _ & _ & _ & _ & A3); [cbn; lia | cbn; lia |].
  exists st1, st2. split; [exact A1 |]. split; [exact A2 |].
  rewrite A3. reflexivity.
Defined.

End RawInfoSpec.

Module StreamLoggerSpec.
Import StreamLogger.

Example split_recording :
  let s := (enable (fun _ => true) true true 1 sample_logger).1 in
  let s := process_events (fun _ => true) sample_events 20 s in
  let s := process_events (fun _ => true) sample_events 1000020 s in
  ops s = [Open "rec_0000.dat" true; WriteHeader 640 480; Write 0 sample_events;
           Write 0 sample_events; Close; Open "rec_0001.dat" true] /\
  initial_timestamp_ s = 1000020.
Proof. vm_compute. split; reflexivity. Qed.

Lemma file_state_after_app st l l' :
  file_state_after st (l ++ l') = file_state_after (file_state_after st l) l'.
Proof. apply foldl_app. Qed.

Lemma files_ok_app l : forall st l',
  files_ok st (l ++ l') = files_ok st l && files_ok (file_state_after st l) l'.
Proof.
  induction l as [|op l IH]; intros st l'; [reflexivity |].
  destruct op as [f ok| | |]; destruct st; try reflexivity;
    try destruct ok; simpl; apply IH.
Qed.

Section Files.
Variable stem extension : string -> string.
Variable can_open : string -> bool.


Lemma Sound_close_if_open s :
  Sound s -> Sound (close_if_open s) /\ output_ (close_if_open s) = None.
Proof.
  intros [H1 H2]. unfold close_if_open, Sound, file_state in *.
  destruct (output_ s) eqn:E; simpl; [| rewrite E; auto].
  rewrite files_ok_app, file_state_after_app, H1, H2. simpl.
  destruct (header_written_ s); auto.
Qed.

Lemma Sound_reopen s :
  Sound s ->
  let s' := set_header_written_ false (open_output can_open (close_if_open s)) in
  Sound s' /\ Sound (open_output can_open (close_if_open s)) \/
  Sound s' /\ is_Some (output_ (open_output can_open (close_if_open s))).
Proof.
  intros H. destruct (Sound_close_if_open s H) as [[H1 H2] H3].
  set (c := close_if_open s) in *. simpl.
  unfold Sound, open_output, file_state in *. simpl.
  rewrite !files_ok_app, !file_state_after_app, H1, H2, H3. simpl.
  destruct (can_open (get_filename c)); simpl; eauto.
Qed.

Lemma Sound_reopen_fresh s :
  Sound s -> Sound (set_header_written_ false (open_output can_open (close_if_open s))).
Proof. intros H. destruct (Sound_reopen s H) as [[? _]|[? _]]; assumption. Qed.

Lemma Sound_reopen_failed s :
  Sound s -> output_ (open_output can_open (close_if_open s)) = None ->
  Sound (open_output can_open (close_if_open s)).
Proof.
  intros H E. destruct (Sound_reopen s H) as [[_ ?]|[_ [x Hx]]]; [assumption |].
  congruence.
Qed.

Lemma Sound_same s s' :
  ops s' = ops s -> output_ s' = output_ s -> header_written_ s' = header_written_ s ->
  Sound s -> Sound s'.
Proof. unfold Sound, file_state. intros -> -> ->. auto. Qed.

Lemma Sound_enable state reset_ts split s :
  Sound s -> Sound (enable can_open state reset_ts split s).1.
Proof.
  intros H. unfold StreamLogger.enable.
  set (s1 := if negb (split =? InvalidTimestamp) then _ else s).
  assert (H1 : Sound s1).
  { subst s1. destruct (negb (split =? InvalidTimestamp)); [| assumption].
    destruct (negb (negb _)); revert H; apply Sound_same; reflexivity. }
  clearbody s1. destruct (Bool.eqb (enable_ s1) state); [assumption |].
  set (s2 := set_initial_timestamp_ 0 (set_enable_ state s1)).
  assert (H2 : Sound s2) by (revert H1; apply Sound_same; reflexivity).
  clearbody s2. destruct (enable_ s2).
  - destruct (output_ (open_output can_open (close_if_open s2))) eqn:E; simpl.
    + generalize (Sound_reopen_fresh s2 H2). apply Sound_same; reflexivity.
    + apply Sound_reopen_failed; assumption.
  - apply Sound_close_if_open; assumption.
Qed.

Lemma Sound_change_destination filename reset_ts s :
  Sound s -> Sound (change_destination stem extension can_open filename reset_ts s).1.
Proof.
  intros H. unfold StreamLogger.change_destination.
  apply Sound_enable.
  set (s1 := if enable_ s then _ else s).
  assert (H1 : Sound s1).
  { subst s1. destruct (enable_ s); [apply Sound_enable |]; assumption. }
  revert H1. apply Sound_same; reflexivity.
Qed.

Lemma Sound_split_file ts s : Sound s -> Sound (split_file can_open ts s).
Proof.
  intros H. unfold split_file. destruct (_ && _); [| assumption].
  set (s1 := set_last_timestamp_ ts _).
  assert (H1 : Sound s1) by (revert H; apply Sound_same; reflexivity).
  generalize (Sound_reopen_fresh s1 H1). apply Sound_same; reflexivity.
Qed.

(** The loop of [process_events] keeps the events that are not before the
    origin, in their order, and changes [last_timestamp_] only. *)
Lemma copy_events_spec events : forall acc s,
  exists last,
    foldl (fun '(written, s) ev =>
             if initial_timestamp_ s <=? t ev then
               (written ++ [ev], set_last_timestamp_ (t ev) s)
             else (written, s)) (acc, s) events =
    (acc ++ filter (fun ev => initial_timestamp_ s <= t ev) events,
     set_last_timestamp_ last s).
Proof.
  induction events as [|ev events IH]; intros acc s.
  - exists (last_timestamp_ s). simpl. rewrite app_nil_r. destruct s; reflexivity.
  - simpl. rewrite filter_cons. destruct (Z.leb_spec (initial_timestamp_ s) (t ev)).
    + rewrite decide_True by assumption.
      destruct (IH (acc ++ [ev]) (set_last_timestamp_ (t ev) s)) as [last ->].
      exists last. simpl. rewrite <- app_assoc. reflexivity.
    + rewrite decide_False by lia. apply IH.
Qed.

Lemma copy_events_eq events s :
  exists last,
    copy_events events s =
    (filter (fun ev => initial_timestamp_ s <= t ev) events, set_last_timestamp_ last s).
Proof. apply (copy_events_spec events [] s). Qed.

Lemma Sound_process_events events ts s : Sound s -> Sound (process_events can_open events ts s).
Proof.
  intros H. unfold StreamLogger.process_events.
  match goal with |- Sound (set_last_timestamp_ _ ?x) => set (s1 := x) end.
  assert (H1 : Sound s1); [| revert H1; apply Sound_same; reflexivity].
  subst s1. destruct (_ && _) eqn:E; [| assumption].
  apply andb_true_iff in E as [_ E]. apply bool_decide_eq_true in E as [f E].
  set (s1 := if negb (header_written_ s) then _ else s).
  assert (H1 : Sound s1 /\ header_written_ s1 = true /\ output_ s1 = Some f).
  { subst s1. destruct H as [Ha Hb]. unfold Sound, file_state in *.
    destruct (header_written_ s) eqn:Eh; simpl; [rewrite Eh; auto |].
    rewrite files_ok_app, file_state_after_app, Ha, Hb, E. simpl. auto. }
  clearbody s1. destruct H1 as ([Ha Hb] & Hh & Ho).
  destruct (copy_events_eq events s1) as [last ->].
  apply Sound_split_file. unfold Sound, file_state in *. simpl.
  rewrite files_ok_app, file_state_after_app, Ha, Hb, Ho, Hh. simpl. auto.
Qed.

Lemma Sound_call c s : Sound s -> Sound (call stem extension can_open s c).
Proof.
  destruct c; simpl.
  - apply Sound_enable.
  - apply Sound_change_destination.
  - apply Sound_process_events.
  - apply Sound_close_if_open.
Qed.

Lemma Sound_calls cs : forall s, Sound s -> Sound (calls stem extension can_open cs s).
Proof.
  induction cs as [|c cs IH]; intros s H; [assumption |].
  apply IH, Sound_call, H.
Qed.

Lemma Sound_new filename width height :
  Sound (StreamLoggerAlgorithm stem extension filename width height).
Proof. split; reflexivity. Qed.

(** X22: whatever calls are made on a logger, it opens its stream only
    when the stream is closed, closes it only when it is open, writes
    events only into an open file, and only after it has written the
    header of that file, once. *)
Theorem logger_writes_one_header_first filename width height cs :
  files_ok Closed
    (ops (calls stem extension can_open cs (StreamLoggerAlgorithm stem extension filename width height)))
  = true.
Proof. apply (Sound_calls cs), Sound_new. Qed.

(** *** What is written *)

Lemma written_app l l' : written (l ++ l') = written l ++ written l'.
Proof. apply bind_app. Qed.

Lemma written_close_if_open s : written (ops (close_if_open s)) = written (ops s).
Proof.
  unfold close_if_open. destruct (output_ s); [| reflexivity].
  simpl. rewrite written_app. apply app_nil_r.
Qed.

Lemma written_reopen s :
  written (ops (open_output can_open (close_if_open s))) = written (ops s).
Proof.
  unfold open_output. simpl. rewrite written_app, written_close_if_open.
  apply app_nil_r.
Qed.

Lemma written_enable state reset_ts split s :
  written (ops (enable can_open state reset_ts split s).1) = written (ops s).
Proof.
  unfold enable.
  set (s1 := if negb (split =? InvalidTimestamp) then _ else s).
  assert (H1 : ops s1 = ops s).
  { subst s1. destruct (negb (split =? InvalidTimestamp)); [| reflexivity].
    destruct (negb (negb _)); reflexivity. }
  rewrite <- H1. clearbody s1. destruct (Bool.eqb (enable_ s1) state); [reflexivity |].
  set (s2 := set_initial_timestamp_ 0 (set_enable_ state s1)).
  change (ops s1) with (ops s2). clearbody s2. destruct (enable_ s2).
  - destruct (output_ (open_output can_open (close_if_open s2))) eqn:E;
      apply (written_reopen s2).
  - apply written_close_if_open.
Qed.

Lemma written_change_destination filename reset_ts s :
  written (ops (change_destination stem extension can_open filename reset_ts s).1)
  = written (ops s).
Proof.
  unfold change_destination. rewrite written_enable. simpl.
  destruct (enable_ s); [apply written_enable | reflexivity].
Qed.

Lemma written_split_file ts s :
  written (ops (split_file can_open ts s)) = written (ops s).
Proof.
  unfold split_file. destruct (_ && _); [| reflexivity].
  set (s1 := set_last_timestamp_ ts _).
  change (written (ops (open_output can_open (close_if_open s1))) = written (ops s1)).
  apply written_reopen.
Qed.

Lemma written_process_events events ts s :
  written (ops (process_events can_open events ts s)) =
    written (ops s) ++
    (if enable_ s && bool_decide (is_Some (output_ s)) then
       (fun ev => (initial_timestamp_ s, ev)) <$>
         filter (fun ev => initial_timestamp_ s <= t ev) events
     else []).
Proof.
  unfold process_events.
  match goal with |- written (ops (set_last_timestamp_ _ ?x)) = _ =>
    change (written (ops x) = written (ops s) ++
      (if enable_ s && bool_decide (is_Some (output_ s)) then
         (fun ev => (initial_timestamp_ s, ev)) <$>
           filter (fun ev => initial_timestamp_ s <= t ev) events
       else [])) end.
  destruct events as [|ev events].
  { simpl. destruct (_ && _); rewrite app_nil_r; reflexivity. }
  set (evs := ev :: events).
  replace (0 <? Z.of_nat (length evs)) with true
    by (symmetry; apply Z.ltb_lt; simpl; lia).
  rewrite andb_true_l. destruct (_ && _); [| rewrite app_nil_r; reflexivity].
  set (s1 := if negb (header_written_ s) then _ else s).
  assert (H1 : written (ops s1) = written (ops s) /\
               initial_timestamp_ s1 = initial_timestamp_ s).
  { subst s1. destruct (header_written_ s); simpl; [auto |].
    rewrite written_app. simpl. rewrite app_nil_r. auto. }
  clearbody s1. destruct H1 as [<- <-].
  destruct (copy_events_eq evs s1) as [last ->].
  rewrite written_split_file. simpl. rewrite written_app. simpl.
  rewrite app_nil_r. reflexivity.
Qed.

(** X23: [process_events], on a logger that is enabled and whose file is
    open, writes the events of the buffer whose timestamp is not before
    the origin of the file, in their order and against that origin, and
    drops the others; otherwise it writes nothing. In both cases the
    timestamp of the buffer becomes the last timestamp. *)
Theorem process_events_writes_events_from_origin events ts s :
  written (ops (process_events can_open events ts s)) =
    written (ops s) ++
    (if enable_ s && bool_decide (is_Some (output_ s)) then
       (fun ev => (initial_timestamp_ s, ev)) <$>
         filter (fun ev => initial_timestamp_ s <= t ev) events
     else []) /\
  last_timestamp_ (process_events can_open events ts s) = ts.
Proof. split; [apply written_process_events | reflexivity]. Qed.

Lemma from_origin_call c s :
  from_origin (ops s) -> from_origin (ops (call stem extension can_open s c)).
Proof.
  unfold from_origin. destruct c; unfold call.
  - rewrite written_enable. auto.
  - rewrite written_change_destination. auto.
  - rewrite written_process_events. intros H.
    apply Forall_app. split; [assumption |].
    destruct (_ && _); [| constructor].
    apply Forall_fmap, Forall_forall. intros ev Hev.
    apply list_elem_of_filter in Hev. simpl. tauto.
  - unfold close. rewrite written_close_if_open. auto.
Qed.

Lemma from_origin_calls cs : forall s,
  from_origin (ops s) -> from_origin (ops (calls stem extension can_open cs s)).
Proof.
  induction cs as [|c cs IH]; intros s H; [assumption |].
  apply IH, from_origin_call, H.
Qed.

(** X24: whatever calls are made on a logger, every event it writes has a
    timestamp that is not before the origin it is written against: no
    event is written with a negative relative timestamp. *)
Theorem logger_never_writes_event_before_origin filename width height cs :
  from_origin
    (ops (calls stem extension can_open cs
            (StreamLoggerAlgorithm stem extension filename width height))).
Proof. apply from_origin_calls. constructor. Qed.

(** *** Split recordings *)

Ltac logger_fields :=
  cbn [width_ height_ split_counter_ filename_ filename_base_ filename_ext_
       output_ enable_ header_written_ split_timestamp_secs_ split_timestamp_us_
       initial_timestamp_ last_timestamp_ ops
       set_split_counter_ set_split set_names set_output set_enable_
       set_header_written_ set_initial_timestamp_ set_last_timestamp_
       negb Bool.eqb fst snd].

Lemma split_period_valid T : Int.wrap_s64 (T * 1000000) <> InvalidTimestamp.
Proof.
  unfold Int.wrap_s64, InvalidTimestamp.
  change (2 ^ 63) with 9223372036854775808.
  change (2 ^ 64) with 18446744073709551616.
  change (2 ^ 31 - 1) with 2147483647.
  pose proof (Z.div_mod (T * 1000000 + 9223372036854775808) 18446744073709551616
                ltac:(lia)) as H.
  set (q := (T * 1000000 + 9223372036854775808) / 18446744073709551616) in *.
  set (r := (T * 1000000 + 9223372036854775808) mod 18446744073709551616) in *.
  clearbody q r. lia.
Qed.

Lemma enable_split state reset_ts T s :
  let s' := (enable can_open state reset_ts T s).1 in
  split_timestamp_us_ s' =
    (if T =? InvalidTimestamp then split_timestamp_us_ s
     else Int.wrap_s64 (T * 1000000)) /\
  filename_base_ s' = filename_base_ s /\
  filename_ext_ s' = filename_ext_ s.
Proof.
  unfold enable.
  set (s1 := if negb (T =? InvalidTimestamp) then _ else s).
  assert (H1 : split_timestamp_us_ s1 =
                 (if T =? InvalidTimestamp then split_timestamp_us_ s
                  else Int.wrap_s64 (T * 1000000)) /\
               filename_base_ s1 = filename_base_ s /\
               filename_ext_ s1 = filename_ext_ s).
  { subst s1. destruct (T =? InvalidTimestamp); simpl; [auto |].
    destruct (negb (negb _)); auto. }
  destruct H1 as (<- & <- & <-). clearbody s1. simpl.
  destruct (Bool.eqb (enable_ s1) state); [auto |]. simpl.
  destruct state; simpl; unfold close_if_open;
    repeat match goal with
           | |- context [match ?x with _ => _ end] => destruct x; simpl
           end; auto.
Qed.

Lemma split_on_enable state reset_ts T s :
  split_timestamp_us_ s <> InvalidTimestamp ->
  split_timestamp_us_ (enable can_open state reset_ts T s).1 <> InvalidTimestamp.
Proof.
  intros H. rewrite (proj1 (enable_split state reset_ts T s)).
  destruct (T =? InvalidTimestamp); [assumption | apply split_period_valid].
Qed.

Lemma split_file_split ts s :
  split_timestamp_us_ (split_file can_open ts s) = split_timestamp_us_ s /\
  filename_base_ (split_file can_open ts s) = filename_base_ s /\
  filename_ext_ (split_file can_open ts s) = filename_ext_ s.
Proof.
  unfold split_file. destruct (_ && _); simpl; unfold close_if_open;
    repeat match goal with
           | |- context [match ?x with _ => _ end] => destruct x; simpl
           end; auto.
Qed.

Lemma process_events_split events ts s :
  split_timestamp_us_ (process_events can_open events ts s) = split_timestamp_us_ s /\
  filename_base_ (process_events can_open events ts s) = filename_base_ s /\
  filename_ext_ (process_events can_open events ts s) = filename_ext_ s.
Proof.
  unfold process_events. simpl. destruct (_ && _); [| auto].
  set (s1 := if negb (header_written_ s) then _ else s).
  assert (H1 : split_timestamp_us_ s1 = split_timestamp_us_ s /\
               filename_base_ s1 = filename_base_ s /\
               filename_ext_ s1 = filename_ext_ s)
    by (subst s1; destruct (header_written_ s); simpl; auto).
  destruct H1 as (<- & <- & <-). clearbody s1.
  destruct (copy_events_eq events s1) as [last ->].
  apply (split_file_split ts (set_output _ _ (set_last_timestamp_ last s1))).
Qed.

Lemma split_on_call c s :
  split_timestamp_us_ s <> InvalidTimestamp ->
  split_timestamp_us_ (call stem extension can_open s c) <> InvalidTimestamp.
Proof.
  intros H. destruct c; unfold call.
  - apply split_on_enable, H.
  - unfold change_destination. apply split_on_enable. simpl.
    destruct (enable_ s); [apply split_on_enable |]; assumption.
  - rewrite (proj1 (process_events_split events ts s)). assumption.
  - unfold close, close_if_open. destruct (output_ s); assumption.
Qed.

Lemma split_on_calls cs : forall s,
  split_timestamp_us_ s <> InvalidTimestamp ->
  split_timestamp_us_ (calls stem extension can_open cs s) <> InvalidTimestamp.
Proof.
  induction cs as [|c cs IH]; intros s H; [assumption |].
  apply IH, split_on_call, H.
Qed.

(** X25: [enable] with a split time other than [InvalidTimestamp]
    (2147483647) puts the logger in split mode, whatever the state asked
    for; -1 and 0 do. Split mode is never left: after any further calls
    the file name is still the numbered one. *)
Theorem split_mode_is_never_left state reset_ts T s cs :
  T <> InvalidTimestamp ->
  let s' := calls stem extension can_open cs (enable can_open state reset_ts T s).1 in
  split_timestamp_us_ s' <> InvalidTimestamp /\
  get_filename s' = split_name (filename_base_ s') (filename_ext_ s') (split_counter_ s').
Proof.
  intros HT s'.
  assert (H : split_timestamp_us_ s' <> InvalidTimestamp).
  { apply split_on_calls. rewrite (proj1 (enable_split state reset_ts T s)).
    destruct (Z.eqb_spec T InvalidTimestamp); [contradiction | apply split_period_valid]. }
  split; [assumption |]. unfold get_filename.
  destruct (Z.eqb_spec (split_timestamp_us_ s') InvalidTimestamp); [contradiction |].
  reflexivity.
Qed.

Lemma opened_app l l' : opened (l ++ l') = opened l ++ opened l'.
Proof. apply omap_app. Qed.

(** A logger in split mode that has opened the files numbered up to [n]. *)
Lemma process_events_numbered base ext n events ts s :
  split_timestamp_us_ s <> InvalidTimestamp ->
  filename_base_ s = base -> filename_ext_ s = ext ->
  split_counter_ s = Z.of_nat n -> Z.of_nat n + 1 < 2 ^ 64 ->
  opened (ops s) = (fun k => split_name base ext (Z.of_nat k)) <$> seq 0 (S n) ->
  exists n', (n' <= S n)%nat /\
    split_counter_ (process_events can_open events ts s) = Z.of_nat n' /\
    opened (ops (process_events can_open events ts s)) =
      (fun k => split_name base ext (Z.of_nat k)) <$> seq 0 (S n').
Proof.
  intros Hs Hb He Hc Hn Ho. unfold process_events.
  cbn [split_counter_ ops set_last_timestamp_].
  destruct (_ && _); [| exists n; auto].
  set (s1 := if negb (header_written_ s) then _ else s).
  assert (H1 : split_timestamp_us_ s1 = split_timestamp_us_ s /\
               filename_base_ s1 = filename_base_ s /\
               filename_ext_ s1 = filename_ext_ s /\
               split_counter_ s1 = split_counter_ s /\
               opened (ops s1) = opened (ops s)).
  { subst s1. destruct (header_written_ s); simpl; [tauto |].
    rewrite opened_app, app_nil_r. tauto. }
  destruct H1 as (H1 & H2 & H3 & H4 & H5).
  rewrite <- H1 in Hs. rewrite <- H2 in Hb. rewrite <- H3 in He.
  rewrite <- H4 in Hc. rewrite <- H5 in Ho. clearbody s1. clear H1 H2 H3 H4 H5.
  destruct (copy_events_eq events s1) as [last ->].
  unfold split_file.
  destruct (_ && _).
  - exists (S n). split; [lia |].
    assert (Hk : Int.wrap64 (split_counter_ s1 + 1) = Z.of_nat (S n))
      by (rewrite Hc, IntFacts.wrap64_small; lia).
    rewrite (seq_S (S n) 0), fmap_app, <- Ho.
    unfold open_output, close_if_open, get_filename.
    cbn [output_ set_last_timestamp_ set_split_counter_ set_output].
    destruct (output_ s1);
      cbn [split_counter_ ops output_ split_timestamp_us_ filename_base_
           filename_ext_ set_initial_timestamp_ set_header_written_
           last_timestamp_ set_last_timestamp_ set_split_counter_ set_output];
      (destruct (Z.eqb_spec (split_timestamp_us_ s1) InvalidTimestamp) as [E|_];
         [contradiction |]);
      rewrite Hk, Hb, He, !opened_app; (split; [reflexivity |]);
      simpl; rewrite ?app_nil_r; reflexivity.
  - exists n. cbn [split_counter_ ops set_output set_last_timestamp_].
    rewrite opened_app, app_nil_r. auto.
Qed.

Lemma buffers_numbered base ext buffers : forall n s,
  split_timestamp_us_ s <> InvalidTimestamp ->
  filename_base_ s = base -> filename_ext_ s = ext ->
  split_counter_ s = Z.of_nat n ->
  Z.of_nat n + Z.of_nat (length buffers) < 2 ^ 64 ->
  opened (ops s) = (fun k => split_name base ext (Z.of_nat k)) <$> seq 0 (S n) ->
  let s' := calls stem extension can_open
              ((fun b => CallProcessEvents b.1 b.2) <$> buffers) s in
  opened (ops s') =
    (fun k => split_name base ext (Z.of_nat k)) <$>
      seq 0 (S (Z.to_nat (split_counter_ s'))).
Proof.
  induction buffers as [|b buffers IH]; intros n s Hs Hb He Hc Hn Ho.
  - simpl. rewrite Hc, Nat2Z.id. assumption.
  - simpl in Hn.
    destruct (process_events_numbered base ext n b.1 b.2 s Hs Hb He Hc ltac:(lia) Ho)
      as (n' & Hn' & Hc' & Ho').
    destruct (process_events_split b.1 b.2 s) as (E1 & E2 & E3).
    apply (IH n' (process_events can_open b.1 b.2 s)); try congruence. lia.
Qed.

Lemma enable_first reset_ts T s :
  T <> InvalidTimestamp ->
  enable_ s = false -> output_ s = None -> ops s = [] ->
  split_timestamp_secs_ s = InvalidTimestamp ->
  split_counter_ (enable can_open true reset_ts T s).1 = 0 /\
  opened (ops (enable can_open true reset_ts T s).1) =
    [split_name (filename_base_ s) (filename_ext_ s) 0].
Proof.
  intros HT He Ho Hops Hs. unfold enable. rewrite Hs, Z.eqb_refl.
  destruct (Z.eqb_spec T InvalidTimestamp); [contradiction |].
  pose proof (split_period_valid T) as Hus.
  set (us := Int.wrap_s64 (T * 1000000)) in *. clearbody us.
  logger_fields. rewrite He. logger_fields.
  unfold close_if_open. logger_fields. rewrite Ho.
  unfold open_output, get_filename. logger_fields.
  destruct (Z.eqb_spec us InvalidTimestamp); [contradiction |].
  destruct (can_open _); logger_fields; rewrite Hops; split; reflexivity.
Qed.

(** X26: a recording in split mode, from a new logger, opens the files
    [base_0000.ext], [base_0001.ext], ... in this order, one after the
    other and none twice: as many as the split counter says, plus one. *)
Theorem split_files_are_numbered_in_order filename width height reset_ts T buffers :
  T <> InvalidTimestamp ->
  Z.of_nat (length buffers) < 2 ^ 64 ->
  let s := calls stem extension can_open (recording reset_ts T buffers)
             (StreamLoggerAlgorithm stem extension filename width height) in
  opened (ops s) =
    (fun k => split_name (stem filename) (extension filename) (Z.of_nat k)) <$>
      seq 0 (S (Z.to_nat (split_counter_ s))).
Proof.
  intros HT Hn. unfold recording, calls. simpl foldl.
  apply (buffers_numbered (stem filename) (extension filename) buffers 0).
  - rewrite (proj1 (enable_split _ _ _ _)).
    destruct (Z.eqb_spec T InvalidTimestamp); [contradiction | apply split_period_valid].
  - rewrite (proj1 (proj2 (enable_split _ _ _ _))). reflexivity.
  - rewrite (proj2 (proj2 (enable_split _ _ _ _))). reflexivity.
  - apply (enable_first reset_ts T _ HT); reflexivity.
  - change (Z.of_nat 0) with 0. lia.
  - exact (proj2 (enable_first reset_ts T
                    (StreamLoggerAlgorithm stem extension filename width height)
                    HT eq_refl eq_refl eq_refl eq_refl)).
Qed.

(** *** An output file that cannot be opened *)

Lemma enable_again reset_ts T s :
  enable_ s = true ->
  (enable can_open true reset_ts T s).2 = false /\
  ops (enable can_open true reset_ts T s).1 = ops s /\
  output_ (enable can_open true reset_ts T s).1 = output_ s.
Proof.
  intros He. unfold enable.
  set (s1 := if negb (T =? InvalidTimestamp) then _ else s).
  assert (H1 : enable_ s1 = true /\ ops s1 = ops s /\ output_ s1 = output_ s).
  { subst s1. destruct (negb (T =? InvalidTimestamp)); [| auto].
    destruct (negb (negb _)); auto. }
  destruct H1 as (-> & <- & <-). auto.
Qed.

(** X27: when [enable(true)] throws because the file cannot be opened,
    the logger is left enabled with its stream closed. Enabling it again
    does not throw, does not try to open the file again and leaves the
    stream closed, and the events it is given are not written. *)
Theorem failed_enable_leaves_logger_enabled reset_ts T s s' :
  enable can_open true reset_ts T s = (s', true) ->
  is_enable s' = true /\ output_ s' = None /\
  (forall reset_ts' T',
     let r := enable can_open true reset_ts' T' s' in
     r.2 = false /\ ops r.1 = ops s' /\ output_ r.1 = None) /\
  (forall events ts, ops (process_events can_open events ts s') = ops s').
Proof.
  intros H.
  assert (H' : is_enable s' = true /\ output_ s' = None).
  { revert H. unfold enable.
    set (s1 := if negb (T =? InvalidTimestamp) then _ else s). clearbody s1.
    destruct (Bool.eqb (enable_ s1) true); [discriminate |].
    simpl. destruct (can_open _) eqn:E; simpl; [discriminate |].
    intros [= <-]. simpl. rewrite ?E. unfold close_if_open.
    split; [| reflexivity].
    match goal with |- context [match ?x with _ => _ end] => destruct x end;
      reflexivity. }
  destruct H' as [He Ho]. unfold is_enable in He.
  split; [assumption |]. split; [assumption |]. split.
  - intros reset_ts' T' r. destruct (enable_again reset_ts' T' s' He) as (? & ? & ?).
    subst r. rewrite <- Ho. auto.
  - intros events ts. unfold process_events. rewrite Ho.
    rewrite bool_decide_eq_false_2 by (intros [? ?]; discriminate).
    rewrite andb_false_r. reflexivity.
Qed.

End Files.

Lemma split_mode_is_never_left_witness :
  (-1 <> InvalidTimestamp) /\
  let s' := calls (fun _ => "rec") (fun _ => ".dat") (fun _ => true)
              [CallProcessEvents sample_events 20; CallEnable true true InvalidTimestamp]
              (enable (fun _ => true) false true (-1) sample_logger).1 in
  split_timestamp_us_ s' <> InvalidTimestamp /\
  get_filename s' = split_name (filename_base_ s') (filename_ext_ s') (split_counter_ s').
Proof.
  split; [discriminate |].
  apply (split_mode_is_never_left (fun _ => "rec") (fun _ => ".dat") (fun _ => true)
           false true (-1) sample_logger). discriminate.
Defined.

Lemma split_files_are_numbered_in_order_witness :
  (1 <> InvalidTimestamp) /\
  (Z.of_nat (length [(sample_events, 20); (sample_events, 1000020)]) < 2 ^ 64) /\
  let s := calls (fun _ => "rec") (fun _ => ".dat") (fun _ => true)
             (recording true 1 [(sample_events, 20); (sample_events, 1000020)])
             (StreamLoggerAlgorithm (fun _ => "rec") (fun _ => ".dat") "rec.dat" 640 480) in
  opened (ops s) =
    (fun k => split_name "rec" ".dat" (Z.of_nat k)) <$>
      seq 0 (S (Z.to_nat (split_counter_ s))).
Proof.
  split; [discriminate |]. split; [reflexivity |].
  apply (split_files_are_numbered_in_order (fun _ => "rec") (fun _ => ".dat")
           (fun _ => true) "rec.dat" 640 480 true 1
           [(sample_events, 20); (sample_events, 1000020)]);
    [discriminate | reflexivity].
Defined.

Lemma failed_enable_leaves_logger_enabled_witness :
  enable read_only true true InvalidTimestamp sample_logger =
    (set_output None [Open "rec.dat" false]
       (set_enable_ true sample_logger), true) /\
  is_enable (set_output None [Open "rec.dat" false] (set_enable_ true sample_logger))
    = true.
Proof.
  split; [reflexivity |].
  apply (failed_enable_leaves_logger_enabled read_only true InvalidTimestamp
           sample_logger _ eq_refl).
Defined.

End StreamLoggerSpec.
